(** * nexus-indexer: the proof registry contract and the transaction tracker

    Two parts of the repository are embedded here.

    - [Registry]: the Solidity contract [ZKProofRegistry] (submitProof,
      _mintNFT, setEventMetadata, validateProof, hasValidProofForEvent and
      the read-only getters), as functions in a state-and-revert monad over
      a record of the contract's storage; first for recipients of tokens
      whose [onERC721Received] hook makes no call, then for recipients
      whose hook calls the contract while [submitProof] is running.
    - [Tracker]: [BlockchainManager.monitorTransaction],
      [getTransactionStatus] and [clearTransactionHistory] of
      src/lib/blockchain.ts, over the static [pendingTransactions] map,
      once as a function of what the provider answers and once as tasks
      that are suspended at each await and may interleave.
    - [Client]: [connectWallet], [getContractWithSigner], [getAddress],
      [submitProofToBlockchain], [submitGroupProofToBlockchain] and
      [getUserNFTs] of the same class, as flows that return or throw. *)

From Stdlib Require Import ZArith List Lia Bool String Ascii DecimalString
  DecimalNat.
From stdpp Require Import base option list gmap strings.

Local Open Scope Z_scope.

(** ** Unsigned 256-bit words *)

Definition uint256_modulus : Z := 2 ^ 256.

Definition wrap256 (x : Z) : Z := x mod uint256_modulus.

Lemma uint256_modulus_pos : 0 < uint256_modulus.
Proof. unfold uint256_modulus. lia. Qed.

Lemma wrap256_small x : 0 <= x < uint256_modulus -> wrap256 x = x.
Proof. intros H. unfold wrap256. now apply Z.mod_small. Qed.

Module Registry.

(** *** Storage *)

(** [struct ProofCommitment]; [bytes32] and [address] are the integers
    they denote. *)
Record ProofCommitment := mkProofCommitment {
  commitment : Z;
  eventId : string;
  submitter : Z;
  timestamp : Z;
  isValid : bool;
  nftTokenId : Z (* 0 if no NFT minted *)
}.

(** [struct ProofMetadata] *)
Record ProofMetadata := mkProofMetadata {
  eventName : string;
  eventDescription : string;
  imageUri : string;
  location : string;
  eventDate : Z
}.

(** The value a Solidity mapping yields at a key never written. *)
Definition zeroProofCommitment : ProofCommitment :=
  mkProofCommitment 0 EmptyString 0 0 false 0.

Definition zeroProofMetadata : ProofMetadata :=
  mkProofMetadata EmptyString EmptyString EmptyString EmptyString 0.

Inductive Event :=
| ProofSubmitted (proofId commitment : Z) (eventId : string) (submitter : Z)
| ProofValidated (proofId : Z) (isValid : bool)
| NFTMinted (tokenId proofId recipient : Z) (eventId : string)
| EventMetadataSet (eventId eventName imageUri : string)
| Transfer (from to tokenId : Z)
| OwnershipTransferred (previousOwner newOwner : Z).

(** The contract's storage.  [_owner] is Ownable's owner, [_owners] and
    [_tokenURIs] are the ERC721 and ERC721URIStorage mappings the contract
    inherits; [log] collects the emitted events. *)
Record State := mkState {
  _tokenIdCounter : Z;
  _proofCounter : Z;
  proofCommitments : gmap Z ProofCommitment;
  commitmentToProofId : gmap Z Z;
  eventMetadata : gmap string ProofMetadata;
  userProofs : gmap Z (list Z);
  eventProofs : gmap string (list Z);
  _baseTokenURI : string;
  _owner : Z;
  _owners : gmap Z Z;
  _tokenURIs : gmap Z string;
  log : list Event
}.

(** Reads of mappings, with Solidity's default at a missing key. *)
Definition proofCommitments_at (s : State) (proofId : Z) : ProofCommitment :=
  default zeroProofCommitment (proofCommitments s !! proofId).

Definition commitmentToProofId_at (s : State) (c : Z) : Z :=
  default 0 (commitmentToProofId s !! c).

Definition eventMetadata_at (s : State) (e : string) : ProofMetadata :=
  default zeroProofMetadata (eventMetadata s !! e).

Definition userProofs_at (s : State) (user : Z) : list Z :=
  default [] (userProofs s !! user).

Definition eventProofs_at (s : State) (e : string) : list Z :=
  default [] (eventProofs s !! e).

(** ERC721's [_exists]: a token exists when it has a non-zero owner. *)
Definition _exists (s : State) (tokenId : Z) : bool :=
  negb (default 0 (_owners s !! tokenId) =? 0).

(** Field updates. *)
Definition with_tokenIdCounter (v : Z) (s : State) : State :=
  mkState v (_proofCounter s) (proofCommitments s) (commitmentToProofId s)
    (eventMetadata s) (userProofs s) (eventProofs s) (_baseTokenURI s)
    (_owner s) (_owners s) (_tokenURIs s) (log s).

Definition with_proofCounter (v : Z) (s : State) : State :=
  mkState (_tokenIdCounter s) v (proofCommitments s) (commitmentToProofId s)
    (eventMetadata s) (userProofs s) (eventProofs s) (_baseTokenURI s)
    (_owner s) (_owners s) (_tokenURIs s) (log s).

Definition with_proofCommitments (v : gmap Z ProofCommitment) (s : State) : State :=
  mkState (_tokenIdCounter s) (_proofCounter s) v (commitmentToProofId s)
    (eventMetadata s) (userProofs s) (eventProofs s) (_baseTokenURI s)
    (_owner s) (_owners s) (_tokenURIs s) (log s).

Definition with_commitmentToProofId (v : gmap Z Z) (s : State) : State :=
  mkState (_tokenIdCounter s) (_proofCounter s) (proofCommitments s) v
    (eventMetadata s) (userProofs s) (eventProofs s) (_baseTokenURI s)
    (_owner s) (_owners s) (_tokenURIs s) (log s).

Definition with_eventMetadata (v : gmap string ProofMetadata) (s : State) : State :=
  mkState (_tokenIdCounter s) (_proofCounter s) (proofCommitments s)
    (commitmentToProofId s) v (userProofs s) (eventProofs s) (_baseTokenURI s)
    (_owner s) (_owners s) (_tokenURIs s) (log s).

Definition with_userProofs (v : gmap Z (list Z)) (s : State) : State :=
  mkState (_tokenIdCounter s) (_proofCounter s) (proofCommitments s)
    (commitmentToProofId s) (eventMetadata s) v (eventProofs s) (_baseTokenURI s)
    (_owner s) (_owners s) (_tokenURIs s) (log s).

Definition with_eventProofs (v : gmap string (list Z)) (s : State) : State :=
  mkState (_tokenIdCounter s) (_proofCounter s) (proofCommitments s)
    (commitmentToProofId s) (eventMetadata s) (userProofs s) v (_baseTokenURI s)
    (_owner s) (_owners s) (_tokenURIs s) (log s).

Definition with_baseTokenURI (v : string) (s : State) : State :=
  mkState (_tokenIdCounter s) (_proofCounter s) (proofCommitments s)
    (commitmentToProofId s) (eventMetadata s) (userProofs s) (eventProofs s) v
    (_owner s) (_owners s) (_tokenURIs s) (log s).

Definition with_owner (v : Z) (s : State) : State :=
  mkState (_tokenIdCounter s) (_proofCounter s) (proofCommitments s)
    (commitmentToProofId s) (eventMetadata s) (userProofs s) (eventProofs s)
    (_baseTokenURI s) v (_owners s) (_tokenURIs s) (log s).

Definition with_owners (v : gmap Z Z) (s : State) : State :=
  mkState (_tokenIdCounter s) (_proofCounter s) (proofCommitments s)
    (commitmentToProofId s) (eventMetadata s) (userProofs s) (eventProofs s)
    (_baseTokenURI s) (_owner s) v (_tokenURIs s) (log s).

Definition with_tokenURIs (v : gmap Z string) (s : State) : State :=
  mkState (_tokenIdCounter s) (_proofCounter s) (proofCommitments s)
    (commitmentToProofId s) (eventMetadata s) (userProofs s) (eventProofs s)
    (_baseTokenURI s) (_owner s) (_owners s) v (log s).

Definition with_log (v : list Event) (s : State) : State :=
  mkState (_tokenIdCounter s) (_proofCounter s) (proofCommitments s)
    (commitmentToProofId s) (eventMetadata s) (userProofs s) (eventProofs s)
    (_baseTokenURI s) (_owner s) (_owners s) (_tokenURIs s) v.

(** *** Reverts and the contract monad *)

(** One constructor per [require] message that can stop a call. *)
Inductive Error :=
| EventIdEmpty          (* "Event ID cannot be empty" *)
| ProofDataEmpty        (* "Proof data cannot be empty" *)
| ProofAlreadySubmitted (* "Proof already submitted" *)
| InvalidProofId        (* "Invalid proof ID" *)
| CallerIsNotOwner      (* "Ownable: caller is not the owner" *)
| NewOwnerIsZero        (* "Ownable: new owner is the zero address" *)
| MintToZeroAddress     (* "ERC721: mint to the zero address" *)
| TokenAlreadyMinted    (* "ERC721: token already minted" *)
| NonERC721Receiver     (* "ERC721: transfer to non ERC721Receiver implementer" *)
| TransferFromIncorrectOwner (* "ERC721: transfer from incorrect owner" *)
| TransferToZeroAddress      (* "ERC721: transfer to the zero address" *)
| URISetOfNonexistentToken.  (* "ERC721URIStorage: URI set of nonexistent token" *)

Inductive result (A : Type) :=
| Ok (a : A)
| Revert (e : Error).
Arguments Ok {A} a.
Arguments Revert {A} e.

(** A call either returns a value and a new storage, or reverts, in which
    case the storage of before the call stands. *)
Definition M (A : Type) : Type := State -> result (A * State).

Definition ret {A} (a : A) : M A := fun s => Ok (a, s).

Definition bind {A B} (m : M A) (k : A -> M B) : M B :=
  fun s => match m s with
           | Ok (a, s') => k a s'
           | Revert e => Revert e
           end.

Notation "x <- m ; k" := (bind m (fun x => k))
  (at level 20, m at level 100, k at level 200, only parsing).
Notation "m >> k" := (bind m (fun _ => k))
  (at level 100, k at level 200, only parsing, right associativity).

Definition require (b : bool) (e : Error) : M unit :=
  fun s => if b then Ok (tt, s) else Revert e.

Definition read {A} (f : State -> A) : M A := fun s => Ok (f s, s).

Definition write (f : State -> State) : M unit := fun s => Ok (tt, f s).

Definition emit (ev : Event) : M unit :=
  write (fun s => with_log (log s ++ [ev]) s).

(** Counters.sol: [increment] adds one inside an [unchecked] block, so it
    wraps at 2^256; [current] reads the value. *)
Definition increment_tokenIdCounter : M unit :=
  write (fun s => with_tokenIdCounter (wrap256 (_tokenIdCounter s + 1)) s).

Definition increment_proofCounter : M unit :=
  write (fun s => with_proofCounter (wrap256 (_proofCounter s + 1)) s).

(** *** abi.encodePacked *)

Definition bytes_of_string (s : string) : list Z :=
  map (fun c => Z.of_N (N_of_ascii c)) (list_ascii_of_string s).

(** The [n] low bytes of [v], most significant first. *)
Fixpoint be_bytes (n : nat) (v : Z) : list Z :=
  match n with
  | O => []
  | S k => be_bytes k (v / 256) ++ [v mod 256]
  end.

(** [abi.encodePacked(eventId, proofData, msg.sender, block.timestamp)]:
    the two dynamic values without their lengths, then the address on 20
    bytes and the timestamp on 32. *)
Definition encodePacked (eventId : string) (proofData : list Z)
    (sender time : Z) : list Z :=
  bytes_of_string eventId ++ proofData ++ be_bytes 20 sender ++ be_bytes 32 time.

Section Contract.

(** The hash function, and what [_checkOnERC721Received] answers for a
    recipient (true for every account that is not a contract).  In the
    functions that follow, the recipient's hook is this answer only: it
    does not call back into the contract, so [nonReentrant] has nothing
    to stop and is left out.  A recipient whose hook does call the
    contract is treated further down, from [_safeMint_calling] on. *)
Variable keccak256 : list Z -> Z.
Variable acceptsERC721 : Z -> bool.

(** Ownable's modifier. *)
Definition onlyOwner (msg_sender : Z) : M unit :=
  o <- read _owner;
  require (o =? msg_sender) CallerIsNotOwner.

(** ERC721's [_safeMint(to, tokenId)]. *)
Definition _safeMint (to tokenId : Z) : M unit :=
  require (negb (to =? 0)) MintToZeroAddress >>
  minted <- read (fun s => _exists s tokenId);
  require (negb minted) TokenAlreadyMinted >>
  write (fun s => with_owners (<[tokenId := to]> (_owners s)) s) >>
  emit (Transfer 0 to tokenId) >>
  require (acceptsERC721 to) NonERC721Receiver.

(** ERC721URIStorage's [_setTokenURI]. *)
Definition _setTokenURI (tokenId : Z) (uri : string) : M unit :=
  minted <- read (fun s => _exists s tokenId);
  require minted URISetOfNonexistentToken >>
  write (fun s => with_tokenURIs (<[tokenId := uri]> (_tokenURIs s)) s).

Definition set_nftTokenId (tokenId : Z) (p : ProofCommitment) : ProofCommitment :=
  mkProofCommitment (commitment p) (eventId p) (submitter p) (timestamp p)
    (isValid p) tokenId.

Definition set_isValid (v : bool) (p : ProofCommitment) : ProofCommitment :=
  mkProofCommitment (commitment p) (eventId p) (submitter p) (timestamp p)
    v (nftTokenId p).

Definition _mintNFT (proofId recipient : Z) (eventId : string) : M unit :=
  increment_tokenIdCounter >>
  tokenId <- read _tokenIdCounter;
  (* Update proof with NFT token ID *)
  write (fun s => with_proofCommitments
           (<[proofId := set_nftTokenId tokenId (proofCommitments_at s proofId)]>
              (proofCommitments s)) s) >>
  (* Mint NFT *)
  _safeMint recipient tokenId >>
  (* Set token URI based on event metadata *)
  metadata <- read (fun s => eventMetadata_at s eventId);
  (if 0 <? Z.of_nat (String.length (imageUri metadata))
   then _setTokenURI tokenId (imageUri metadata)
   else ret tt) >>
  emit (NFTMinted tokenId proofId recipient eventId).

Definition submitProof (msg_sender block_timestamp : Z)
    (eventId : string) (proofData : list Z) : M Z :=
  require (0 <? Z.of_nat (String.length eventId)) EventIdEmpty >>
  require (0 <? Z.of_nat (length proofData)) ProofDataEmpty >>
  (* Create commitment hash *)
  let commitment :=
    keccak256 (encodePacked eventId proofData msg_sender block_timestamp) in
  (* Ensure this commitment hasn't been submitted before *)
  known <- read (fun s => commitmentToProofId_at s commitment);
  require (known =? 0) ProofAlreadySubmitted >>
  increment_proofCounter >>
  proofId <- read _proofCounter;
  (* Store proof commitment *)
  write (fun s => with_proofCommitments
           (<[proofId := mkProofCommitment commitment eventId msg_sender
                           block_timestamp true 0]> (proofCommitments s)) s) >>
  (* Update mappings *)
  write (fun s => with_commitmentToProofId
           (<[commitment := proofId]> (commitmentToProofId s)) s) >>
  write (fun s => with_userProofs
           (<[msg_sender := userProofs_at s msg_sender ++ [proofId]]>
              (userProofs s)) s) >>
  write (fun s => with_eventProofs
           (<[eventId := eventProofs_at s eventId ++ [proofId]]>
              (eventProofs s)) s) >>
  emit (ProofSubmitted proofId commitment eventId msg_sender) >>
  (* Auto-mint NFT for valid proof *)
  stored <- read (fun s => proofCommitments_at s proofId);
  (if isValid stored then _mintNFT proofId msg_sender eventId else ret tt) >>
  ret proofId.

Definition setEventMetadata (msg_sender : Z) (eventId : string)
    (eventName eventDescription imageUri location : string) (eventDate : Z)
    : M unit :=
  onlyOwner msg_sender >>
  write (fun s => with_eventMetadata
           (<[eventId := mkProofMetadata eventName eventDescription imageUri
                           location eventDate]> (eventMetadata s)) s) >>
  emit (EventMetadataSet eventId eventName imageUri).

Definition validateProof (msg_sender : Z) (proofId : Z) (isValid : bool)
    : M unit :=
  onlyOwner msg_sender >>
  total <- read _proofCounter;
  require ((0 <? proofId) && (proofId <=? total)) InvalidProofId >>
  write (fun s => with_proofCommitments
           (<[proofId := set_isValid isValid (proofCommitments_at s proofId)]>
              (proofCommitments s)) s) >>
  emit (ProofValidated proofId isValid) >>
  (* Mint NFT if proof is now valid and no NFT exists *)
  stored <- read (fun s => proofCommitments_at s proofId);
  if isValid && (nftTokenId stored =? 0)
  then _mintNFT proofId (submitter stored) (Registry.eventId stored)
  else ret tt.

Definition setBaseURI (msg_sender : Z) (baseTokenURI : string) : M unit :=
  onlyOwner msg_sender >>
  write (with_baseTokenURI baseTokenURI).

(** The views. *)
Definition getUserProofs (s : State) (user : Z) : list Z := userProofs_at s user.

Definition getEventProofs (s : State) (e : string) : list Z := eventProofs_at s e.

Definition getTotalProofs (s : State) : Z := _proofCounter s.

Definition getTotalNFTs (s : State) : Z := _tokenIdCounter s.

Definition getProof (proofId : Z) : M ProofCommitment :=
  total <- read _proofCounter;
  require ((0 <? proofId) && (proofId <=? total)) InvalidProofId >>
  read (fun s => proofCommitments_at s proofId).

(** The loop of [hasValidProofForEvent] over [userProofIds], leaving at the
    first hit. *)
Fixpoint hasValidProofForEvent_from (s : State) (eventId : string)
    (userProofIds : list Z) : bool :=
  match userProofIds with
  | [] => false
  | id :: rest =>
      let proof := proofCommitments_at s id in
      if (keccak256 (bytes_of_string (Registry.eventId proof))
            =? keccak256 (bytes_of_string eventId)) && isValid proof
      then true
      else hasValidProofForEvent_from s eventId rest
  end.

Definition hasValidProofForEvent (s : State) (user : Z) (eventId : string) : bool :=
  hasValidProofForEvent_from s eventId (userProofs_at s user).

(** *** What the contract inherits and exposes *)

(** Ownable's [transferOwnership] and [renounceOwnership]. *)
Definition transferOwnership (msg_sender newOwner : Z) : M unit :=
  onlyOwner msg_sender >>
  require (negb (newOwner =? 0)) NewOwnerIsZero >>
  old <- read _owner;
  write (with_owner newOwner) >>
  emit (OwnershipTransferred old newOwner).

Definition renounceOwnership (msg_sender : Z) : M unit :=
  onlyOwner msg_sender >>
  old <- read _owner;
  write (with_owner 0) >>
  emit (OwnershipTransferred old 0).

(** ERC721's [_transfer], which every public transfer function ends in.
    The approval check that precedes it is left out, so that any caller
    may move a token: this only adds reachable states. *)
Definition transferFrom (from to tokenId : Z) : M unit :=
  holder <- read (fun s => default 0 (_owners s !! tokenId));
  require (negb (holder =? 0) && (holder =? from)) TransferFromIncorrectOwner >>
  require (negb (to =? 0)) TransferToZeroAddress >>
  write (fun s => with_owners (<[tokenId := to]> (_owners s)) s) >>
  emit (Transfer from to tokenId).

(** *** Transactions *)

Inductive Call :=
| CallSubmitProof (eventId : string) (proofData : list Z)
| CallSetEventMetadata (eventId eventName eventDescription imageUri
                          location : string) (eventDate : Z)
| CallValidateProof (proofId : Z) (isValid : bool)
| CallSetBaseURI (baseTokenURI : string)
| CallTransferOwnership (newOwner : Z)
| CallRenounceOwnership
| CallTransferFrom (from to tokenId : Z).

Record Tx := mkTx {
  msg_sender : Z;
  block_timestamp : Z;
  call : Call
}.

Definition dispatch (tx : Tx) : M unit :=
  match call tx with
  | CallSubmitProof e d =>
      submitProof (msg_sender tx) (block_timestamp tx) e d >> ret tt
  | CallSetEventMetadata e n d i l t =>
      setEventMetadata (msg_sender tx) e n d i l t
  | CallValidateProof p v => validateProof (msg_sender tx) p v
  | CallSetBaseURI u => setBaseURI (msg_sender tx) u
  | CallTransferOwnership o => transferOwnership (msg_sender tx) o
  | CallRenounceOwnership => renounceOwnership (msg_sender tx)
  | CallTransferFrom f t i => transferFrom f t i
  end.

(** A transaction that reverts leaves the storage as it was. *)
Definition exec (s : State) (tx : Tx) : State :=
  match dispatch tx s with
  | Ok (_, s') => s'
  | Revert _ => s
  end.

(** The storage right after the constructor ran for [deployer]. *)
Definition deployed (deployer : Z) (baseTokenURI : string) : State :=
  mkState 0 0 ∅ ∅ ∅ ∅ ∅ baseTokenURI deployer ∅ ∅
    [OwnershipTransferred 0 deployer].

Definition run (deployer : Z) (baseTokenURI : string) (txs : list Tx) : State :=
  fold_left exec txs (deployed deployer baseTokenURI).

(** *** What a successful call does to the storage *)

Ltac run_monad :=
  unfold bind, require, read, write, emit, ret,
    increment_tokenIdCounter, increment_proofCounter in *;
  simpl in *.

(** The storage after [_mintNFT] went through. *)
Definition after_mint (proofId recipient : Z) (e : string) (s : State) : State :=
  let tokenId := wrap256 (_tokenIdCounter s + 1) in
  let uri := imageUri (eventMetadata_at s e) in
  with_log (log s ++ [Transfer 0 recipient tokenId;
                      NFTMinted tokenId proofId recipient e])
    (with_tokenURIs
       (if 0 <? Z.of_nat (String.length uri)
        then <[tokenId := uri]> (_tokenURIs s) else _tokenURIs s)
       (with_owners (<[tokenId := recipient]> (_owners s))
          (with_proofCommitments
             (<[proofId := set_nftTokenId tokenId (proofCommitments_at s proofId)]>
                (proofCommitments s))
             (with_tokenIdCounter tokenId s)))).

Definition can_mint (recipient : Z) (s : State) : bool :=
  negb (recipient =? 0)
  && negb (_exists s (wrap256 (_tokenIdCounter s + 1)))
  && acceptsERC721 recipient.

Ltac unfold_reads :=
  unfold eventMetadata_at, proofCommitments_at, commitmentToProofId_at,
    userProofs_at, eventProofs_at, _exists in *;
  simpl in *.

Ltac unfold_with :=
  unfold with_tokenIdCounter, with_proofCounter, with_proofCommitments,
    with_commitmentToProofId, with_eventMetadata, with_userProofs,
    with_eventProofs, with_baseTokenURI, with_owner, with_owners,
    with_tokenURIs, with_log in *;
  simpl in *.

Ltac crunch := repeat progress (run_monad; unfold_reads; unfold_with).

Lemma _mintNFT_eq proofId recipient e s :
  _mintNFT proofId recipient e s =
  if can_mint recipient s then Ok (tt, after_mint proofId recipient e s)
  else Revert (if recipient =? 0 then MintToZeroAddress
               else if _exists s (wrap256 (_tokenIdCounter s + 1))
                    then TokenAlreadyMinted else NonERC721Receiver).
Proof.
  destruct s.
  unfold _mintNFT, _safeMint, _setTokenURI, can_mint, after_mint.
  run_monad. unfold_reads.
  destruct (recipient =? 0) eqn:Hr; simpl; [reflexivity|].
  match goal with |- context [default 0 ?o =? 0] =>
    destruct (default 0 o =? 0) eqn:Hex end; simpl; [|reflexivity].
  destruct (acceptsERC721 recipient); simpl; [|reflexivity].
  match goal with |- context [0 <? ?n] => destruct (0 <? n) eqn:Hu end.
  - unfold_with. rewrite lookup_insert_eq. simpl. rewrite Hr. simpl.
    crunch. rewrite <- app_assoc. reflexivity.
  - crunch. rewrite <- app_assoc. reflexivity.
Qed.

(** The storage of [submitProof] at the point where it calls [_mintNFT]. *)
Definition after_store (sender time : Z) (e : string) (d : list Z)
    (s : State) : State :=
  let c := keccak256 (encodePacked e d sender time) in
  let proofId := wrap256 (_proofCounter s + 1) in
  with_log (log s ++ [ProofSubmitted proofId c e sender])
    (with_eventProofs (<[e := eventProofs_at s e ++ [proofId]]> (eventProofs s))
       (with_userProofs
          (<[sender := userProofs_at s sender ++ [proofId]]> (userProofs s))
          (with_commitmentToProofId (<[c := proofId]> (commitmentToProofId s))
             (with_proofCommitments
                (<[proofId := mkProofCommitment c e sender time true 0]>
                   (proofCommitments s))
                (with_proofCounter proofId s))))).

Lemma submitProof_eq sender time e d s :
  submitProof sender time e d s =
  if negb (0 <? Z.of_nat (String.length e)) then Revert EventIdEmpty
  else if negb (0 <? Z.of_nat (length d)) then Revert ProofDataEmpty
  else if negb (commitmentToProofId_at s
                  (keccak256 (encodePacked e d sender time)) =? 0)
  then Revert ProofAlreadySubmitted
  else match _mintNFT (wrap256 (_proofCounter s + 1)) sender e
               (after_store sender time e d s) with
       | Ok (_, s') => Ok (wrap256 (_proofCounter s + 1), s')
       | Revert err => Revert err
       end.
Proof.
  unfold submitProof. run_monad.
  destruct (0 <? Z.of_nat (String.length e)); simpl; [|reflexivity].
  destruct (0 <? Z.of_nat (length d)); simpl; [|reflexivity].
  destruct (commitmentToProofId_at s _ =? 0) eqn:Hc; simpl; [|reflexivity].
  unfold proofCommitments_at at 1. unfold_with.
  rewrite lookup_insert_eq. simpl.
  unfold after_store. destruct s. crunch. reflexivity.
Qed.

(** The storage of [validateProof] after it wrote [isValid] and emitted
    [ProofValidated]. *)
Definition after_validate (proofId : Z) (v : bool) (s : State) : State :=
  with_log (log s ++ [ProofValidated proofId v])
    (with_proofCommitments
       (<[proofId := set_isValid v (proofCommitments_at s proofId)]>
          (proofCommitments s)) s).

Lemma validateProof_eq sender proofId v s :
  validateProof sender proofId v s =
  if negb (_owner s =? sender) then Revert CallerIsNotOwner
  else if negb ((0 <? proofId) && (proofId <=? _proofCounter s))
  then Revert InvalidProofId
  else let stored := proofCommitments_at s proofId in
       if v && (nftTokenId stored =? 0)
       then _mintNFT proofId (submitter stored) (eventId stored)
              (after_validate proofId v s)
       else Ok (tt, after_validate proofId v s).
Proof.
  unfold validateProof, onlyOwner. run_monad.
  destruct (_owner s =? sender); simpl; [|reflexivity].
  destruct ((0 <? proofId) && (proofId <=? _proofCounter s)); simpl;
    [|reflexivity].
  unfold after_validate. destruct s. crunch.
  rewrite !lookup_insert_eq. simpl.
  destruct (v && _); reflexivity.
Qed.

(** *** The invariant of the storage *)

(** What holds of the storage after the constructor and after every
    transaction, as long as the counters have not wrapped: the records are
    those numbered 1 to [_proofCounter], each with the token of its own
    number; the commitment index and the per-user lists point at stored
    records only; the tokens that exist are those numbered 1 to
    [_tokenIdCounter]. *)
Record Inv (s : State) : Prop := mkInv {
  inv_range : 0 <= _proofCounter s < uint256_modulus;
  inv_lockstep : _tokenIdCounter s = _proofCounter s;
  inv_stored : forall id p, proofCommitments s !! id = Some p ->
    1 <= id <= _proofCounter s /\ nftTokenId p = id /\
    commitmentToProofId s !! commitment p = Some id /\
    id ∈ userProofs_at s (submitter p) /\
    id ∈ eventProofs_at s (eventId p);
  inv_dense : forall id, 1 <= id <= _proofCounter s ->
    is_Some (proofCommitments s !! id);
  inv_index : forall c id, commitmentToProofId s !! c = Some id ->
    exists p, proofCommitments s !! id = Some p /\ commitment p = c;
  inv_tokens : forall t, _exists s t = true <-> 1 <= t <= _tokenIdCounter s;
  inv_userProofs : forall u id, id ∈ userProofs_at s u ->
    exists p, proofCommitments s !! id = Some p /\ submitter p = u
}.

Lemma Inv_deployed deployer base : Inv (deployed deployer base).
Proof.
  pose proof uint256_modulus_pos.
  unfold deployed. constructor; simpl; try lia.
  - intros id p Hp. rewrite lookup_empty in Hp. discriminate.
  - intros c id Hc. rewrite lookup_empty in Hc. discriminate.
  - intros t. unfold _exists. simpl. rewrite lookup_empty. simpl.
    split; [discriminate | lia].
  - intros u id Hin. unfold userProofs_at in Hin. simpl in Hin.
    rewrite lookup_empty in Hin. simpl in Hin. inversion Hin.
Qed.

(** In a storage that satisfies the invariant a commitment is indexed
    exactly when [commitmentToProofId] is not 0 there. *)
Lemma Inv_index_zero s c :
  Inv s -> commitmentToProofId_at s c = 0 -> commitmentToProofId s !! c = None.
Proof.
  intros HI Hz. unfold commitmentToProofId_at in Hz.
  destruct (commitmentToProofId s !! c) as [id|] eqn:Hc; [|reflexivity].
  simpl in Hz. subst id.
  destruct (inv_index s HI c 0 Hc) as (p & Hp & _).
  destruct (inv_stored s HI 0 p Hp) as (Hr & _). lia.
Qed.

(** The fields of the storage after a submission that went through. *)
Lemma submitProof_Ok sender time e d s id s' :
  Inv s -> _proofCounter s + 1 < uint256_modulus ->
  submitProof sender time e d s = Ok (id, s') ->
  let c := keccak256 (encodePacked e d sender time) in
  id = _proofCounter s + 1 /\ commitmentToProofId s !! c = None /\
  sender <> 0 /\ e <> EmptyString /\ d <> [] /\
  _proofCounter s' = id /\ _tokenIdCounter s' = id /\
  proofCommitments s' =
    <[id := mkProofCommitment c e sender time true id]> (proofCommitments s) /\
  commitmentToProofId s' = <[c := id]> (commitmentToProofId s) /\
  userProofs s' = <[sender := userProofs_at s sender ++ [id]]> (userProofs s) /\
  eventProofs s' = <[e := eventProofs_at s e ++ [id]]> (eventProofs s) /\
  _owners s' = <[id := sender]> (_owners s) /\
  _owner s' = _owner s /\ eventMetadata s' = eventMetadata s /\
  log s' = log s ++ [ProofSubmitted id c e sender; Transfer 0 sender id;
                     NFTMinted id id sender e].
Proof.
  intros HI Hroom Hrun c. rewrite submitProof_eq in Hrun.
  destruct (0 <? Z.of_nat (String.length e)) eqn:He; simpl in Hrun;
    [|discriminate].
  destruct (0 <? Z.of_nat (length d)) eqn:Hd; simpl in Hrun; [|discriminate].
  fold c in Hrun.
  destruct (commitmentToProofId_at s c =? 0) eqn:Hc; simpl in Hrun;
    [|discriminate].
  apply Z.eqb_eq in Hc. apply Inv_index_zero in Hc; [|assumption].
  rewrite _mintNFT_eq in Hrun.
  destruct (can_mint sender (after_store sender time e d s)) eqn:Hm;
    [|discriminate].
  injection Hrun as <- <-.
  unfold can_mint in Hm. apply andb_true_iff in Hm as [Hm _].
  apply andb_true_iff in Hm as [Hm _].
  apply negb_true_iff, Z.eqb_neq in Hm.
  pose proof (inv_range s HI) as Hr. pose proof (inv_lockstep s HI) as Hl.
  assert (Hw : wrap256 (_proofCounter s + 1) = _proofCounter s + 1)
    by (apply wrap256_small; lia).
  destruct s. unfold after_mint, after_store. crunch. subst.
  rewrite Hw. rewrite lookup_insert_eq. simpl. rewrite insert_insert_eq.
  unfold set_nftTokenId. simpl.
  repeat split; try reflexivity; try assumption.
  - intros ->. simpl in He. discriminate.
  - intros ->. simpl in Hd. discriminate.
  - rewrite <- app_assoc. reflexivity.
Qed.

Lemma userProofs_at_insert s s' u l u' :
  userProofs s' = <[u := l]> (userProofs s) ->
  userProofs_at s' u' = if decide (u = u') then l else userProofs_at s u'.
Proof.
  intros E. unfold userProofs_at. rewrite E, lookup_insert.
  destruct (decide (u = u')); reflexivity.
Qed.

Lemma eventProofs_at_insert s s' e l e' :
  eventProofs s' = <[e := l]> (eventProofs s) ->
  eventProofs_at s' e' = if decide (e = e') then l else eventProofs_at s e'.
Proof.
  intros E. unfold eventProofs_at. rewrite E, lookup_insert.
  destruct (decide (e = e')); reflexivity.
Qed.

Lemma _exists_insert_iff s s' t to t' :
  _owners s' = <[t := to]> (_owners s) -> to <> 0 ->
  _exists s' t' = true <-> t' = t \/ _exists s t' = true.
Proof.
  intros E Hto. unfold _exists. rewrite E, lookup_insert.
  destruct (decide (t = t')) as [->|Hne]; simpl.
  - split; [auto|]. intros _. apply negb_true_iff, Z.eqb_neq, Hto.
  - split; [auto|]. intros [->|H]; [contradiction | exact H].
Qed.

Lemma Inv_submit sender time e d s id s' :
  Inv s -> _proofCounter s + 1 < uint256_modulus ->
  submitProof sender time e d s = Ok (id, s') -> Inv s'.
Proof.
  intros HI Hroom Hrun.
  destruct (submitProof_Ok _ _ _ _ _ _ _ HI Hroom Hrun)
    as (Hid & Hfresh & Hs & _ & _ & Hpc & Htc & Hrec & Hidx & Hup & Hep &
        Hown & _).
  pose proof (inv_range s HI) as Hr.
  constructor.
  - lia.
  - lia.
  - intros id' p Hp. rewrite Hrec, lookup_insert in Hp.
    destruct (decide (id = id')) as [<-|Hne].
    + injection Hp as <-. simpl. rewrite Hidx, lookup_insert_eq.
      rewrite (userProofs_at_insert _ _ _ _ sender Hup).
      rewrite (eventProofs_at_insert _ _ _ _ e Hep).
      rewrite !decide_True by reflexivity.
      repeat split; try lia; apply elem_of_app; right;
        apply list_elem_of_singleton; reflexivity.
    + destruct (inv_stored s HI id' p Hp) as (H1 & H2 & H3 & H4 & H5).
      repeat split; try lia.
      * rewrite Hidx, lookup_insert_ne; [exact H3|].
        intros E. rewrite <- E in H3. congruence.
      * rewrite (userProofs_at_insert _ _ _ _ (submitter p) Hup).
        destruct (decide (sender = submitter p)) as [->|]; [|exact H4].
        apply elem_of_app. left. exact H4.
      * rewrite (eventProofs_at_insert _ _ _ _ (eventId p) Hep).
        destruct (decide (e = eventId p)) as [->|]; [|exact H5].
        apply elem_of_app. left. exact H5.
  - intros id' Hid'. rewrite Hrec, lookup_insert.
    destruct (decide (id = id')); [eauto|].
    apply (inv_dense s HI). lia.
  - intros c id' Hc. rewrite Hidx, lookup_insert in Hc. rewrite Hrec.
    destruct (decide (_ = c)) as [<-|Hne].
    + injection Hc as <-. rewrite lookup_insert_eq. eauto.
    + destruct (inv_index s HI c id' Hc) as (p & Hp & Hpc').
      destruct (inv_stored s HI id' p Hp) as (H1 & _).
      rewrite lookup_insert_ne by lia. eauto.
  - intros t. rewrite (_exists_insert_iff s s' id sender t Hown Hs).
    rewrite (inv_tokens s HI t). pose proof (inv_lockstep s HI). lia.
  - intros u id' Hin. rewrite (userProofs_at_insert _ _ _ _ u Hup) in Hin.
    rewrite Hrec.
    assert (Hold : id' ∈ userProofs_at s u ->
              exists p, <[id := mkProofCommitment
                           (keccak256 (encodePacked e d sender time)) e sender
                           time true id]> (proofCommitments s) !! id' = Some p
                        /\ submitter p = u).
    { intros Hin'. destruct (inv_userProofs s HI u id' Hin') as (p & Hp & Hsub).
      destruct (inv_stored s HI id' p Hp) as (H1 & _).
      rewrite lookup_insert_ne by lia. eauto. }
    destruct (decide (sender = u)) as [<-|Hne]; [|auto].
    apply elem_of_app in Hin as [Hin|Hin]; [auto|].
    apply list_elem_of_singleton in Hin. subst id'.
    rewrite lookup_insert_eq. eauto.
Qed.

(** A call that leaves the counters, the records, the indexes and the set
    of existing tokens alone keeps the invariant. *)
Lemma Inv_frame s s' :
  _proofCounter s' = _proofCounter s ->
  _tokenIdCounter s' = _tokenIdCounter s ->
  proofCommitments s' = proofCommitments s ->
  commitmentToProofId s' = commitmentToProofId s ->
  userProofs s' = userProofs s ->
  eventProofs s' = eventProofs s ->
  (forall t, _exists s' t = _exists s t) ->
  Inv s -> Inv s'.
Proof.
  intros Hpc Htc Hrec Hidx Hup Hep Hex HI.
  destruct HI as [H1 H2 H3 H4 H5 H6 H7].
  constructor; unfold userProofs_at, eventProofs_at in *;
    rewrite ?Hpc, ?Htc, ?Hrec, ?Hidx, ?Hup, ?Hep; try assumption.
  intros t. rewrite Hex. apply H6.
Qed.

(** Under the invariant [validateProof] never reaches [_mintNFT]: the
    record it is called on already carries its token. *)
Lemma validateProof_Ok sender proofId v s u s' :
  Inv s ->
  validateProof sender proofId v s = Ok (u, s') ->
  _owner s = sender /\ 1 <= proofId <= _proofCounter s /\
  exists p, proofCommitments s !! proofId = Some p /\
            s' = after_validate proofId v s.
Proof.
  intros HI Hrun. rewrite validateProof_eq in Hrun.
  destruct (_owner s =? sender) eqn:Ho; simpl in Hrun; [|discriminate].
  destruct ((0 <? proofId) && (proofId <=? _proofCounter s)) eqn:Hr;
    simpl in Hrun; [|discriminate].
  apply Z.eqb_eq in Ho. apply andb_true_iff in Hr as [Hlo Hhi].
  apply Z.ltb_lt in Hlo. apply Z.leb_le in Hhi.
  destruct (inv_dense s HI proofId) as [p Hp]; [lia|].
  destruct (inv_stored s HI proofId p Hp) as (_ & Hnft & _).
  unfold proofCommitments_at in Hrun. rewrite Hp in Hrun. simpl in Hrun.
  replace (nftTokenId p =? 0) with false in Hrun
    by (symmetry; apply Z.eqb_neq; lia).
  rewrite andb_false_r in Hrun. injection Hrun as <-.
  repeat split; try lia; try assumption. exists p. split; auto.
Qed.

Lemma Inv_validate proofId v s p :
  Inv s -> proofCommitments s !! proofId = Some p ->
  Inv (after_validate proofId v s).
Proof.
  intros HI Hp. destruct HI as [H1 H2 H3 H4 H5 H6 H7].
  assert (Hrec : proofCommitments (after_validate proofId v s) =
                 <[proofId := set_isValid v p]> (proofCommitments s)).
  { unfold after_validate, proofCommitments_at. rewrite Hp.
    destruct s. reflexivity. }
  assert (Hsame : forall id q,
            <[proofId := set_isValid v p]> (proofCommitments s) !! id = Some q ->
            exists q0, proofCommitments s !! id = Some q0 /\
                       commitment q = commitment q0 /\
                       eventId q = eventId q0 /\ submitter q = submitter q0 /\
                       nftTokenId q = nftTokenId q0).
  { intros id q Hq. rewrite lookup_insert in Hq.
    destruct (decide (proofId = id)) as [<-|Hne].
    - injection Hq as <-. exists p. simpl. auto.
    - exists q. auto. }
  constructor; rewrite ?Hrec.
  - destruct s; exact H1.
  - destruct s; exact H2.
  - intros id q Hq. destruct (Hsame id q Hq) as (q0 & Hq0 & E1 & E2 & E3 & E4).
    rewrite E1, E2, E3, E4.
    destruct s; exact (H3 id q0 Hq0).
  - intros id Hid. rewrite lookup_insert.
    destruct (decide (proofId = id)); [eauto|].
    destruct s; exact (H4 id Hid).
  - intros c id Hc.
    assert (Hc' : commitmentToProofId s !! c = Some id) by (destruct s; exact Hc).
    destruct (H5 c id Hc') as (q & Hq & Hqc). rewrite lookup_insert.
    destruct (decide (proofId = id)) as [<-|Hne]; [|eauto].
    rewrite Hp in Hq. injection Hq as <-. exists (set_isValid v p). auto.
  - intros t. destruct s; exact (H6 t).
  - intros u id Hin.
    assert (Hin' : id ∈ userProofs_at s u) by (destruct s; exact Hin).
    destruct (H7 u id Hin') as (q & Hq & Hqs). rewrite lookup_insert.
    destruct (decide (proofId = id)) as [<-|Hne]; [|eauto].
    rewrite Hp in Hq. injection Hq as <-. exists (set_isValid v p). auto.
Qed.

Lemma transferFrom_Ok from to tokenId s u s' :
  transferFrom from to tokenId s = Ok (u, s') ->
  _exists s tokenId = true /\ to <> 0 /\
  s' = with_log (log s ++ [Transfer from to tokenId])
         (with_owners (<[tokenId := to]> (_owners s)) s).
Proof.
  unfold transferFrom. run_monad. unfold _exists.
  destruct (default 0 (_owners s !! tokenId) =? 0) eqn:Hh; simpl;
    [discriminate|].
  destruct (default 0 (_owners s !! tokenId) =? from); simpl; [|discriminate].
  destruct (to =? 0) eqn:Hto; simpl; [discriminate|].
  intros [= <-]. apply Z.eqb_neq in Hto. auto.
Qed.

(** Every transaction keeps the invariant, and moves [_proofCounter] up by
    at most one, while there is room below 2^256. *)
Lemma Inv_exec s tx :
  Inv s -> _proofCounter s + 1 < uint256_modulus ->
  Inv (exec s tx) /\
  _proofCounter s <= _proofCounter (exec s tx) <= _proofCounter s + 1.
Proof.
  intros HI Hroom. unfold exec, dispatch.
  destruct tx as [sender time [e d|e n ds i l t|p v|b|o| |f t i]]; simpl.
  - unfold bind, ret.
    destruct (submitProof sender time e d s) as [[id s']|err] eqn:Hrun;
      [|split; [assumption|lia]].
    split; [eapply Inv_submit; eassumption|].
    destruct (submitProof_Ok _ _ _ _ _ _ _ HI Hroom Hrun)
      as (Hid & _ & _ & _ & _ & Hpc & _). lia.
  - unfold setEventMetadata, onlyOwner. run_monad.
    destruct (_owner s =? sender); simpl; [|split; [assumption|lia]].
    split; [|destruct s; simpl; lia].
    eapply Inv_frame; [..|exact HI]; destruct s; reflexivity.
  - destruct (validateProof sender p v s) as [[u s']|err] eqn:Hrun;
      [|split; [assumption|lia]].
    destruct (validateProof_Ok _ _ _ _ _ _ HI Hrun)
      as (_ & _ & q & Hq & ->).
    split; [eapply Inv_validate; eassumption|].
    destruct s; simpl; lia.
  - unfold setBaseURI, onlyOwner. run_monad.
    destruct (_owner s =? sender); simpl; [|split; [assumption|lia]].
    split; [|destruct s; simpl; lia].
    eapply Inv_frame; [..|exact HI]; destruct s; reflexivity.
  - unfold transferOwnership, onlyOwner. run_monad.
    destruct (_owner s =? sender); simpl; [|split; [assumption|lia]].
    destruct (o =? 0); simpl; [split; [assumption|lia]|].
    split; [|destruct s; simpl; lia].
    eapply Inv_frame; [..|exact HI]; destruct s; reflexivity.
  - unfold renounceOwnership, onlyOwner. run_monad.
    destruct (_owner s =? sender); simpl; [|split; [assumption|lia]].
    split; [|destruct s; simpl; lia].
    eapply Inv_frame; [..|exact HI]; destruct s; reflexivity.
  - destruct (transferFrom f t i s) as [[u s']|err] eqn:Hrun;
      [|split; [assumption|lia]].
    destruct (transferFrom_Ok _ _ _ _ _ _ Hrun) as (Hex & Ht & ->).
    split; [|destruct s; simpl; lia].
    eapply Inv_frame; [..|exact HI]; try (destruct s; reflexivity).
    intros t'.
    assert (Hiff : _exists (with_log (log s ++ [Transfer f t i])
                     (with_owners (<[i := t]> (_owners s)) s)) t' = true <->
                   t' = i \/ _exists s t' = true).
    { apply _exists_insert_iff with (to := t); [destruct s; reflexivity | exact Ht]. }
    destruct (_exists s t') eqn:Hold.
    + apply Hiff. auto.
    + apply not_true_is_false. intros Hnew.
      apply Hiff in Hnew as [->|Hnew]; congruence.
Qed.

Lemma run_snoc deployer base txs tx :
  run deployer base (txs ++ [tx]) = exec (run deployer base txs) tx.
Proof. unfold run. rewrite fold_left_app. reflexivity. Qed.

(** The invariant holds after every sequence of fewer than 2^256
    transactions, and the proof counter is at most their number. *)
Lemma run_Inv deployer base txs :
  Z.of_nat (length txs) < uint256_modulus ->
  Inv (run deployer base txs) /\
  _proofCounter (run deployer base txs) <= Z.of_nat (length txs).
Proof.
  induction txs as [|tx txs IH] using rev_ind; intros Hlen.
  - split; [apply Inv_deployed | simpl; lia].
  - rewrite length_app in Hlen. simpl in Hlen.
    destruct IH as [HI Hle]; [lia|].
    rewrite run_snoc, length_app. simpl.
    destruct (Inv_exec (run deployer base txs) tx HI) as [HI' Hstep]; [lia|].
    split; [exact HI' | lia].
Qed.

(** *** Stored records *)

(** The records of the registry are those [getProof] returns. *)
Definition stored (s : State) (proofId : Z) (p : ProofCommitment) : Prop :=
  getProof proofId s = Ok (p, s).

Lemma stored_iff s proofId p :
  stored s proofId p <->
  1 <= proofId <= _proofCounter s /\ p = proofCommitments_at s proofId.
Proof.
  unfold stored, getProof. run_monad.
  destruct ((0 <? proofId) && (proofId <=? _proofCounter s)) eqn:Hr; simpl.
  - apply andb_true_iff in Hr as [Hlo Hhi].
    apply Z.ltb_lt in Hlo. apply Z.leb_le in Hhi.
    split; [intros [= <-]; split; [lia | reflexivity]|].
    intros [_ ->]. reflexivity.
  - split; [discriminate|]. intros [Hin _].
    apply andb_false_iff in Hr as [Hr|Hr];
      [apply Z.ltb_ge in Hr | apply Z.leb_gt in Hr]; lia.
Qed.

Lemma stored_lookup s proofId p :
  Inv s -> stored s proofId p <-> proofCommitments s !! proofId = Some p.
Proof.
  intros HI. rewrite stored_iff. unfold proofCommitments_at. split.
  - intros [Hr ->]. destruct (inv_dense s HI proofId Hr) as [q Hq].
    rewrite Hq. reflexivity.
  - intros Hp. destruct (inv_stored s HI proofId p Hp) as (Hr & _).
    rewrite Hp. auto.
Qed.

Lemma stored_unique_commitment s id1 p1 id2 p2 :
  Inv s -> stored s id1 p1 -> stored s id2 p2 ->
  commitment p1 = commitment p2 -> id1 = id2.
Proof.
  intros HI H1 H2 Hc.
  apply (stored_lookup s _ _ HI) in H1. apply (stored_lookup s _ _ HI) in H2.
  destruct (inv_stored s HI _ _ H1) as (_ & _ & E1 & _).
  destruct (inv_stored s HI _ _ H2) as (_ & _ & E2 & _).
  rewrite Hc in E1. congruence.
Qed.

Lemma submitProof_indexed_commitment sender time e d s :
  e <> EmptyString -> d <> [] ->
  commitmentToProofId_at s (keccak256 (encodePacked e d sender time)) <> 0 ->
  submitProof sender time e d s = Revert ProofAlreadySubmitted.
Proof.
  intros He Hd Hidx. rewrite submitProof_eq.
  destruct e as [|a e]; [contradiction|]. destruct d as [|b d]; [contradiction|].
  replace (0 <? Z.of_nat (String.length (String a e))) with true
    by (symmetry; apply Z.ltb_lt; simpl; lia).
  replace (0 <? Z.of_nat (length (b :: d))) with true
    by (symmetry; apply Z.ltb_lt; simpl; lia).
  simpl negb. cbv iota.
  apply Z.eqb_neq in Hidx. rewrite Hidx. reflexivity.
Qed.

Lemma submitProof_known_commitment sender time e d s proofId p :
  Inv s -> e <> EmptyString -> d <> [] -> stored s proofId p ->
  commitment p = keccak256 (encodePacked e d sender time) ->
  submitProof sender time e d s = Revert ProofAlreadySubmitted.
Proof.
  intros HI He Hd Hp Hc. apply submitProof_indexed_commitment; try assumption.
  apply (stored_lookup s _ _ HI) in Hp.
  destruct (inv_stored s HI _ _ Hp) as (Hr & _ & Hidx & _).
  unfold commitmentToProofId_at. rewrite <- Hc, Hidx. simpl. lia.
Qed.

(** C1 — one record per commitment.  In any storage whatever, a
    submission that passes the two emptiness checks and whose commitment
    is indexed reverts with "Proof already submitted".  In every storage
    reached by fewer than 2^256 - 1 transactions: a submission that passes
    the two emptiness checks and whose commitment is that of a stored
    record reverts with "Proof already submitted" and leaves the storage
    as it was; no two stored records share a commitment; and after a
    submission that went through, the same submission again reverts with
    "Proof already submitted", the record it created being the only one
    with its commitment. *)
Theorem submitProof_one_record_per_commitment deployer base txs :
  Z.of_nat (length txs) < uint256_modulus - 1 ->
  let s := run deployer base txs in
  (forall s0 sender time e d,
      e <> EmptyString -> d <> [] ->
      commitmentToProofId_at s0 (keccak256 (encodePacked e d sender time)) <> 0 ->
      submitProof sender time e d s0 = Revert ProofAlreadySubmitted) /\
  (forall sender time e d proofId p,
      e <> EmptyString -> d <> [] -> stored s proofId p ->
      commitment p = keccak256 (encodePacked e d sender time) ->
      submitProof sender time e d s = Revert ProofAlreadySubmitted /\
      exec s (mkTx sender time (CallSubmitProof e d)) = s) /\
  (forall id1 p1 id2 p2,
      stored s id1 p1 -> stored s id2 p2 ->
      commitment p1 = commitment p2 -> id1 = id2) /\
  (forall sender time e d proofId s1,
      submitProof sender time e d s = Ok (proofId, s1) ->
      let c := keccak256 (encodePacked e d sender time) in
      submitProof sender time e d s1 = Revert ProofAlreadySubmitted /\
      exec s1 (mkTx sender time (CallSubmitProof e d)) = s1 /\
      getTotalProofs s1 = getTotalProofs s + 1 /\
      (forall id p, stored s1 id p -> (commitment p = c <-> id = proofId))).
Proof.
  intros Hlen s.
  destruct (run_Inv deployer base txs) as [HI Hle]; [lia|]. fold s in HI, Hle.
  split; [|split; [|split]].
  - intros s0 sender time e d He Hd Hidx.
    apply submitProof_indexed_commitment; assumption.
  - intros sender time e d proofId p He Hd Hp Hc.
    pose proof (submitProof_known_commitment _ _ _ _ _ _ _ HI He Hd Hp Hc) as Hrev.
    split; [exact Hrev|].
    unfold exec, dispatch. simpl. unfold bind. rewrite Hrev. reflexivity.
  - intros id1 p1 id2 p2. apply stored_unique_commitment, HI.
  - intros sender time e d proofId s1 Hrun c.
    assert (Hroom : _proofCounter s + 1 < uint256_modulus) by lia.
    pose proof (Inv_submit _ _ _ _ _ _ _ HI Hroom Hrun) as HI1.
    destruct (submitProof_Ok _ _ _ _ _ _ _ HI Hroom Hrun)
      as (Hid & _ & _ & He & Hd & Hpc & _ & Hrec & _).
    assert (Hnew : stored s1 proofId
                     (mkProofCommitment c e sender time true proofId)).
    { apply (stored_lookup s1 _ _ HI1). rewrite Hrec. apply lookup_insert_eq. }
    assert (Hrev : submitProof sender time e d s1 = Revert ProofAlreadySubmitted).
    { eapply submitProof_known_commitment; eauto. }
    split; [exact Hrev|]. split; [|split].
    + unfold exec, dispatch. simpl. unfold bind. rewrite Hrev. reflexivity.
    + unfold getTotalProofs. lia.
    + intros id p Hp. split.
      * intros Hc. eapply stored_unique_commitment; eauto.
      * intros ->. apply (stored_lookup s1 _ _ HI1) in Hp.
        rewrite Hrec, lookup_insert_eq in Hp. injection Hp as <-. reflexivity.
Qed.

(** *** validateProof *)

(** C3 — when [validateProof] mints.  For every storage and every call
    of [validateProof] that goes through: if [isValid] is true and the
    record has no token ([nftTokenId] is 0), a token with the next number
    is minted to the record's submitter and written into the record;
    otherwise (the flag is set to false, or the record already has a
    token) no token is minted, the counter, the owners and the record's
    [nftTokenId] stay as they were.  The other records are not touched
    either way. *)
Theorem validateProof_mints_iff_unminted sender proofId v s s' :
  validateProof sender proofId v s = Ok (tt, s') ->
  let rec := proofCommitments_at s proofId in
  let tokenId := wrap256 (_tokenIdCounter s + 1) in
  (if v && (nftTokenId rec =? 0)
   then _tokenIdCounter s' = tokenId /\
        _exists s tokenId = false /\ _exists s' tokenId = true /\
        _owners s' = <[tokenId := submitter rec]> (_owners s) /\
        nftTokenId (proofCommitments_at s' proofId) = tokenId /\
        log s' = log s ++ [ProofValidated proofId v;
                           Transfer 0 (submitter rec) tokenId;
                           NFTMinted tokenId proofId (submitter rec) (eventId rec)]
   else _tokenIdCounter s' = _tokenIdCounter s /\
        _owners s' = _owners s /\ _tokenURIs s' = _tokenURIs s /\
        nftTokenId (proofCommitments_at s' proofId) = nftTokenId rec /\
        log s' = log s ++ [ProofValidated proofId v]) /\
  isValid (proofCommitments_at s' proofId) = v /\
  (forall other, other <> proofId ->
     proofCommitments_at s' other = proofCommitments_at s other).
Proof.
  intros Hrun rec tokenId. rewrite validateProof_eq in Hrun.
  destruct (_owner s =? sender); simpl in Hrun; [|discriminate].
  destruct ((0 <? proofId) && (proofId <=? _proofCounter s)); simpl in Hrun;
    [|discriminate].
  fold rec in Hrun.
  destruct (v && (nftTokenId rec =? 0)) eqn:Hcond.
  - rewrite _mintNFT_eq in Hrun.
    destruct (can_mint (submitter rec) (after_validate proofId v s)) eqn:Hm;
      [|discriminate].
    injection Hrun as <-.
    unfold can_mint in Hm. apply andb_true_iff in Hm as [Hm _].
    apply andb_true_iff in Hm as [Hto Hfree].
    apply negb_true_iff in Hto, Hfree. apply Z.eqb_neq in Hto.
    assert (Hex0 : _exists s tokenId = false)
      by (destruct s; exact Hfree).
    unfold after_mint, after_validate. subst rec tokenId.
    destruct s. crunch. rewrite !lookup_insert_eq. simpl.
    repeat split; try reflexivity; try assumption.
    + apply negb_true_iff, Z.eqb_neq, Hto.
    + rewrite <- app_assoc. reflexivity.
    + intros other Hne. rewrite !lookup_insert_ne by congruence. reflexivity.
  - injection Hrun as <-. unfold after_validate. subst rec.
    destruct s. crunch. rewrite !lookup_insert_eq. simpl.
    repeat split; try reflexivity.
    intros other Hne. rewrite !lookup_insert_ne by congruence. reflexivity.
Qed.

(** *** hasValidProofForEvent *)

(** No record of [user] has an event identifier other than [e] with the
    same hash as [e]. *)
Definition collision_free (s : State) (user : Z) (e : string) : bool :=
  forallb (fun id =>
             let proof := proofCommitments_at s id in
             implb (keccak256 (bytes_of_string (eventId proof))
                      =? keccak256 (bytes_of_string e))
                   (String.eqb (eventId proof) e))
          (userProofs_at s user).

Lemma hasValidProofForEvent_from_true s e ids :
  hasValidProofForEvent_from s e ids = true <->
  exists id, id ∈ ids /\
    keccak256 (bytes_of_string (eventId (proofCommitments_at s id)))
      = keccak256 (bytes_of_string e) /\
    isValid (proofCommitments_at s id) = true.
Proof.
  induction ids as [|id ids IH]; simpl.
  - split; [discriminate|]. intros (id & Hin & _). inversion Hin.
  - destruct ((_ =? _) && isValid (proofCommitments_at s id)) eqn:Hhit.
    + split; [|reflexivity]. intros _. exists id.
      apply andb_true_iff in Hhit as [Hh Hv]. apply Z.eqb_eq in Hh.
      split; [apply elem_of_cons; auto | auto].
    + rewrite IH. split.
      * intros (id' & Hin & Hh & Hv). exists id'.
        split; [apply elem_of_cons; auto | auto].
      * intros (id' & Hin & Hh & Hv). apply elem_of_cons in Hin as [->|Hin].
        -- apply Z.eqb_eq in Hh. rewrite Hh, Hv in Hhit. discriminate.
        -- exists id'. auto.
Qed.

(** C7 — [hasValidProofForEvent].  In every storage reached by fewer
    than 2^256 transactions, and for an event identifier whose hash
    collides with that of no other event identifier among the user's
    records, [hasValidProofForEvent user eventId] is true exactly when
    some stored record has that submitter, that event identifier and
    [isValid] true; the record's token plays no part. *)
Theorem hasValidProofForEvent_iff deployer base txs user e :
  Z.of_nat (length txs) < uint256_modulus ->
  let s := run deployer base txs in
  collision_free s user e = true ->
  hasValidProofForEvent s user e = true <->
  exists proofId p, stored s proofId p /\ submitter p = user /\
                    eventId p = e /\ isValid p = true.
Proof.
  intros Hlen s Hfree.
  destruct (run_Inv deployer base txs Hlen) as [HI _]. fold s in HI.
  unfold hasValidProofForEvent. rewrite hasValidProofForEvent_from_true.
  split.
  - intros (id & Hin & Hh & Hv).
    destruct (inv_userProofs s HI user id Hin) as (p & Hp & Hsub).
    exists id, p.
    assert (Hat : proofCommitments_at s id = p)
      by (unfold proofCommitments_at; rewrite Hp; reflexivity).
    rewrite Hat in Hh, Hv.
    split; [apply (stored_lookup s _ _ HI); exact Hp|].
    split; [exact Hsub|]. split; [|exact Hv].
    unfold collision_free in Hfree. rewrite forallb_forall in Hfree.
    specialize (Hfree id). rewrite Hat in Hfree.
    rewrite <- list_elem_of_In in Hfree. specialize (Hfree Hin).
    apply Z.eqb_eq in Hh. rewrite Hh in Hfree. simpl in Hfree.
    apply String.eqb_eq, Hfree.
  - intros (id & p & Hp & Hsub & He & Hv).
    apply (stored_lookup s _ _ HI) in Hp.
    destruct (inv_stored s HI id p Hp) as (_ & _ & _ & Hin & _).
    exists id.
    assert (Hat : proofCommitments_at s id = p)
      by (unfold proofCommitments_at; rewrite Hp; reflexivity).
    rewrite Hat, He, <- Hsub. auto.
Qed.

(** *** Credentials *)

Lemma stored_exec s tx proofId p :
  Inv s -> _proofCounter s + 1 < uint256_modulus -> stored s proofId p ->
  exists p', stored (exec s tx) proofId p' /\ nftTokenId p' = nftTokenId p.
Proof.
  intros HI Hroom Hp.
  destruct (Inv_exec s tx HI Hroom) as [HI' Hstep].
  apply (stored_lookup s _ _ HI) in Hp.
  destruct (inv_stored s HI _ _ Hp) as (Hr & Hnft & _).
  destruct (inv_dense _ HI' proofId) as [p' Hp']; [lia|].
  destruct (inv_stored _ HI' _ _ Hp') as (_ & Hnft' & _).
  exists p'. split; [apply (stored_lookup _ _ _ HI'); exact Hp' | congruence].
Qed.

(** C2, as the code has it — credentials and records.  In every storage
    reached by fewer than 2^256 - 1 transactions: a token exists exactly
    when some stored record carries it as its [nftTokenId], whatever the
    record's [isValid]; every stored record whose [isValid] is true has a
    token, which exists; no two records carry the same token; and no
    transaction changes the token a record carries. *)
Theorem credential_bound_to_one_record deployer base txs :
  Z.of_nat (length txs) < uint256_modulus - 1 ->
  let s := run deployer base txs in
  (forall t, _exists s t = true <->
             exists proofId p, stored s proofId p /\ nftTokenId p = t) /\
  (forall proofId p, stored s proofId p -> isValid p = true ->
     nftTokenId p <> 0 /\ _exists s (nftTokenId p) = true) /\
  (forall id1 p1 id2 p2, stored s id1 p1 -> stored s id2 p2 ->
     nftTokenId p1 = nftTokenId p2 -> id1 = id2) /\
  (forall tx proofId p, stored s proofId p ->
     exists p', stored (exec s tx) proofId p' /\ nftTokenId p' = nftTokenId p).
Proof.
  intros Hlen s.
  destruct (run_Inv deployer base txs) as [HI Hle]; [lia|]. fold s in HI, Hle.
  pose proof (inv_lockstep s HI) as Hlock.
  split; [|split; [|split]].
  - intros t. rewrite (inv_tokens s HI t). split.
    + intros Ht. destruct (inv_dense s HI t) as [p Hp]; [lia|].
      destruct (inv_stored s HI _ _ Hp) as (_ & Hnft & _).
      exists t, p. split; [apply (stored_lookup s _ _ HI); exact Hp | exact Hnft].
    + intros (id & p & Hp & Hnft). apply (stored_lookup s _ _ HI) in Hp.
      destruct (inv_stored s HI _ _ Hp) as (Hr & Hnft' & _). lia.
  - intros id p Hp _. apply (stored_lookup s _ _ HI) in Hp.
    destruct (inv_stored s HI _ _ Hp) as (Hr & Hnft & _).
    split; [lia|]. apply (inv_tokens s HI). lia.
  - intros id1 p1 id2 p2 H1 H2 E.
    apply (stored_lookup s _ _ HI) in H1. apply (stored_lookup s _ _ HI) in H2.
    destruct (inv_stored s HI _ _ H1) as (_ & E1 & _).
    destruct (inv_stored s HI _ _ H2) as (_ & E2 & _). congruence.
  - intros tx id p Hp. apply stored_exec; [exact HI | lia | exact Hp].
Qed.

(** *** Identifiers start at 1 *)

(** C9 — 0 stands for absence.  In every storage reached by fewer than
    2^256 - 1 transactions: every stored record has a number of at least
    1 and a token of at least 1, and every existing token has a number
    of at least 1; this is still so after one more transaction of any
    kind; the next submission that goes through is given a
    record number and a token number of at least 1;
    [commitmentToProofId] is 0 at a commitment exactly when no stored
    record has that commitment; and token 0 does not exist, so that an
    [nftTokenId] of 0 names no token. *)
Theorem identifiers_start_at_one deployer base txs :
  Z.of_nat (length txs) < uint256_modulus - 1 ->
  let s := run deployer base txs in
  (forall proofId p, stored s proofId p -> 1 <= proofId /\ 1 <= nftTokenId p) /\
  (forall t, _exists s t = true -> 1 <= t) /\
  (forall tx proofId p, stored (exec s tx) proofId p ->
     1 <= proofId /\ 1 <= nftTokenId p) /\
  (forall sender time e d proofId s',
     submitProof sender time e d s = Ok (proofId, s') ->
     1 <= proofId /\ 1 <= nftTokenId (proofCommitments_at s' proofId) /\
     1 <= commitmentToProofId_at s'
            (keccak256 (encodePacked e d sender time))) /\
  (forall c, commitmentToProofId_at s c = 0 <->
             ~ exists proofId p, stored s proofId p /\ commitment p = c) /\
  _exists s 0 = false.
Proof.
  intros Hlen s.
  destruct (run_Inv deployer base txs) as [HI Hle]; [lia|]. fold s in HI, Hle.
  pose proof (inv_range s HI) as Hrange.
  split; [|split; [|split; [|split; [|split]]]].
  - intros id p Hp. apply (stored_lookup s _ _ HI) in Hp.
    destruct (inv_stored s HI _ _ Hp) as (Hr & Hnft & _). lia.
  - intros t Ht. apply (inv_tokens s HI) in Ht. lia.
  - intros tx id p Hp.
    destruct (Inv_exec s tx HI) as [HI' _]; [lia|].
    apply (stored_lookup _ _ _ HI') in Hp.
    destruct (inv_stored _ HI' _ _ Hp) as (Hr & Hnft & _). lia.
  - intros sender time e d id s' Hrun.
    assert (Hroom : _proofCounter s + 1 < uint256_modulus) by lia.
    destruct (submitProof_Ok _ _ _ _ _ _ _ HI Hroom Hrun)
      as (Hid & _ & _ & _ & _ & _ & _ & Hrec & Hidx & _).
    unfold proofCommitments_at, commitmentToProofId_at.
    rewrite Hrec, Hidx, !lookup_insert_eq. simpl. lia.
  - intros c. split.
    + intros Hz (id & p & Hp & Hc). apply (stored_lookup s _ _ HI) in Hp.
      destruct (inv_stored s HI _ _ Hp) as (Hr & _ & Hidx & _).
      unfold commitmentToProofId_at in Hz. rewrite Hc in Hidx.
      rewrite Hidx in Hz. simpl in Hz. lia.
    + intros Hno. unfold commitmentToProofId_at.
      destruct (commitmentToProofId s !! c) as [id|] eqn:Hc; [|reflexivity].
      exfalso. apply Hno. destruct (inv_index s HI c id Hc) as (p & Hp & Hpc).
      exists id, p. split; [apply (stored_lookup s _ _ HI); exact Hp | exact Hpc].
  - apply not_true_is_false. intros H0. apply (inv_tokens s HI) in H0. lia.
Qed.

(** *** The three kinds of transaction *)

(** A transaction that neither stores a record nor sets a flag: the
    counters, the records, the indexes and the token URIs stay; an owner
    of a token changes only by a transfer to a non-zero address; the
    event metadata, the base URI and the contract owner change only when
    the contract owner sends the transaction. *)
Record quiet (s s' : State) (tx : Tx) : Prop := mkQuiet {
  quiet_proofCounter : _proofCounter s' = _proofCounter s;
  quiet_tokenIdCounter : _tokenIdCounter s' = _tokenIdCounter s;
  quiet_records : proofCommitments s' = proofCommitments s;
  quiet_index : commitmentToProofId s' = commitmentToProofId s;
  quiet_userProofs : userProofs s' = userProofs s;
  quiet_eventProofs : eventProofs s' = eventProofs s;
  quiet_tokenURIs : _tokenURIs s' = _tokenURIs s;
  quiet_owners : _owners s' = _owners s \/
    exists i t, t <> 0 /\ _exists s i = true /\ _owners s' = <[i := t]> (_owners s);
  quiet_admin : msg_sender tx = _owner s \/
    (eventMetadata s' = eventMetadata s /\ _baseTokenURI s' = _baseTokenURI s /\
     _owner s' = _owner s)
}.

Lemma quiet_refl s tx : quiet s s tx.
Proof.
  constructor; auto.
Qed.

Lemma exec_cases s tx :
  Inv s ->
  (exists e d id,
      call tx = CallSubmitProof e d /\
      submitProof (msg_sender tx) (block_timestamp tx) e d s = Ok (id, exec s tx)) \/
  (exists id v p,
      call tx = CallValidateProof id v /\ _owner s = msg_sender tx /\
      proofCommitments s !! id = Some p /\ exec s tx = after_validate id v s) \/
  quiet s (exec s tx) tx.
Proof.
  intros HI. unfold exec, dispatch.
  destruct tx as [sender time [e d|e n ds i l t|p v|b|o| |f t i]]; simpl.
  - unfold bind, ret.
    destruct (submitProof sender time e d s) as [[id s']|err] eqn:Hrun.
    + left. exists e, d, id. auto.
    + right. right. apply quiet_refl.
  - right. right. unfold setEventMetadata, onlyOwner. run_monad.
    destruct (_owner s =? sender) eqn:Ho; simpl; [|apply quiet_refl].
    apply Z.eqb_eq in Ho. destruct s. constructor; simpl in *; auto.
  - destruct (validateProof sender p v s) as [[u s']|err] eqn:Hrun.
    + right. left.
      destruct (validateProof_Ok _ _ _ _ _ _ HI Hrun) as (Ho & _ & q & Hq & ->).
      exists p, v, q. auto.
    + right. right. apply quiet_refl.
  - right. right. unfold setBaseURI, onlyOwner. run_monad.
    destruct (_owner s =? sender) eqn:Ho; simpl; [|apply quiet_refl].
    apply Z.eqb_eq in Ho. destruct s. constructor; simpl in *; auto.
  - right. right. unfold transferOwnership, onlyOwner. run_monad.
    destruct (_owner s =? sender) eqn:Ho; simpl; [|apply quiet_refl].
    destruct (o =? 0); simpl; [apply quiet_refl|].
    apply Z.eqb_eq in Ho. destruct s. constructor; simpl in *; auto.
  - right. right. unfold renounceOwnership, onlyOwner. run_monad.
    destruct (_owner s =? sender) eqn:Ho; simpl; [|apply quiet_refl].
    apply Z.eqb_eq in Ho. destruct s. constructor; simpl in *; auto.
  - right. right.
    destruct (transferFrom f t i s) as [[u s']|err] eqn:Hrun;
      [|apply quiet_refl].
    destruct (transferFrom_Ok _ _ _ _ _ _ Hrun) as (Hex & Ht & ->).
    destruct s. constructor; simpl in *; auto.
    right. exists i, t. auto.
Qed.

(** *** The lists of proofs, the fields of the records, the token URIs *)

(** The numbers from 1 to [_proofCounter] whose record satisfies [f], in
    ascending order. *)
Definition proofs_where (f : ProofCommitment -> bool) (s : State) : list Z :=
  List.filter (fun id => f (proofCommitments_at s id)) (seqZ 1 (_proofCounter s)).

Record Inv2 (s : State) : Prop := mkInv2 {
  inv2_user : forall u,
    userProofs_at s u = proofs_where (fun p => submitter p =? u) s;
  inv2_event : forall e,
    eventProofs_at s e = proofs_where (fun p => String.eqb (eventId p) e) s;
  inv2_fields : forall id p, proofCommitments s !! id = Some p ->
    eventId p <> EmptyString /\ submitter p <> 0;
  inv2_uris : forall t u, _tokenURIs s !! t = Some u ->
    1 <= t <= _tokenIdCounter s /\ u <> EmptyString;
  inv2_owners : forall t o, _owners s !! t = Some o -> o <> 0
}.

Lemma proofs_where_ext f s s' :
  _proofCounter s' = _proofCounter s ->
  (forall id, f (proofCommitments_at s' id) = f (proofCommitments_at s id)) ->
  proofs_where f s' = proofs_where f s.
Proof.
  intros Hpc Hf. unfold proofs_where. rewrite Hpc.
  apply List.filter_ext. exact Hf.
Qed.

Lemma proofs_where_snoc f s s' p :
  0 <= _proofCounter s ->
  _proofCounter s' = _proofCounter s + 1 ->
  proofCommitments s' = <[_proofCounter s + 1 := p]> (proofCommitments s) ->
  proofs_where f s' =
  proofs_where f s ++ (if f p then [_proofCounter s + 1] else []).
Proof.
  intros Hpos Hpc Hrec. unfold proofs_where. rewrite Hpc.
  rewrite seqZ_app by lia. rewrite List.filter_app. f_equal.
  - apply List.filter_ext_in. intros id Hin.
    apply list_elem_of_In, elem_of_seqZ in Hin.
    unfold proofCommitments_at. rewrite Hrec, lookup_insert_ne by lia.
    reflexivity.
  - replace (seqZ (1 + _proofCounter s) 1) with [_proofCounter s + 1]
      by (rewrite seqZ_cons, seqZ_nil by lia; f_equal; lia).
    simpl. unfold proofCommitments_at. rewrite Hrec, lookup_insert_eq.
    reflexivity.
Qed.

Lemma submitProof_Ok_state sender time e d s id s' :
  submitProof sender time e d s = Ok (id, s') ->
  s' = after_mint (wrap256 (_proofCounter s + 1)) sender e
         (after_store sender time e d s).
Proof.
  intros Hrun. rewrite submitProof_eq in Hrun.
  destruct (negb _); [discriminate|]. destruct (negb _); [discriminate|].
  destruct (negb _); [discriminate|].
  rewrite _mintNFT_eq in Hrun. destruct (can_mint _ _); [|discriminate].
  injection Hrun as _ <-. reflexivity.
Qed.

Lemma submitProof_Ok_tokenURIs sender time e d s id s' :
  Inv s -> _proofCounter s + 1 < uint256_modulus ->
  submitProof sender time e d s = Ok (id, s') ->
  _tokenURIs s' =
  if 0 <? Z.of_nat (String.length (imageUri (eventMetadata_at s e)))
  then <[id := imageUri (eventMetadata_at s e)]> (_tokenURIs s)
  else _tokenURIs s.
Proof.
  intros HI Hroom Hrun.
  destruct (submitProof_Ok _ _ _ _ _ _ _ HI Hroom Hrun) as (Hid & _).
  rewrite (submitProof_Ok_state _ _ _ _ _ _ _ Hrun).
  pose proof (inv_range s HI) as Hr. pose proof (inv_lockstep s HI) as Hl.
  unfold after_mint, after_store. destruct s. crunch.
  rewrite (wrap256_small (_tokenIdCounter0 + 1)) by lia. subst. reflexivity.
Qed.

Lemma Inv2_deployed deployer base : Inv2 (deployed deployer base).
Proof.
  unfold deployed.
  constructor; unfold userProofs_at, eventProofs_at, proofs_where; simpl;
    intros; rewrite ?lookup_empty in *; try discriminate; reflexivity.
Qed.

Lemma Inv2_exec s tx :
  Inv s -> Inv2 s -> _proofCounter s + 1 < uint256_modulus ->
  Inv2 (exec s tx).
Proof.
  intros HI HI2 Hroom. pose proof (inv_range s HI) as Hr.
  destruct HI2 as [Hu He Hf Huri Hown].
  destruct (exec_cases s tx HI)
    as [(e & d & id & _ & Hrun) | [(id & v & p & _ & _ & Hp & ->) | Hq]].
  - destruct (submitProof_Ok _ _ _ _ _ _ _ HI Hroom Hrun)
      as (Hid & _ & Hs & Hne & _ & Hpc & Htc & Hrec & _ & Hup & Hep & Hown' & _).
    rewrite Hid in Hrec, Hpc.
    pose proof (submitProof_Ok_tokenURIs _ _ _ _ _ _ _ HI Hroom Hrun) as Huris.
    constructor.
    + intros u. rewrite (userProofs_at_insert _ _ _ _ u Hup).
      rewrite (proofs_where_snoc _ s _ _ (proj1 Hr) Hpc Hrec). simpl.
      rewrite <- Hu, Hid.
      destruct (decide (msg_sender tx = u)) as [->|Hne'].
      * rewrite Z.eqb_refl. reflexivity.
      * apply Z.eqb_neq in Hne'. rewrite Hne', app_nil_r. reflexivity.
    + intros e'. rewrite (eventProofs_at_insert _ _ _ _ e' Hep).
      rewrite (proofs_where_snoc _ s _ _ (proj1 Hr) Hpc Hrec). simpl.
      rewrite <- He, Hid.
      destruct (decide (e = e')) as [->|Hne'].
      * rewrite String.eqb_refl. reflexivity.
      * apply String.eqb_neq in Hne'. rewrite Hne', app_nil_r. reflexivity.
    + intros id' q Hq. rewrite Hrec, lookup_insert in Hq.
      destruct (decide (_ = id')); [|eauto]. injection Hq as <-. simpl. auto.
    + intros t u Ht. rewrite Huris in Ht. rewrite Htc.
      pose proof (inv_lockstep s HI) as Hl.
      destruct (0 <? _) eqn:Hlen.
      * rewrite lookup_insert in Ht. destruct (decide (id = t)) as [<-|].
        -- injection Ht as <-. split; [lia|].
           intros E. rewrite E in Hlen. discriminate.
        -- destruct (Huri t u Ht). split; [lia | assumption].
      * destruct (Huri t u Ht). split; [lia | assumption].
    + intros t o Ht. rewrite Hown', lookup_insert in Ht.
      destruct (decide (id = t)); [congruence | eauto].
  - assert (Hrec : proofCommitments (after_validate id v s) =
                   <[id := set_isValid v p]> (proofCommitments s)).
    { unfold after_validate, proofCommitments_at. rewrite Hp.
      destruct s. reflexivity. }
    assert (Hat : forall (f : ProofCommitment -> bool),
              (forall q, f (set_isValid v q) = f q) ->
              forall id', f (proofCommitments_at (after_validate id v s) id')
                          = f (proofCommitments_at s id')).
    { intros f Hfq id'. unfold proofCommitments_at at 1. rewrite Hrec.
      rewrite lookup_insert. destruct (decide (id = id')) as [<-|]; [|reflexivity].
      simpl. rewrite Hfq. unfold proofCommitments_at. rewrite Hp. reflexivity. }
    constructor.
    + intros u. rewrite (proofs_where_ext _ s); [|destruct s; reflexivity|].
      * rewrite <- Hu. destruct s; reflexivity.
      * apply (Hat (fun p => submitter p =? u)). reflexivity.
    + intros e'. rewrite (proofs_where_ext _ s); [|destruct s; reflexivity|].
      * rewrite <- He. destruct s; reflexivity.
      * apply (Hat (fun p => String.eqb (eventId p) e')). reflexivity.
    + intros id' q Hq. rewrite Hrec, lookup_insert in Hq.
      destruct (decide (id = id')) as [<-|]; [|eauto].
      injection Hq as <-. simpl. eauto.
    + intros t u Ht. destruct s; exact (Huri t u Ht).
    + intros t o Ht. destruct s; exact (Hown t o Ht).
  - destruct Hq as [Q1 Q2 Q3 Q4 Q5 Q6 Q7 Q8 Q9].
    constructor.
    + intros u. rewrite (proofs_where_ext _ s); [|exact Q1|].
      * rewrite <- Hu. unfold userProofs_at. rewrite Q5. reflexivity.
      * intros id'. unfold proofCommitments_at. rewrite Q3. reflexivity.
    + intros e'. rewrite (proofs_where_ext _ s); [|exact Q1|].
      * rewrite <- He. unfold eventProofs_at. rewrite Q6. reflexivity.
      * intros id'. unfold proofCommitments_at. rewrite Q3. reflexivity.
    + intros id' q Hq. rewrite Q3 in Hq. eauto.
    + intros t u Ht. rewrite Q7 in Ht. rewrite Q2. eauto.
    + intros t o Ht. destruct Q8 as [Q8|(i & t' & Ht' & _ & Q8)];
        rewrite Q8 in Ht; [eauto|].
      rewrite lookup_insert in Ht.
      destruct (decide (i = t)); [congruence | eauto].
Qed.

Lemma run_Inv2 deployer base txs :
  Z.of_nat (length txs) < uint256_modulus ->
  Inv2 (run deployer base txs).
Proof.
  induction txs as [|tx txs IH] using rev_ind; intros Hlen.
  - apply Inv2_deployed.
  - rewrite length_app in Hlen. simpl in Hlen. rewrite run_snoc.
    destruct (run_Inv deployer base txs) as [HI Hle]; [lia|].
    apply Inv2_exec; [exact HI | apply IH; lia | lia].
Qed.

(** *** The outcome of a submission *)

Lemma after_store_frame sender time e d s :
  _tokenIdCounter (after_store sender time e d s) = _tokenIdCounter s /\
  _owners (after_store sender time e d s) = _owners s /\
  _tokenURIs (after_store sender time e d s) = _tokenURIs s /\
  eventMetadata (after_store sender time e d s) = eventMetadata s /\
  _baseTokenURI (after_store sender time e d s) = _baseTokenURI s.
Proof. destruct s. unfold after_store. crunch. auto. Qed.

Lemma can_mint_after_store sender time e d s :
  Inv s -> _proofCounter s + 1 < uint256_modulus ->
  can_mint sender (after_store sender time e d s)
  = negb (sender =? 0) && acceptsERC721 sender.
Proof.
  intros HI Hroom. unfold can_mint.
  destruct (after_store_frame sender time e d s) as (Htc & Hown & _).
  unfold _exists. rewrite Htc, Hown.
  pose proof (inv_range s HI) as Hr. pose proof (inv_lockstep s HI) as Hl.
  rewrite wrap256_small by lia.
  assert (Hfree : _exists s (_tokenIdCounter s + 1) = false).
  { apply not_true_is_false. intros Hex. apply (inv_tokens s HI) in Hex. lia. }
  unfold _exists in Hfree. rewrite Hfree. simpl.
  rewrite andb_true_r. reflexivity.
Qed.

(** X1 — the outcome of [submitProof].  In every storage reached by fewer
    than 2^256 - 1 transactions a submission reverts for an empty event
    identifier, else for empty proof data, else for a commitment that is
    indexed, else for the zero sender, else for a sender that refuses
    ERC721 tokens; in every other case it goes through and returns
    [getTotalProofs + 1].  It never reverts because the token exists. *)
Theorem submitProof_outcome deployer base txs sender time e d :
  Z.of_nat (length txs) < uint256_modulus - 1 ->
  let s := run deployer base txs in
  if negb (0 <? Z.of_nat (String.length e))
  then submitProof sender time e d s = Revert EventIdEmpty
  else if negb (0 <? Z.of_nat (length d))
  then submitProof sender time e d s = Revert ProofDataEmpty
  else if negb (commitmentToProofId_at s
                  (keccak256 (encodePacked e d sender time)) =? 0)
  then submitProof sender time e d s = Revert ProofAlreadySubmitted
  else if sender =? 0
  then submitProof sender time e d s = Revert MintToZeroAddress
  else if negb (acceptsERC721 sender)
  then submitProof sender time e d s = Revert NonERC721Receiver
  else exists s', submitProof sender time e d s = Ok (getTotalProofs s + 1, s').
Proof.
  intros Hlen s.
  destruct (run_Inv deployer base txs) as [HI Hle]; [lia|]. fold s in HI, Hle.
  assert (Hroom : _proofCounter s + 1 < uint256_modulus) by lia.
  pose proof (inv_range s HI) as Hr.
  assert (Hfree : _exists (after_store sender time e d s)
                    (wrap256 (_tokenIdCounter (after_store sender time e d s) + 1))
                  = false).
  { destruct (after_store_frame sender time e d s) as (Htc & Hown & _).
    unfold _exists. rewrite Htc, Hown.
    pose proof (inv_lockstep s HI) as Hl. rewrite wrap256_small by lia.
    apply not_true_is_false. intros Hex.
    assert (Hin : _exists s (_tokenIdCounter s + 1) = true) by exact Hex.
    apply (inv_tokens s HI) in Hin. lia. }
  rewrite submitProof_eq, _mintNFT_eq, can_mint_after_store, Hfree by assumption.
  destruct (0 <? Z.of_nat (String.length e)); simpl; [|reflexivity].
  destruct (0 <? Z.of_nat (length d)); simpl; [|reflexivity].
  destruct (commitmentToProofId_at s _ =? 0); simpl; [|reflexivity].
  destruct (sender =? 0); simpl; [reflexivity|].
  destruct (acceptsERC721 sender); simpl; [|reflexivity].
  rewrite wrap256_small by lia. unfold getTotalProofs. eauto.
Qed.

(** *** The lists of proofs *)

(** X2 — [getUserProofs].  In every storage reached by fewer than 2^256
    transactions, [getUserProofs user] is the list of the numbers from 1
    to [getTotalProofs] whose record has [user] as submitter, in ascending
    order: a number is in it exactly when it is stored with that
    submitter, and none is in it twice. *)
Theorem getUserProofs_lists_own_records deployer base txs user :
  Z.of_nat (length txs) < uint256_modulus ->
  let s := run deployer base txs in
  getUserProofs s user
    = List.filter (fun id => submitter (proofCommitments_at s id) =? user)
        (seqZ 1 (getTotalProofs s)) /\
  (forall id, id ∈ getUserProofs s user <->
              exists p, stored s id p /\ submitter p = user) /\
  NoDup (getUserProofs s user).
Proof.
  intros Hlen s.
  destruct (run_Inv deployer base txs Hlen) as [HI _]. fold s in HI.
  pose proof (run_Inv2 deployer base txs Hlen) as HI2. fold s in HI2.
  unfold getUserProofs. rewrite (inv2_user s HI2 user).
  split; [reflexivity|]. split.
  - intros id. unfold proofs_where.
    rewrite list_elem_of_In, List.filter_In, <- list_elem_of_In, elem_of_seqZ.
    rewrite Z.eqb_eq. split.
    + intros [Hr Hsub]. exists (proofCommitments_at s id).
      split; [apply stored_iff; split; [lia | reflexivity] | exact Hsub].
    + intros (p & Hp & Hsub). apply stored_iff in Hp as [Hr ->].
      split; [lia | exact Hsub].
  - apply NoDup_ListNoDup, List.NoDup_filter, NoDup_ListNoDup, NoDup_seqZ.
Qed.

(** X3 — [getEventProofs].  In every storage reached by fewer than 2^256
    transactions, [getEventProofs eventId] is the list of the numbers from
    1 to [getTotalProofs] whose record has that event identifier, in
    ascending order, each once. *)
Theorem getEventProofs_lists_event_records deployer base txs e :
  Z.of_nat (length txs) < uint256_modulus ->
  let s := run deployer base txs in
  getEventProofs s e
    = List.filter (fun id => String.eqb (eventId (proofCommitments_at s id)) e)
        (seqZ 1 (getTotalProofs s)) /\
  (forall id, id ∈ getEventProofs s e <->
              exists p, stored s id p /\ eventId p = e) /\
  NoDup (getEventProofs s e).
Proof.
  intros Hlen s.
  destruct (run_Inv deployer base txs Hlen) as [HI _]. fold s in HI.
  pose proof (run_Inv2 deployer base txs Hlen) as HI2. fold s in HI2.
  unfold getEventProofs. rewrite (inv2_event s HI2 e).
  split; [reflexivity|]. split.
  - intros id. unfold proofs_where.
    rewrite list_elem_of_In, List.filter_In, <- list_elem_of_In, elem_of_seqZ.
    rewrite String.eqb_eq. split.
    + intros [Hr He]. exists (proofCommitments_at s id).
      split; [apply stored_iff; split; [lia | reflexivity] | exact He].
    + intros (p & Hp & He). apply stored_iff in Hp as [Hr ->].
      split; [lia | exact He].
  - apply NoDup_ListNoDup, List.NoDup_filter, NoDup_ListNoDup, NoDup_seqZ.
Qed.

(** *** The records [getProof] returns *)

(** X4 — [getProof] in range.  In every storage reached by fewer than
    2^256 transactions there are as many tokens as proofs, and for every
    number from 1 to [getTotalProofs], [getProof] returns a record with a
    non-empty event identifier, a non-zero submitter, the token of the
    same number, which exists, and a commitment that
    [commitmentToProofId] maps back to the number. *)
Theorem getProof_returns_complete_record deployer base txs :
  Z.of_nat (length txs) < uint256_modulus ->
  let s := run deployer base txs in
  getTotalNFTs s = getTotalProofs s /\
  forall id, 1 <= id <= getTotalProofs s ->
    exists p, getProof id s = Ok (p, s) /\
      eventId p <> EmptyString /\ submitter p <> 0 /\
      nftTokenId p = id /\ _exists s id = true /\
      commitmentToProofId_at s (commitment p) = id.
Proof.
  intros Hlen s.
  destruct (run_Inv deployer base txs Hlen) as [HI _]. fold s in HI.
  pose proof (run_Inv2 deployer base txs Hlen) as HI2. fold s in HI2.
  unfold getTotalNFTs, getTotalProofs. split; [apply (inv_lockstep s HI)|].
  intros id Hid. destruct (inv_dense s HI id Hid) as [p Hp].
  destruct (inv_stored s HI id p Hp) as (_ & Hnft & Hidx & _).
  destruct (inv2_fields s HI2 id p Hp) as (He & Hsub).
  exists p. split; [apply (stored_lookup s _ _ HI); exact Hp|].
  repeat split; try assumption.
  - apply (inv_tokens s HI). rewrite (inv_lockstep s HI). exact Hid.
  - unfold commitmentToProofId_at. rewrite Hidx. reflexivity.
Qed.

(** *** Who may change what *)



(** *** validateProof in the storages that are reached *)

(** X8 — the outcome of [validateProof].  In every storage reached by
    fewer than 2^256 transactions a call reverts when the sender is not
    the owner, else when the number is not between 1 and [getTotalProofs];
    in every other case it goes through, sets the record's flag to
    [isValid], mints no token and leaves the owners of the tokens and the
    other records as they were. *)
Theorem validateProof_outcome deployer base txs sender id v :
  Z.of_nat (length txs) < uint256_modulus ->
  let s := run deployer base txs in
  if negb (_owner s =? sender)
  then validateProof sender id v s = Revert CallerIsNotOwner
  else if negb ((0 <? id) && (id <=? getTotalProofs s))
  then validateProof sender id v s = Revert InvalidProofId
  else exists s',
    validateProof sender id v s = Ok (tt, s') /\
    getTotalNFTs s' = getTotalNFTs s /\ _owners s' = _owners s /\
    proofCommitments_at s' id = set_isValid v (proofCommitments_at s id) /\
    forall other, other <> id ->
      proofCommitments_at s' other = proofCommitments_at s other.
Proof.
  intros Hlen s.
  destruct (run_Inv deployer base txs Hlen) as [HI _]. fold s in HI.
  rewrite validateProof_eq. unfold getTotalProofs.
  destruct (_owner s =? sender); simpl; [|reflexivity].
  destruct ((0 <? id) && (id <=? _proofCounter s)) eqn:Hr; simpl; [|reflexivity].
  apply andb_true_iff in Hr as [Hlo Hhi].
  apply Z.ltb_lt in Hlo. apply Z.leb_le in Hhi.
  destruct (inv_dense s HI id) as [p Hp]; [lia|].
  destruct (inv_stored s HI id p Hp) as (_ & Hnft & _).
  unfold proofCommitments_at at 1. rewrite Hp. simpl.
  replace (nftTokenId p =? 0) with false by (symmetry; apply Z.eqb_neq; lia).
  rewrite andb_false_r. exists (after_validate id v s).
  split; [reflexivity|]. unfold after_validate, getTotalNFTs.
  destruct s. crunch. rewrite lookup_insert_eq.
  repeat split; try reflexivity.
  intros other Hne. rewrite lookup_insert_ne by congruence. reflexivity.
Qed.

(** *** What the packed encoding tells apart *)

Lemma length_be_bytes n v : length (be_bytes n v) = n.
Proof.
  revert v. induction n as [|n IH]; intros v; simpl; [reflexivity|].
  rewrite length_app, IH. simpl. lia.
Qed.

Lemma be_bytes_eq_iff n v w :
  be_bytes n v = be_bytes n w <-> v mod 256 ^ Z.of_nat n = w mod 256 ^ Z.of_nat n.
Proof.
  revert v w. induction n as [|n IH]; intros v w.
  - simpl. rewrite !Z.mod_1_r. tauto.
  - replace (256 ^ Z.of_nat (S n)) with (256 * 256 ^ Z.of_nat n)
      by (rewrite Nat2Z.inj_succ, Z.pow_succ_r by lia; reflexivity).
    assert (Hpos : 0 < 256 ^ Z.of_nat n) by (apply Z.pow_pos_nonneg; lia).
    rewrite !Z.rem_mul_r by lia. simpl. split.
    + intros E. apply app_inj_tail in E as [E1 E2].
      apply IH in E1. rewrite E1. lia.
    + intros E.
      pose proof (Z.mod_pos_bound v 256 ltac:(lia)).
      pose proof (Z.mod_pos_bound w 256 ltac:(lia)).
      assert (v mod 256 = w mod 256 /\
              (v / 256) mod 256 ^ Z.of_nat n = (w / 256) mod 256 ^ Z.of_nat n)
        as [E2 E1] by lia.
      apply IH in E1. rewrite E1, E2. reflexivity.
Qed.

(** X9 — sender and time in the commitment.  For the same event
    identifier and proof data, two packed encodings are equal exactly when
    the senders agree on their 160 bits and the timestamps on their 256
    bits. *)
Theorem encodePacked_separates_sender_and_time e d sender1 time1 sender2 time2 :
  encodePacked e d sender1 time1 = encodePacked e d sender2 time2 <->
  sender1 mod 2 ^ 160 = sender2 mod 2 ^ 160 /\
  time1 mod 2 ^ 256 = time2 mod 2 ^ 256.
Proof.
  unfold encodePacked.
  change (2 ^ 160) with (256 ^ Z.of_nat 20).
  change (2 ^ 256) with (256 ^ Z.of_nat 32).
  rewrite <- !be_bytes_eq_iff. split.
  - intros E. apply app_inv_head in E. apply app_inv_head in E.
    apply app_inj_1 in E; [exact E|].
    rewrite !length_be_bytes. reflexivity.
  - intros [-> ->]. reflexivity.
Qed.

(** X10 — bytes moved between the two dynamic fields.  The packed
    encoding joins the event identifier and the proof data without their
    lengths.  So, in every storage reached by fewer than 2^256 - 1
    transactions, after a submission that went through, a submission of
    the same sender at the same time whose event identifier followed by
    its proof data gives the same bytes reverts with "Proof already
    submitted", although its event identifier is another. *)
Theorem submitProof_rejects_regrouped_bytes
    deployer base txs sender time e1 d1 e2 d2 id s1 :
  Z.of_nat (length txs) < uint256_modulus - 1 ->
  let s := run deployer base txs in
  submitProof sender time e1 d1 s = Ok (id, s1) ->
  bytes_of_string e1 ++ d1 = bytes_of_string e2 ++ d2 ->
  e2 <> EmptyString -> d2 <> [] ->
  submitProof sender time e2 d2 s1 = Revert ProofAlreadySubmitted.
Proof.
  intros Hlen s Hrun Hbytes He Hd.
  destruct (run_Inv deployer base txs) as [HI Hle]; [lia|]. fold s in HI, Hle.
  assert (Hroom : _proofCounter s + 1 < uint256_modulus) by lia.
  pose proof (inv_range s HI) as Hr.
  destruct (submitProof_Ok _ _ _ _ _ _ _ HI Hroom Hrun)
    as (Hid & _ & _ & _ & _ & _ & _ & _ & Hidx & _).
  apply submitProof_indexed_commitment; try assumption.
  assert (Henc : encodePacked e2 d2 sender time = encodePacked e1 d1 sender time).
  { unfold encodePacked. rewrite !app_assoc, Hbytes. reflexivity. }
  unfold commitmentToProofId_at. rewrite Henc, Hidx, lookup_insert_eq. simpl. lia.
Qed.

(** *** Recipients that call the registry back *)

(** ERC721's [_safeMint] calls [onERC721Received] of a recipient that is a
    contract, after the token has been given to it and before
    [_mintNFT] reads the event metadata.  In that hook the recipient may
    call the registry, itself or through other contracts: here the hook
    is an action on the storage, run between the mint and the check of
    what the hook answers. *)
Definition _safeMint_calling (onERC721Received : M unit) (to tokenId : Z)
    : M unit :=
  require (negb (to =? 0)) MintToZeroAddress >>
  minted <- read (fun s => _exists s tokenId);
  require (negb minted) TokenAlreadyMinted >>
  write (fun s => with_owners (<[tokenId := to]> (_owners s)) s) >>
  emit (Transfer 0 to tokenId) >>
  onERC721Received >>
  require (acceptsERC721 to) NonERC721Receiver.

Definition _mintNFT_calling (onERC721Received : M unit)
    (proofId recipient : Z) (eventId : string) : M unit :=
  increment_tokenIdCounter >>
  tokenId <- read _tokenIdCounter;
  (* Update proof with NFT token ID *)
  write (fun s => with_proofCommitments
           (<[proofId := set_nftTokenId tokenId (proofCommitments_at s proofId)]>
              (proofCommitments s)) s) >>
  (* Mint NFT *)
  _safeMint_calling onERC721Received recipient tokenId >>
  (* Set token URI based on event metadata *)
  metadata <- read (fun s => eventMetadata_at s eventId);
  (if 0 <? Z.of_nat (String.length (imageUri metadata))
   then _setTokenURI tokenId (imageUri metadata)
   else ret tt) >>
  emit (NFTMinted tokenId proofId recipient eventId).

Definition submitProof_calling (onERC721Received : M unit)
    (msg_sender block_timestamp : Z) (eventId : string) (proofData : list Z)
    : M Z :=
  require (0 <? Z.of_nat (String.length eventId)) EventIdEmpty >>
  require (0 <? Z.of_nat (length proofData)) ProofDataEmpty >>
  (* Create commitment hash *)
  let commitment :=
    keccak256 (encodePacked eventId proofData msg_sender block_timestamp) in
  (* Ensure this commitment hasn't been submitted before *)
  known <- read (fun s => commitmentToProofId_at s commitment);
  require (known =? 0) ProofAlreadySubmitted >>
  increment_proofCounter >>
  proofId <- read _proofCounter;
  (* Store proof commitment *)
  write (fun s => with_proofCommitments
           (<[proofId := mkProofCommitment commitment eventId msg_sender
                           block_timestamp true 0]> (proofCommitments s)) s) >>
  (* Update mappings *)
  write (fun s => with_commitmentToProofId
           (<[commitment := proofId]> (commitmentToProofId s)) s) >>
  write (fun s => with_userProofs
           (<[msg_sender := userProofs_at s msg_sender ++ [proofId]]>
              (userProofs s)) s) >>
  write (fun s => with_eventProofs
           (<[eventId := eventProofs_at s eventId ++ [proofId]]>
              (eventProofs s)) s) >>
  emit (ProofSubmitted proofId commitment eventId msg_sender) >>
  (* Auto-mint NFT for valid proof *)
  stored <- read (fun s => proofCommitments_at s proofId);
  (if isValid stored
   then _mintNFT_calling onERC721Received proofId msg_sender eventId
   else ret tt) >>
  ret proofId.

(** One call that reaches the registry while the hook runs inside
    [submitProof], with its caller: the recipient, or a contract that the
    hook has called.  The block is that of the submission.
    [nonReentrant] makes a nested [submitProof] revert; a call that
    reverts is undone, and the hook goes on. *)
Definition nested_call (block_timestamp : Z) (s : State) (c : Z * Call)
    : State :=
  match snd c with
  | CallSubmitProof _ _ => s (* "ReentrancyGuard: reentrant call" *)
  | _ => exec s (mkTx (fst c) block_timestamp (snd c))
  end.

(** A hook during which the calls [calls] reach the registry, in this
    order. *)
Definition onERC721Received (block_timestamp : Z) (calls : list (Z * Call))
    : M unit :=
  write (fun s => fold_left (nested_call block_timestamp) calls s).

(** A transaction together with the calls that reach the registry during
    the hook of its sender, should the transaction be a submission.
    [validateProof] mints nothing in a storage that satisfies the
    invariant, so that no hook runs in it; and the hook that a safe
    transfer calls runs when the transfer is done and outside
    [nonReentrant], so that its calls are transactions like any other. *)
Definition exec_calling (s : State) (tx : Tx) (calls : list (Z * Call))
    : State :=
  match call tx with
  | CallSubmitProof e d =>
      match submitProof_calling
              (onERC721Received (block_timestamp tx) calls)
              (msg_sender tx) (block_timestamp tx) e d s with
      | Ok (_, s') => s'
      | Revert _ => s
      end
  | _ => exec s tx
  end.

Definition run_calling (deployer : Z) (baseTokenURI : string)
    (txs : list (Tx * list (Z * Call))) : State :=
  fold_left (fun s t => exec_calling s (fst t) (snd t)) txs
    (deployed deployer baseTokenURI).

(** A hook during which no call is made: the registry of above. *)
Lemma submitProof_calling_nothing sender time e d s :
  submitProof_calling (onERC721Received time []) sender time e d s
  = submitProof sender time e d s.
Proof.
  unfold submitProof_calling, submitProof, _mintNFT_calling, _mintNFT,
    _safeMint_calling, _safeMint, onERC721Received.
  reflexivity.
Qed.

(** The storage at the moment [_safeMint] calls the hook: the counter is
    moved, the record carries the token, the token is the recipient's. *)
Definition before_hook (proofId recipient : Z) (s : State) : State :=
  let tokenId := wrap256 (_tokenIdCounter s + 1) in
  with_log (log s ++ [Transfer 0 recipient tokenId])
    (with_owners (<[tokenId := recipient]> (_owners s))
       (with_proofCommitments
          (<[proofId := set_nftTokenId tokenId (proofCommitments_at s proofId)]>
             (proofCommitments s))
          (with_tokenIdCounter tokenId s))).

(** What [_mintNFT] does once the hook has returned. *)
Definition after_hook (tokenId proofId recipient : Z) (e : string) (s : State)
    : State :=
  let uri := imageUri (eventMetadata_at s e) in
  with_log (log s ++ [NFTMinted tokenId proofId recipient e])
    (with_tokenURIs
       (if 0 <? Z.of_nat (String.length uri)
        then <[tokenId := uri]> (_tokenURIs s) else _tokenURIs s) s).

Lemma _mintNFT_calling_eq hook proofId recipient e s :
  _mintNFT_calling hook proofId recipient e s =
  let tokenId := wrap256 (_tokenIdCounter s + 1) in
  if recipient =? 0 then Revert MintToZeroAddress
  else if _exists s tokenId then Revert TokenAlreadyMinted
  else match hook (before_hook proofId recipient s) with
       | Revert err => Revert err
       | Ok (_, s') =>
           if negb (acceptsERC721 recipient) then Revert NonERC721Receiver
           else if (0 <? Z.of_nat (String.length (imageUri (eventMetadata_at s' e))))
                   && negb (_exists s' tokenId)
           then Revert URISetOfNonexistentToken
           else Ok (tt, after_hook tokenId proofId recipient e s')
       end.
Proof.
  unfold _mintNFT_calling, _safeMint_calling, _setTokenURI, before_hook,
    after_hook.
  destruct s. run_monad. unfold_reads. unfold_with.
  destruct (recipient =? 0) eqn:Hr; simpl; [reflexivity|].
  match goal with |- context [default 0 ?o =? 0] =>
    destruct (default 0 o =? 0) eqn:Hex end; simpl; [|reflexivity].
  match goal with |- context [hook ?st] => destruct (hook st) as [[[] s']|err] end;
    [|reflexivity].
  destruct (acceptsERC721 recipient); simpl; [|reflexivity].
  destruct s'. simpl.
  match goal with |- context [0 <? ?n] => destruct (0 <? n) eqn:Hu end; simpl.
  - match goal with |- context [default 0 ?o =? 0] =>
      destruct (default 0 o =? 0) end; reflexivity.
  - reflexivity.
Qed.

(** Stepping through a call, one statement at a time. *)
Lemma bind_require {A} b err (k : unit -> M A) s :
  bind (require b err) k s = if b then k tt s else Revert err.
Proof. unfold bind, require. destruct b; reflexivity. Qed.

Lemma bind_read {A B} (f : State -> A) (k : A -> M B) s :
  bind (read f) k s = k (f s) s.
Proof. reflexivity. Qed.

Lemma bind_write {A} f (k : unit -> M A) s :
  bind (write f) k s = k tt (f s).
Proof. reflexivity. Qed.

Lemma bind_emit {A} ev (k : unit -> M A) s :
  bind (emit ev) k s = k tt (with_log (log s ++ [ev]) s).
Proof. reflexivity. Qed.

Ltac step :=
  repeat (first [ rewrite bind_require | rewrite bind_read
                | rewrite bind_write | rewrite bind_emit ];
          cbv beta).

Lemma submitProof_calling_eq hook sender time e d s :
  submitProof_calling hook sender time e d s =
  if negb (0 <? Z.of_nat (String.length e)) then Revert EventIdEmpty
  else if negb (0 <? Z.of_nat (length d)) then Revert ProofDataEmpty
  else if negb (commitmentToProofId_at s
                  (keccak256 (encodePacked e d sender time)) =? 0)
  then Revert ProofAlreadySubmitted
  else match _mintNFT_calling hook (wrap256 (_proofCounter s + 1)) sender e
               (after_store sender time e d s) with
       | Ok (_, s') => Ok (wrap256 (_proofCounter s + 1), s')
       | Revert err => Revert err
       end.
Proof.
  unfold submitProof_calling, increment_proofCounter. cbv zeta.
  rewrite bind_require.
  destruct (0 <? Z.of_nat (String.length e)); [|reflexivity].
  rewrite bind_require.
  destruct (0 <? Z.of_nat (length d)); [|reflexivity].
  rewrite bind_read. cbv beta. rewrite bind_require.
  destruct (commitmentToProofId_at s _ =? 0); [|reflexivity].
  step.
  match goal with
  | |- context [isValid (proofCommitments_at ?st ?id)] =>
      replace (isValid (proofCommitments_at st id)) with true
  end.
  - destruct s; reflexivity.
  - unfold proofCommitments_at. destruct s. cbn. rewrite lookup_insert_eq.
    reflexivity.
Qed.

(** *** What the calls of a hook can do *)

(** What holds between the storage [s] in which a hook starts and the
    storage [s'] it leaves, [calls] being the calls made meanwhile: they
    store no record and mint no token; they change the [isValid] flag of
    records, the event metadata, the base URI or the contract owner only
    if one of them is made by the contract owner; an owner of a token
    changes only for a token that exists, which goes on existing. *)
Record called_back (calls : list (Z * Call)) (s s' : State) : Prop :=
  mkCalledBack {
  cb_proofCounter : _proofCounter s' = _proofCounter s;
  cb_tokenIdCounter : _tokenIdCounter s' = _tokenIdCounter s;
  cb_index : commitmentToProofId s' = commitmentToProofId s;
  cb_userProofs : userProofs s' = userProofs s;
  cb_eventProofs : eventProofs s' = eventProofs s;
  cb_tokenURIs : _tokenURIs s' = _tokenURIs s;
  cb_exists : forall t, _exists s' t = _exists s t;
  cb_records : forall id,
    set_isValid true (proofCommitments_at s' id)
    = set_isValid true (proofCommitments_at s id);
  cb_admin : Forall (fun c => fst c <> _owner s) calls ->
    proofCommitments s' = proofCommitments s /\
    eventMetadata s' = eventMetadata s /\
    _baseTokenURI s' = _baseTokenURI s /\ _owner s' = _owner s
}.

Lemma called_back_refl s : called_back [] s s.
Proof. constructor; auto. Qed.

Lemma called_back_trans calls1 calls2 s1 s2 s3 :
  called_back calls1 s1 s2 -> called_back calls2 s2 s3 ->
  called_back (calls1 ++ calls2) s1 s3.
Proof.
  intros [A1 A2 A3 A4 A5 A6 A7 A8 A9] [B1 B2 B3 B4 B5 B6 B7 B8 B9].
  constructor.
  - rewrite B1. exact A1.
  - rewrite B2. exact A2.
  - rewrite B3. exact A3.
  - rewrite B4. exact A4.
  - rewrite B5. exact A5.
  - rewrite B6. exact A6.
  - intros t. rewrite B7. apply A7.
  - intros id. rewrite B8. apply A8.
  - intros Hno. apply Forall_app in Hno as [Hno1 Hno2].
    destruct (A9 Hno1) as (C1 & C2 & C3 & C4).
    destruct B9 as (D1 & D2 & D3 & D4); [rewrite C4; exact Hno2|].
    repeat split; congruence.
Qed.

Lemma quiet_exists s s' tx :
  quiet s s' tx -> forall t, _exists s' t = _exists s t.
Proof.
  intros Hq t. destruct (quiet_owners _ _ _ Hq) as [E|(i & o & Ho & Hex & E)];
    unfold _exists; rewrite E; [reflexivity|].
  rewrite lookup_insert. destruct (decide (i = t)) as [<-|]; [|reflexivity].
  simpl. unfold _exists in Hex. rewrite Hex.
  apply negb_true_iff, Z.eqb_neq, Ho.
Qed.

Lemma Inv_quiet s s' tx : Inv s -> quiet s s' tx -> Inv s'.
Proof.
  intros HI Hq. pose proof (quiet_exists s s' tx Hq) as Hex.
  destruct Hq as [Q1 Q2 Q3 Q4 Q5 Q6 Q7 Q8 Q9].
  eapply Inv_frame; eassumption.
Qed.

Lemma nested_call_frame time s c :
  Inv s ->
  Inv (nested_call time s c) /\ called_back [c] s (nested_call time s c).
Proof.
  intros HI.
  assert (Hgen : forall tx, msg_sender tx = fst c ->
            (forall e d, call tx <> CallSubmitProof e d) ->
            Inv (exec s tx) /\ called_back [c] s (exec s tx)).
  { intros tx Hsender Hnot.
    destruct (exec_cases s tx HI)
      as [(e & d & id & Hc & _) | [(id & v & p & _ & Ho & Hp & Hex) | Hq]].
    - exfalso. exact (Hnot e d Hc).
    - split; [rewrite Hex; eapply Inv_validate; eassumption|].
      constructor; [rewrite Hex; destruct s; reflexivity ..| | |].
      + intros t. rewrite Hex. destruct s. reflexivity.
      + intros id'. rewrite Hex. unfold after_validate, proofCommitments_at.
        destruct s. simpl. rewrite lookup_insert.
        destruct (decide (id = id')) as [<-|]; reflexivity.
      + intros Hno. apply Forall_cons in Hno as [Hno _]. congruence.
    - split; [eapply Inv_quiet; eassumption|].
      pose proof (quiet_exists _ _ _ Hq) as Hex.
      destruct Hq as [Q1 Q2 Q3 Q4 Q5 Q6 Q7 Q8 Q9].
      constructor; [assumption ..| | |].
      + exact Hex.
      + intros id. unfold proofCommitments_at. rewrite Q3. reflexivity.
      + intros Hno. apply Forall_cons in Hno as [Hno _].
        destruct Q9 as [Q9|(C1 & C2 & C3)]; [congruence|]. auto. }
  assert (Hskip : Inv s /\ called_back [c] s s).
  { split; [exact HI|]. constructor; auto. }
  destruct c as [caller c]. unfold nested_call. simpl.
  destruct c; try (apply Hgen; [reflexivity | intros; discriminate]).
  exact Hskip.
Qed.

Lemma hook_frame time calls : forall s,
  Inv s ->
  Inv (fold_left (nested_call time) calls s) /\
  called_back calls s (fold_left (nested_call time) calls s).
Proof.
  induction calls as [|c calls IH]; intros s HI; simpl.
  - split; [exact HI | apply called_back_refl].
  - destruct (nested_call_frame time s c HI) as [HI1 Hcb1].
    destruct (IH (nested_call time s c) HI1) as [HI2 Hcb2].
    split; [exact HI2|].
    exact (called_back_trans [c] calls _ _ _ Hcb1 Hcb2).
Qed.

(** *** A submission whose sender calls back *)

(** A submission that goes through although the hook of the sender makes
    calls: the same submission by a sender that makes none goes through
    as well; the hook starts in a storage that satisfies the invariant,
    with the record and the token in place; what follows the hook is the
    token URI and the [NFTMinted] event. *)
Lemma submitProof_calling_Ok sender time e d calls s id s' :
  Inv s -> _proofCounter s + 1 < uint256_modulus ->
  submitProof_calling (onERC721Received time calls) sender time e d s
    = Ok (id, s') ->
  let m := before_hook id sender (after_store sender time e d s) in
  let h := fold_left (nested_call time) calls m in
  (exists su, submitProof sender time e d s = Ok (id, su) /\ Inv su /\
     _proofCounter m = _proofCounter su /\
     _tokenIdCounter m = _tokenIdCounter su /\
     proofCommitments m = proofCommitments su /\
     commitmentToProofId m = commitmentToProofId su /\
     userProofs m = userProofs su /\ eventProofs m = eventProofs su /\
     _owners m = _owners su) /\
  _tokenURIs m = _tokenURIs s /\ _owner m = _owner s /\
  eventMetadata m = eventMetadata s /\ _baseTokenURI m = _baseTokenURI s /\
  Inv m /\ s' = after_hook id id sender e h.
Proof.
  intros HI Hroom Hrun m h.
  pose proof (inv_range s HI) as Hr. pose proof (inv_lockstep s HI) as Hl.
  assert (Hw : wrap256 (_proofCounter s + 1) = _proofCounter s + 1)
    by (apply wrap256_small; lia).
  destruct (after_store_frame sender time e d s) as (Htc & Hown & Hur & Hmd & Hb).
  assert (Hfree : _exists (after_store sender time e d s)
                    (wrap256 (_tokenIdCounter (after_store sender time e d s) + 1))
                  = false).
  { unfold _exists. rewrite Htc, Hown, Hl, Hw.
    apply not_true_is_false. intros Hex.
    assert (Hin : _exists s (_proofCounter s + 1) = true) by exact Hex.
    apply (inv_tokens s HI) in Hin. lia. }
  rewrite submitProof_calling_eq in Hrun.
  pose proof (submitProof_eq sender time e d s) as Hplain.
  destruct (negb (0 <? Z.of_nat (String.length e))); [discriminate|].
  destruct (negb (0 <? Z.of_nat (length d))); [discriminate|].
  destruct (negb (commitmentToProofId_at s _ =? 0)); [discriminate|].
  assert (Htid : wrap256 (_tokenIdCounter (after_store sender time e d s) + 1)
                 = _proofCounter s + 1) by (rewrite Htc, Hl; exact Hw).
  rewrite _mintNFT_calling_eq in Hrun. cbv zeta in Hrun.
  rewrite _mintNFT_eq, can_mint_after_store in Hplain by assumption.
  rewrite Hfree, Htid, Hw in Hrun. rewrite Hw in Hplain.
  destruct (sender =? 0) eqn:Hs; [discriminate|].
  unfold onERC721Received in Hrun. unfold write in Hrun at 1.
  cbv beta iota in Hrun.
  destruct (acceptsERC721 sender); cbn [negb andb] in Hrun, Hplain;
    [|discriminate].
  assert (Hid : id = _proofCounter s + 1).
  { destruct (_ && _) in Hrun; [discriminate|]. injection Hrun as <- _.
    reflexivity. }
  subst id.
  assert (HIu : Inv (after_mint (_proofCounter s + 1) sender e
                       (after_store sender time e d s)))
    by (eapply Inv_submit; eassumption).
  assert (Hm : m = before_hook (_proofCounter s + 1) sender
                     (after_store sender time e d s)) by reflexivity.
  assert (Hfields :
     _proofCounter m = _proofCounter (after_mint (_proofCounter s + 1) sender e
                                        (after_store sender time e d s)) /\
     _tokenIdCounter m = _tokenIdCounter (after_mint (_proofCounter s + 1) sender e
                                        (after_store sender time e d s)) /\
     proofCommitments m = proofCommitments (after_mint (_proofCounter s + 1) sender e
                                        (after_store sender time e d s)) /\
     commitmentToProofId m = commitmentToProofId (after_mint (_proofCounter s + 1) sender e
                                        (after_store sender time e d s)) /\
     userProofs m = userProofs (after_mint (_proofCounter s + 1) sender e
                                        (after_store sender time e d s)) /\
     eventProofs m = eventProofs (after_mint (_proofCounter s + 1) sender e
                                        (after_store sender time e d s)) /\
     _owners m = _owners (after_mint (_proofCounter s + 1) sender e
                                        (after_store sender time e d s))).
  { rewrite Hm. unfold before_hook, after_mint. destruct s. simpl.
    repeat split; reflexivity. }
  destruct Hfields as (F1 & F2 & F3 & F4 & F5 & F6 & F7).
  assert (HIm : Inv m).
  { eapply Inv_frame; [exact F1 | exact F2 | exact F3 | exact F4 | exact F5
                      | exact F6 | | exact HIu].
    intros t. unfold _exists. rewrite F7. reflexivity. }
  split; [eexists; split; [exact Hplain|]; split; [exact HIu|];
          repeat split; assumption|].
  split; [rewrite Hm, <- Hur; unfold before_hook; destruct s; reflexivity|].
  split; [rewrite Hm; unfold before_hook, after_store; destruct s; reflexivity|].
  split; [rewrite Hm, <- Hmd; unfold before_hook; destruct s; reflexivity|].
  split; [rewrite Hm, <- Hb; unfold before_hook; destruct s; reflexivity|].
  split; [exact HIm|].
  destruct (_ && _) in Hrun; [discriminate|]. injection Hrun as <-.
  reflexivity.
Qed.

(** Only tokens that have been minted have a URI. *)
Definition uris_in_range (s : State) : Prop :=
  forall t u, _tokenURIs s !! t = Some u -> 1 <= t <= _tokenIdCounter s.

Lemma after_hook_frame tokenId proofId recipient e s :
  _proofCounter (after_hook tokenId proofId recipient e s) = _proofCounter s /\
  _tokenIdCounter (after_hook tokenId proofId recipient e s) = _tokenIdCounter s /\
  proofCommitments (after_hook tokenId proofId recipient e s) = proofCommitments s /\
  commitmentToProofId (after_hook tokenId proofId recipient e s)
    = commitmentToProofId s /\
  userProofs (after_hook tokenId proofId recipient e s) = userProofs s /\
  eventProofs (after_hook tokenId proofId recipient e s) = eventProofs s /\
  _owners (after_hook tokenId proofId recipient e s) = _owners s /\
  eventMetadata (after_hook tokenId proofId recipient e s) = eventMetadata s /\
  _owner (after_hook tokenId proofId recipient e s) = _owner s /\
  _tokenURIs (after_hook tokenId proofId recipient e s)
  = if 0 <? Z.of_nat (String.length (imageUri (eventMetadata_at s e)))
    then <[tokenId := imageUri (eventMetadata_at s e)]> (_tokenURIs s)
    else _tokenURIs s.
Proof. unfold after_hook. destruct s. simpl. repeat split; reflexivity. Qed.

(** Every transaction keeps the invariant, whatever its sender's hook
    calls. *)
Lemma Inv_exec_calling s tx calls :
  Inv s -> uris_in_range s -> _proofCounter s + 1 < uint256_modulus ->
  Inv (exec_calling s tx calls) /\ uris_in_range (exec_calling s tx calls) /\
  _proofCounter s <= _proofCounter (exec_calling s tx calls)
    <= _proofCounter s + 1.
Proof.
  intros HI Hu Hroom.
  assert (Hplain : (forall e d, call tx <> CallSubmitProof e d) ->
            Inv (exec s tx) /\ uris_in_range (exec s tx) /\
            _proofCounter s <= _proofCounter (exec s tx) <= _proofCounter s + 1).
  { intros Hnot. destruct (Inv_exec s tx HI Hroom) as [HI' Hstep].
    split; [exact HI'|]. split; [|exact Hstep].
    destruct (exec_cases s tx HI)
      as [(e & d & id & Hc & _) | [(id & v & p & _ & _ & _ & Hex) | Hq]].
    - exfalso. exact (Hnot e d Hc).
    - rewrite Hex. unfold uris_in_range. destruct s. exact Hu.
    - intros t u. rewrite (quiet_tokenURIs _ _ _ Hq), (quiet_tokenIdCounter _ _ _ Hq).
      apply Hu. }
  unfold exec_calling.
  destruct (call tx) as [e d| | | | | |] eqn:Hcall;
    try (apply Hplain; intros; discriminate).
  destruct (submitProof_calling _ _ _ e d s) as [[id s']|err] eqn:Hrun;
    [|split; [exact HI | split; [exact Hu | lia]]].
  destruct (submitProof_calling_Ok _ _ _ _ _ _ _ _ HI Hroom Hrun)
    as ((su & Hsu & HIu & F1 & F2 & _) & Hur & _ & _ & _ & HIm & ->).
  destruct (submitProof_Ok _ _ _ _ _ _ _ HI Hroom Hsu)
    as (Hid & _ & _ & _ & _ & Hpc & Htc & _).
  set (m := before_hook id (msg_sender tx)
              (after_store (msg_sender tx) (block_timestamp tx) e d s)) in *.
  destruct (hook_frame (block_timestamp tx) calls m HIm) as [HIh Hcb].
  set (h := fold_left (nested_call (block_timestamp tx)) calls m) in *.
  destruct (after_hook_frame id id (msg_sender tx) e h)
    as (A1 & A2 & A3 & A4 & A5 & A6 & A7 & _ & _ & A10).
  split; [|split].
  - eapply Inv_frame; [exact A1 | exact A2 | exact A3 | exact A4 | exact A5
                      | exact A6 | | exact HIh].
    intros t. unfold _exists. rewrite A7. reflexivity.
  - intros t u. rewrite A10, A2, (cb_tokenIdCounter _ _ _ Hcb), F2, Htc.
    rewrite (cb_tokenURIs _ _ _ Hcb), Hur.
    pose proof (inv_lockstep s HI) as Hl. pose proof (inv_range s HI) as Hr.
    intros Ht.
    assert (Hold : _tokenURIs s !! t = Some u -> 1 <= t <= id)
      by (intros Hin; specialize (Hu t u Hin); lia).
    destruct (0 <? _); [|auto].
    rewrite lookup_insert in Ht. destruct (decide (id = t)); [lia | auto].
  - rewrite A1, (cb_proofCounter _ _ _ Hcb), F1, Hpc. lia.
Qed.

Lemma run_calling_snoc deployer base txs tx calls :
  run_calling deployer base (txs ++ [(tx, calls)])
  = exec_calling (run_calling deployer base txs) tx calls.
Proof. unfold run_calling. rewrite fold_left_app. reflexivity. Qed.

Lemma run_calling_Inv deployer base txs :
  Z.of_nat (length txs) < uint256_modulus ->
  Inv (run_calling deployer base txs) /\
  uris_in_range (run_calling deployer base txs) /\
  _proofCounter (run_calling deployer base txs) <= Z.of_nat (length txs).
Proof.
  induction txs as [|[tx calls] txs IH] using rev_ind; intros Hlen.
  - split; [apply Inv_deployed|]. split; [|simpl; lia].
    intros t u Ht. simpl in Ht. rewrite lookup_empty in Ht. discriminate.
  - rewrite length_app in Hlen. simpl in Hlen.
    destruct IH as (HI & Hu & Hle); [lia|].
    rewrite run_calling_snoc, length_app. simpl.
    destruct (Inv_exec_calling (run_calling deployer base txs) tx calls HI Hu)
      as (HI' & Hu' & Hstep); [lia|].
    split; [exact HI'|]. split; [exact Hu' | lia].
Qed.

(** What a submission that goes through leaves, whatever the hook of its
    sender calls. *)
Lemma submitProof_calling_after sender time e d calls s id s' :
  Inv s -> _proofCounter s + 1 < uint256_modulus ->
  submitProof_calling (onERC721Received time calls) sender time e d s
    = Ok (id, s') ->
  let c := keccak256 (encodePacked e d sender time) in
  id = _proofCounter s + 1 /\ sender <> 0 /\ _proofCounter s' = id /\
  userProofs s' = <[sender := userProofs_at s sender ++ [id]]> (userProofs s) /\
  eventProofs s' = <[e := eventProofs_at s e ++ [id]]> (eventProofs s) /\
  set_isValid true (proofCommitments_at s' id)
    = mkProofCommitment c e sender time true id /\
  _exists s' id = true /\
  _tokenURIs s' =
    (if 0 <? Z.of_nat (String.length (imageUri (eventMetadata_at s' e)))
     then <[id := imageUri (eventMetadata_at s' e)]> (_tokenURIs s)
     else _tokenURIs s) /\
  (Forall (fun c => fst c <> _owner s) calls ->
   proofCommitments_at s' id = mkProofCommitment c e sender time true id /\
   eventMetadata s' = eventMetadata s) /\
  (calls = [] -> _owners s' = <[id := sender]> (_owners s)).
Proof.
  intros HI Hroom Hrun c.
  destruct (submitProof_calling_Ok _ _ _ _ _ _ _ _ HI Hroom Hrun)
    as ((su & Hsu & HIu & F1 & F2 & F3 & F4 & F5 & F6 & F7)
        & Hur & Hown & Hmd & _ & HIm & Hs').
  destruct (submitProof_Ok _ _ _ _ _ _ _ HI Hroom Hsu)
    as (Hid & _ & Hsender & _ & _ & Hpc & Htc & Hrec & _ & Hup & Hep & Howners & _).
  fold c in Hrec.
  set (m := before_hook id sender (after_store sender time e d s)) in *.
  destruct (hook_frame time calls m HIm) as [HIh Hcb].
  set (h := fold_left (nested_call time) calls m) in *.
  destruct (after_hook_frame id id sender e h)
    as (A1 & A2 & A3 & A4 & A5 & A6 & A7 & A8 & A9 & A10).
  rewrite <- Hs' in A1, A2, A3, A4, A5, A6, A7, A8, A9, A10.
  assert (Hat : forall x, proofCommitments_at s' x = proofCommitments_at h x)
    by (intros x; unfold proofCommitments_at; rewrite A3; reflexivity).
  assert (Hmeta : eventMetadata_at s' e = eventMetadata_at h e)
    by (unfold eventMetadata_at; rewrite A8; reflexivity).
  assert (Hm_at : proofCommitments_at m id
                  = mkProofCommitment c e sender time true id).
  { unfold proofCommitments_at. rewrite F3, Hrec, lookup_insert_eq.
    reflexivity. }
  split; [exact Hid|]. split; [exact Hsender|].
  split; [rewrite A1, (cb_proofCounter _ _ _ Hcb), F1; exact Hpc|].
  split; [rewrite A5, (cb_userProofs _ _ _ Hcb), F5; exact Hup|].
  split; [rewrite A6, (cb_eventProofs _ _ _ Hcb), F6; exact Hep|].
  split; [rewrite Hat, (cb_records _ _ _ Hcb), Hm_at; reflexivity|].
  split.
  { unfold _exists. rewrite A7. fold (_exists h id).
    rewrite (cb_exists _ _ _ Hcb). unfold _exists.
    rewrite F7, Howners, lookup_insert_eq. simpl.
    apply negb_true_iff, Z.eqb_neq, Hsender. }
  split; [rewrite A10, Hmeta, (cb_tokenURIs _ _ _ Hcb), Hur; reflexivity|].
  split.
  - intros Hno.
    destruct (cb_admin _ _ _ Hcb) as (C1 & C2 & _); [rewrite Hown; exact Hno|].
    split; [|rewrite A8, C2; exact Hmd].
    rewrite Hat. unfold proofCommitments_at. rewrite C1. exact Hm_at.
  - intros ->. rewrite A7. change h with m. rewrite F7. exact Howners.
Qed.

(** *** Token URIs *)

(** X6 — a token's URI is fixed when it is minted.  In every storage
    reached by fewer than 2^256 - 1 transactions, whatever calls were
    made during the hooks of their senders: the token of a submission
    that goes through gets as URI the image URI that the event has when
    the call ends, and no URI when it then has no metadata or an empty
    image URI; this is what the event had before the call unless the
    contract owner makes a call during the hook, for [_mintNFT] reads
    the metadata once the hook has returned; and no transaction of any
    kind, whatever calls are made during the hook of its sender, changes
    the URI of a token that exists. *)
Theorem tokenURI_fixed_at_mint deployer base txs :
  Z.of_nat (length txs) < uint256_modulus - 1 ->
  let s := run_calling deployer base txs in
  (forall sender time e d calls id s',
     submitProof_calling (onERC721Received time calls) sender time e d s
       = Ok (id, s') ->
     _tokenURIs s' !! id =
       (if 0 <? Z.of_nat (String.length (imageUri (eventMetadata_at s' e)))
        then Some (imageUri (eventMetadata_at s' e)) else None) /\
     (Forall (fun c => fst c <> _owner s) calls ->
      eventMetadata_at s' e = eventMetadata_at s e)) /\
  (forall tx calls t, 1 <= t <= getTotalNFTs s ->
     _tokenURIs (exec_calling s tx calls) !! t = _tokenURIs s !! t).
Proof.
  intros Hlen s.
  destruct (run_calling_Inv deployer base txs) as (HI & Hu & Hle); [lia|].
  fold s in HI, Hu, Hle.
  assert (Hroom : _proofCounter s + 1 < uint256_modulus) by lia.
  pose proof (inv_lockstep s HI) as Hl.
  assert (Hnone : _tokenURIs s !! (_proofCounter s + 1) = None).
  { destruct (_tokenURIs s !! _) as [u|] eqn:Hin; [|reflexivity].
    specialize (Hu _ _ Hin). lia. }
  split.
  - intros sender time e d calls id s' Hrun.
    destruct (submitProof_calling_after _ _ _ _ _ _ _ _ HI Hroom Hrun)
      as (Hid & _ & _ & _ & _ & _ & _ & Huri & Hplain & _).
    split.
    + rewrite Huri. destruct (0 <? _); [apply lookup_insert_eq|].
      rewrite Hid. exact Hnone.
    + intros Hno. destruct (Hplain Hno) as [_ Hmd].
      unfold eventMetadata_at. rewrite Hmd. reflexivity.
  - intros tx calls t Ht. unfold getTotalNFTs in Ht. unfold exec_calling.
    assert (Hplain : (forall e d, call tx <> CallSubmitProof e d) ->
              _tokenURIs (exec s tx) !! t = _tokenURIs s !! t).
    { intros Hnot. destruct (exec_cases s tx HI)
        as [(e & d & id & Hc & _) | [(id & v & p & _ & _ & _ & ->) | Hq]].
      - exfalso. exact (Hnot e d Hc).
      - destruct s; reflexivity.
      - rewrite (quiet_tokenURIs _ _ _ Hq). reflexivity. }
    destruct (call tx) as [e d| | | | | |];
      try (apply Hplain; intros; discriminate).
    destruct (submitProof_calling _ _ _ e d s) as [[id s']|err] eqn:Hrun;
      [|reflexivity].
    destruct (submitProof_calling_after _ _ _ _ _ _ _ _ HI Hroom Hrun)
      as (Hid & _ & _ & _ & _ & _ & _ & Huri & _).
    rewrite Huri. destruct (0 <? _); [|reflexivity].
    apply lookup_insert_ne. lia.
Qed.

(** *** After a submission *)

(** X7 — what the submitter gets.  In every storage reached by fewer
    than 2^256 - 1 transactions, whatever calls were made during the
    hooks of their senders, after a submission that goes through: the new
    number is the last of [getUserProofs] of the sender and of
    [getEventProofs] of the event; its record is stored with that event,
    that sender and the token of the same number, which exists;
    [hasValidProofForEvent] is true for the sender and the event when no
    call during the hook is made by the contract owner (who can set the
    flag of the new record to false there); and the sender owns the new
    token when no call is made during the hook (a call can give the token
    away). *)
Theorem submitter_has_valid_proof deployer base txs sender time e d calls id s' :
  Z.of_nat (length txs) < uint256_modulus - 1 ->
  let s := run_calling deployer base txs in
  submitProof_calling (onERC721Received time calls) sender time e d s
    = Ok (id, s') ->
  getUserProofs s' sender = getUserProofs s sender ++ [id] /\
  getEventProofs s' e = getEventProofs s e ++ [id] /\
  (exists p, stored s' id p /\ eventId p = e /\ submitter p = sender /\
             nftTokenId p = id) /\
  _exists s' id = true /\
  (Forall (fun c => fst c <> _owner s) calls ->
   hasValidProofForEvent s' sender e = true) /\
  (calls = [] -> _owners s' !! id = Some sender).
Proof.
  intros Hlen s Hrun.
  destruct (run_calling_Inv deployer base txs) as (HI & Hu & Hle); [lia|].
  fold s in HI, Hu, Hle.
  assert (Hroom : _proofCounter s + 1 < uint256_modulus) by lia.
  pose proof (inv_range s HI) as Hr.
  destruct (submitProof_calling_after _ _ _ _ _ _ _ _ HI Hroom Hrun)
    as (Hid & _ & Hpc & Hup & Hep & Hrec & Hex & _ & Hplain & Hown).
  assert (Huser : getUserProofs s' sender = getUserProofs s sender ++ [id]).
  { unfold getUserProofs. rewrite (userProofs_at_insert _ _ _ _ sender Hup).
    rewrite decide_True by reflexivity. reflexivity. }
  assert (Hevent : getEventProofs s' e = getEventProofs s e ++ [id]).
  { unfold getEventProofs. rewrite (eventProofs_at_insert _ _ _ _ e Hep).
    rewrite decide_True by reflexivity. reflexivity. }
  split; [exact Huser|]. split; [exact Hevent|]. split; [|split; [exact Hex|split]].
  - exists (proofCommitments_at s' id).
    split; [apply stored_iff; split; [lia | reflexivity]|].
    apply (f_equal eventId) in Hrec as H1.
    apply (f_equal submitter) in Hrec as H2.
    apply (f_equal nftTokenId) in Hrec as H3. auto.
  - intros Hno. destruct (Hplain Hno) as [Hp _].
    unfold hasValidProofForEvent. apply hasValidProofForEvent_from_true.
    exists id. unfold getUserProofs in Huser. rewrite Huser, Hp. simpl.
    split; [|auto]. apply elem_of_app. right. apply list_elem_of_singleton.
    reflexivity.
  - intros Hc. rewrite (Hown Hc). apply lookup_insert_eq.
Qed.

End Contract.

(** *** Worked examples *)

(** A stand-in for keccak256 in the examples: the bytes read as digits in
    base 257, each shifted by one, so that different inputs of the
    examples get different values. *)
Definition example_hash (bs : list Z) : Z :=
  fold_left (fun acc b => acc * 257 + b + 1) bs 0.

Definition example_accepts (_ : Z) : bool := true.

Definition proofA : list Z := [112; 114; 111; 111; 102; 65].

(** The owner is account 7; account 5 submits ("eth-summit", proofA) at
    time 100. *)
Definition submit_once : list Tx :=
  [mkTx 5 100 (CallSubmitProof "eth-summit" proofA)].

(** ... and then the owner sets the record to invalid. *)
Definition submit_then_invalidate : list Tx :=
  submit_once ++ [mkTx 7 101 (CallValidateProof 1 false)].

Definition example_run (txs : list Tx) : State :=
  run example_hash example_accepts 7 EmptyString txs.

Example submit_once_ids :
  (_proofCounter (example_run submit_once),
   _tokenIdCounter (example_run submit_once),
   nftTokenId (proofCommitments_at (example_run submit_once) 1),
   _exists (example_run submit_once) 1) = (1, 1, 1, true).
Proof. vm_compute. reflexivity. Qed.

Example submit_twice_reverts :
  submitProof example_hash example_accepts 5 100 "eth-summit" proofA
    (example_run submit_once) = Revert ProofAlreadySubmitted.
Proof. vm_compute. reflexivity. Qed.

Example submit_later_is_accepted :
  _proofCounter
    (example_run (submit_once ++ [mkTx 5 101 (CallSubmitProof "eth-summit" proofA)]))
  = 2.
Proof. vm_compute. reflexivity. Qed.

(** Why the theorems count transactions: in a storage built by hand whose
    proof counter is 2^256 - 1, the increment wraps and the submission is
    given the number 0. *)
Example counter_wraps :
  match submitProof example_hash example_accepts 5 100 "eth-summit" proofA
          (with_proofCounter (uint256_modulus - 1) (deployed 7 EmptyString)) with
  | Ok (proofId, _) => proofId = 0
  | Revert _ => False
  end.
Proof. vm_compute. reflexivity. Qed.

Lemma submitProof_one_record_per_commitment_witness :
  Z.of_nat (length submit_once) < uint256_modulus - 1 /\
  submitProof example_hash example_accepts 5 100 "eth-summit" proofA
    (example_run submit_once) = Revert ProofAlreadySubmitted.
Proof.
  assert (Hlen : Z.of_nat (length submit_once) < uint256_modulus - 1)
    by (vm_compute; reflexivity).
  split; [exact Hlen|].
  refine (proj1 (proj1 (proj2 (submitProof_one_record_per_commitment
                          example_hash example_accepts 7 EmptyString submit_once Hlen))
                   5 100 "eth-summit"%string proofA 1
                   (proofCommitments_at (example_run submit_once) 1) _ _ _ _)).
  - discriminate.
  - discriminate.
  - vm_compute. reflexivity.
  - vm_compute. reflexivity.
Defined.

(** C2 as stated fails: after the owner set the only record to invalid,
    its token 1 still exists, and no stored record has [isValid] true
    together with a token. *)
Lemma credential_without_valid_record :
  let s := example_run submit_then_invalidate in
  _exists s 1 = true /\
  ~ (exists proofId p, stored s proofId p /\
                       isValid p = true /\ nftTokenId p <> 0).
Proof.
  intros s. split; [vm_compute; reflexivity|].
  intros (id & p & Hp & Hv & _).
  apply stored_iff in Hp as [Hr ->].
  assert (Hpc : _proofCounter s = 1) by (vm_compute; reflexivity).
  assert (id = 1) as -> by lia.
  vm_compute in Hv. discriminate.
Qed.

Lemma credential_bound_to_one_record_witness :
  Z.of_nat (length submit_then_invalidate) < uint256_modulus - 1 /\
  (_exists (example_run submit_then_invalidate) 1 = true <->
   exists proofId p,
     stored (example_run submit_then_invalidate) proofId p /\
     nftTokenId p = 1).
Proof.
  assert (Hlen : Z.of_nat (length submit_then_invalidate) < uint256_modulus - 1)
    by (vm_compute; reflexivity).
  split; [exact Hlen|].
  exact (proj1 (credential_bound_to_one_record example_hash example_accepts
                  7 EmptyString submit_then_invalidate Hlen) 1).
Defined.

(** A storage built by hand, which no transaction produces: record 1
    is stored invalid and without a token. *)
Definition unminted_record : State :=
  mkState 0 1
    {[ 1 := mkProofCommitment 99 "eth-summit" 5 100 false 0 ]}
    {[ 99 := 1 ]} ∅ {[ 5 := [1] ]} {[ "eth-summit"%string := [1] ]}
    EmptyString 7 ∅ ∅ [].

Definition late_validation : State :=
  exec example_hash example_accepts unminted_record
    (mkTx 7 101 (CallValidateProof 1 true)).

Example late_validation_mints :
  (_tokenIdCounter late_validation, _exists late_validation 1,
   proofCommitments_at late_validation 1) =
  (1, true, mkProofCommitment 99 "eth-summit" 5 100 true 1).
Proof. vm_compute. reflexivity. Qed.

Example validate_again_mints_nothing :
  let again := exec example_hash example_accepts late_validation
                 (mkTx 7 102 (CallValidateProof 1 true)) in
  (_tokenIdCounter again, nftTokenId (proofCommitments_at again 1)) = (1, 1).
Proof. vm_compute. reflexivity. Qed.

Lemma validateProof_mints_iff_unminted_witness :
  validateProof example_accepts 7 1 true unminted_record
    = Ok (tt, late_validation) /\
  _tokenIdCounter late_validation
    = wrap256 (_tokenIdCounter unminted_record + 1) /\
  _exists late_validation (wrap256 (_tokenIdCounter unminted_record + 1)) = true.
Proof.
  assert (Hrun : validateProof example_accepts 7 1 true unminted_record
                 = Ok (tt, late_validation)) by (vm_compute; reflexivity).
  split; [exact Hrun|].
  pose proof (validateProof_mints_iff_unminted example_accepts 7 1 true
                unminted_record late_validation Hrun) as [Hm _].
  cbv zeta in Hm.
  replace (true && (nftTokenId (proofCommitments_at unminted_record 1) =? 0))
    with true in Hm by (vm_compute; reflexivity).
  destruct Hm as (H1 & _ & H3 & _). split; [exact H1 | exact H3].
Defined.

Lemma hasValidProofForEvent_iff_witness :
  Z.of_nat (length submit_once) < uint256_modulus /\
  collision_free example_hash (example_run submit_once) 5 "eth-summit" = true /\
  (hasValidProofForEvent example_hash (example_run submit_once) 5 "eth-summit"
     = true <->
   exists proofId p, stored (example_run submit_once) proofId p /\
     submitter p = 5 /\ eventId p = "eth-summit"%string /\ isValid p = true).
Proof.
  assert (Hlen : Z.of_nat (length submit_once) < uint256_modulus)
    by (vm_compute; reflexivity).
  assert (Hfree : collision_free example_hash (example_run submit_once) 5
                    "eth-summit" = true) by (vm_compute; reflexivity).
  split; [exact Hlen|]. split; [exact Hfree|].
  exact (hasValidProofForEvent_iff example_hash example_accepts 7 EmptyString
           submit_once 5 "eth-summit"%string Hlen Hfree).
Defined.

Lemma identifiers_start_at_one_witness :
  Z.of_nat (length submit_once) < uint256_modulus - 1 /\
  _exists (example_run submit_once) 0 = false.
Proof.
  assert (Hlen : Z.of_nat (length submit_once) < uint256_modulus - 1)
    by (vm_compute; reflexivity).
  split; [exact Hlen|].
  exact (proj2 (proj2 (proj2 (proj2 (proj2
           (identifiers_start_at_one example_hash example_accepts 7 EmptyString
              submit_once Hlen)))))).
Defined.

(** *** Worked examples for the other functions *)

Definition nobody : list Tx := [].

Lemma small_runs_fit (txs : list Tx) :
  (length txs <= 2)%nat -> Z.of_nat (length txs) < uint256_modulus - 1.
Proof. intros H. unfold uint256_modulus. lia. Qed.

(** Evaluates the tests of a statement that is a chain of conditionals. *)
Ltac take_branches H :=
  repeat match type of H with
         | if ?c then _ else _ =>
             let v := eval vm_compute in c in
             replace c with v in H by (vm_compute; reflexivity);
             cbv iota in H
         end.

Lemma submitProof_outcome_witness :
  Z.of_nat (length nobody) < uint256_modulus - 1 /\
  exists s',
    submitProof example_hash example_accepts 5 100 "eth-summit" proofA
      (example_run nobody)
    = Ok (getTotalProofs (example_run nobody) + 1, s').
Proof.
  assert (Hlen : Z.of_nat (length nobody) < uint256_modulus - 1)
    by (apply small_runs_fit; simpl; lia).
  split; [exact Hlen|].
  pose proof (submitProof_outcome example_hash example_accepts 7 EmptyString
                nobody 5 100 "eth-summit"%string proofA Hlen) as H.
  cbv zeta in H. take_branches H. exact H.
Defined.

Lemma getUserProofs_lists_own_records_witness :
  Z.of_nat (length submit_once) < uint256_modulus /\
  NoDup (getUserProofs (example_run submit_once) 5).
Proof.
  assert (Hlen : Z.of_nat (length submit_once) < uint256_modulus)
    by (unfold uint256_modulus; simpl; lia).
  split; [exact Hlen|].
  exact (proj2 (proj2 (getUserProofs_lists_own_records example_hash
                         example_accepts 7 EmptyString submit_once 5 Hlen))).
Defined.

Lemma getEventProofs_lists_event_records_witness :
  Z.of_nat (length submit_once) < uint256_modulus /\
  NoDup (getEventProofs (example_run submit_once) "eth-summit").
Proof.
  assert (Hlen : Z.of_nat (length submit_once) < uint256_modulus)
    by (unfold uint256_modulus; simpl; lia).
  split; [exact Hlen|].
  exact (proj2 (proj2 (getEventProofs_lists_event_records example_hash
                         example_accepts 7 EmptyString submit_once
                         "eth-summit"%string Hlen))).
Defined.

Lemma getProof_returns_complete_record_witness :
  Z.of_nat (length submit_once) < uint256_modulus /\
  getTotalNFTs (example_run submit_once) = getTotalProofs (example_run submit_once).
Proof.
  assert (Hlen : Z.of_nat (length submit_once) < uint256_modulus)
    by (unfold uint256_modulus; simpl; lia).
  split; [exact Hlen|].
  exact (proj1 (getProof_returns_complete_record example_hash example_accepts
                  7 EmptyString submit_once Hlen)).
Defined.



(** *** Senders that call back *)

Definition example_run_calling (txs : list (Tx * list (Z * Call))) : State :=
  run_calling example_hash example_accepts 7 EmptyString txs.

(** The owner gives "eth-summit" an image, and no hook runs. *)
Definition image_set : list (Tx * list (Z * Call)) :=
  [(mkTx 7 90 (CallSetEventMetadata "eth-summit" "ETH Summit" "A meeting"
                 "ipfs://summit.json" "Paris" 1700000000), [])].

(** What a hook calls on receiving token 1: it sets another image for the
    event, sets record 1 to invalid, and gives the token to account 9. *)
Definition hook_of (recipient : Z) : list (Z * Call) :=
  [(recipient, CallSetEventMetadata "eth-summit" "ETH Summit" "A meeting"
                 "ipfs://late.json" "Paris" 1700000000);
   (recipient, CallValidateProof 1 false);
   (recipient, CallTransferFrom recipient 9 1)].

(** The storage after the owner, a contract with that hook, submitted
    ("eth-summit", proofA) at time 100. *)
Definition owner_called_back : State :=
  exec_calling example_hash example_accepts (example_run_calling image_set)
    (mkTx 7 100 (CallSubmitProof "eth-summit" proofA)) (hook_of 7).

(** The submission goes through; the token has the image that the hook
    set, the record is invalid and the token is not the sender's. *)
Example owner_hook_decides :
  submitProof_calling example_hash example_accepts
    (onERC721Received example_hash example_accepts 100 (hook_of 7))
    7 100 "eth-summit" proofA (example_run_calling image_set)
  = Ok (1, owner_called_back) /\
  imageUri (eventMetadata_at (example_run_calling image_set) "eth-summit")
  = "ipfs://summit.json"%string /\
  _tokenURIs owner_called_back !! 1 = Some "ipfs://late.json"%string /\
  hasValidProofForEvent example_hash owner_called_back 7 "eth-summit" = false /\
  _owners owner_called_back !! 1 = Some 9.
Proof. vm_compute. repeat split; reflexivity. Qed.

(** The same hook in account 5, which is not the owner: only the
    transfer goes through. *)
Definition stranger_called_back : State :=
  exec_calling example_hash example_accepts (example_run_calling image_set)
    (mkTx 5 100 (CallSubmitProof "eth-summit" proofA)) (hook_of 5).

Example stranger_hook_moves_the_token_only :
  _tokenURIs stranger_called_back !! 1 = Some "ipfs://summit.json"%string /\
  hasValidProofForEvent example_hash stranger_called_back 5 "eth-summit" = true /\
  _owners stranger_called_back !! 1 = Some 9.
Proof. vm_compute. repeat split; reflexivity. Qed.

Lemma tokenURI_fixed_at_mint_witness :
  Z.of_nat (length image_set) < uint256_modulus - 1 /\
  submitProof_calling example_hash example_accepts
    (onERC721Received example_hash example_accepts 100 (hook_of 7))
    7 100 "eth-summit" proofA (example_run_calling image_set)
  = Ok (1, owner_called_back) /\
  _tokenURIs owner_called_back !! 1 =
    (if 0 <? Z.of_nat (String.length
                (imageUri (eventMetadata_at owner_called_back "eth-summit")))
     then Some (imageUri (eventMetadata_at owner_called_back "eth-summit"))
     else None).
Proof.
  assert (Hlen : Z.of_nat (length image_set) < uint256_modulus - 1)
    by (unfold uint256_modulus; simpl; lia).
  assert (Hrun : submitProof_calling example_hash example_accepts
            (onERC721Received example_hash example_accepts 100 (hook_of 7))
            7 100 "eth-summit" proofA (example_run_calling image_set)
          = Ok (1, owner_called_back))
    by (vm_compute; reflexivity).
  split; [exact Hlen|]. split; [exact Hrun|].
  exact (proj1 (proj1 (tokenURI_fixed_at_mint example_hash example_accepts
                         7 EmptyString image_set Hlen)
                  7 100 "eth-summit"%string proofA (hook_of 7) 1
                  owner_called_back Hrun)).
Defined.

Lemma submitter_has_valid_proof_witness :
  Z.of_nat (length image_set) < uint256_modulus - 1 /\
  submitProof_calling example_hash example_accepts
    (onERC721Received example_hash example_accepts 100 (hook_of 5))
    5 100 "eth-summit" proofA (example_run_calling image_set)
  = Ok (1, stranger_called_back) /\
  Forall (fun c => fst c <> _owner (example_run_calling image_set))
    (hook_of 5) /\
  hasValidProofForEvent example_hash stranger_called_back 5 "eth-summit" = true.
Proof.
  assert (Hlen : Z.of_nat (length image_set) < uint256_modulus - 1)
    by (unfold uint256_modulus; simpl; lia).
  assert (Hrun : submitProof_calling example_hash example_accepts
            (onERC721Received example_hash example_accepts 100 (hook_of 5))
            5 100 "eth-summit" proofA (example_run_calling image_set)
          = Ok (1, stranger_called_back))
    by (vm_compute; reflexivity).
  assert (Hnot : Forall (fun c => fst c <> _owner (example_run_calling image_set))
                   (hook_of 5))
    by (repeat constructor; vm_compute; discriminate).
  split; [exact Hlen|]. split; [exact Hrun|]. split; [exact Hnot|].
  exact (proj1 (proj2 (proj2 (proj2 (proj2
           (submitter_has_valid_proof example_hash example_accepts
              7 EmptyString image_set 5 100 "eth-summit"%string proofA _ 1
              stranger_called_back Hlen Hrun)))))
           Hnot).
Defined.

Lemma validateProof_outcome_witness :
  Z.of_nat (length submit_once) < uint256_modulus /\
  validateProof example_accepts 7 2 true (example_run submit_once)
  = Revert InvalidProofId.
Proof.
  assert (Hlen : Z.of_nat (length submit_once) < uint256_modulus)
    by (unfold uint256_modulus; simpl; lia).
  split; [exact Hlen|].
  pose proof (validateProof_outcome example_hash example_accepts 7 EmptyString
                submit_once 7 2 true Hlen) as H.
  cbv zeta in H. take_branches H. exact H.
Defined.

(** The same bytes with the last letter of the event identifier moved
    into the proof data. *)
Lemma submitProof_rejects_regrouped_bytes_witness :
  Z.of_nat (length nobody) < uint256_modulus - 1 /\
  submitProof example_hash example_accepts 5 100 "eth-summi" (116 :: proofA)
    (example_run submit_once) = Revert ProofAlreadySubmitted.
Proof.
  assert (Hlen : Z.of_nat (length nobody) < uint256_modulus - 1)
    by (apply small_runs_fit; simpl; lia).
  split; [exact Hlen|].
  refine (submitProof_rejects_regrouped_bytes example_hash example_accepts
            7 EmptyString nobody 5 100 "eth-summit"%string proofA
            "eth-summi"%string (116 :: proofA) 1 (example_run submit_once)
            Hlen _ _ _ _).
  - vm_compute. reflexivity.
  - vm_compute. reflexivity.
  - discriminate.
  - discriminate.
Defined.

End Registry.

Module Tracker.

(** *** The status map of BlockchainManager *)

Inductive TxState := pending | confirmed | failed.

(** [interface TransactionStatus] *)
Record TransactionStatus := mkTransactionStatus {
  hash : string;
  status : TxState;
  confirmations : Z;
  gasUsed : option string;
  effectiveGasPrice : option string;
  blockNumber : option Z
}.

(** The static fields of the class that the tracker reads and writes:
    whether [provider] and [contract] are set, and the
    [pendingTransactions] map. *)
Record BlockchainManager := mkManager {
  provider : bool;
  contract : bool;
  pendingTransactions : gmap string TransactionStatus
}.

(** What the tracker looks at in a receipt and in an event of the log. *)
Record TransactionReceipt := mkReceipt {
  receipt_status : option Z;
  receipt_blockNumber : Z;
  receipt_gasUsed : Z;
  receipt_gasPrice : option Z
}.

Record EventLog := mkEventLog {
  transactionHash : string;
  args_tokenId : option Z
}.

(** [toString()] of a bigint. *)
Definition bigint_toString (n : Z) : string :=
  NilZero.string_of_int (Z.to_int n).

(** [receipt.status === 1] *)
Definition receipt_succeeded (r : TransactionReceipt) : bool :=
  match receipt_status r with
  | Some 1 => true
  | _ => false
  end.

(** The status object built from a receipt and the current block number. *)
Definition status_of_receipt (txHash : string) (r : TransactionReceipt)
    (currentBlock : Z) : TransactionStatus :=
  mkTransactionStatus txHash
    (if receipt_succeeded r then confirmed else failed)
    (currentBlock - receipt_blockNumber r + 1)
    (Some (bigint_toString (receipt_gasUsed r)))
    (option_map bigint_toString (receipt_gasPrice r))
    (Some (receipt_blockNumber r)).

(** The status object of the catch block. *)
Definition status_of_error (txHash : string) : TransactionStatus :=
  mkTransactionStatus txHash failed 0 None None None.

(** The status object [submitProofToBlockchain] stores for a transaction
    it has just sent. *)
Definition status_of_submission (txHash : string) : TransactionStatus :=
  mkTransactionStatus txHash pending 0 None None None.

(** *** Awaited calls and exceptions *)

(** How an awaited promise settles. *)
Inductive Settled (A : Type) :=
| Rejected
| Fulfilled (a : A).
Arguments Rejected {A}.
Arguments Fulfilled {A} a.

Inductive outcome (A : Type) :=
| Returned (a : A)
| Thrown.
Arguments Returned {A} a.
Arguments Thrown {A}.

(** Code that reads and writes the status map and may throw; what it wrote
    before throwing stays written. *)
Definition Async (A : Type) : Type :=
  gmap string TransactionStatus -> gmap string TransactionStatus * outcome A.

Definition ret {A} (a : A) : Async A := fun c => (c, Returned a).

Definition bind {A B} (m : Async A) (k : A -> Async B) : Async B :=
  fun c => match m c with
           | (c', Returned a) => k a c'
           | (c', Thrown) => (c', Thrown)
           end.

Notation "x <- m ; k" := (bind m (fun x => k))
  (at level 20, m at level 100, k at level 200, only parsing).
Notation "m >> k" := (bind m (fun _ => k))
  (at level 100, k at level 200, only parsing, right associativity).

Definition await {A} (p : Settled A) : Async A :=
  fun c => match p with
           | Fulfilled a => (c, Returned a)
           | Rejected => (c, Thrown)
           end.

Definition map_set (txHash : string) (st : TransactionStatus) : Async unit :=
  fun c => (<[txHash := st]> c, Returned tt).

Definition try_catch (body handler : Async unit) : Async unit :=
  fun c => match body c with
           | (c', Returned a) => (c', Returned a)
           | (c', Thrown) => handler c'
           end.

(** *** monitorTransaction, awaited to its end *)

(** What the provider and the contract answer during one call:
    [getTransaction] (a transaction or null), [tx.wait()] (a receipt or
    null), [getBlockNumber] and [contract.queryFilter]. *)
Record Poll := mkPoll {
  getTransaction : Settled bool;
  wait : Settled (option TransactionReceipt);
  getBlockNumber : Settled Z;
  queryFilter : Settled (list EventLog)
}.

(** The try block.  The loop over the events writes to the console only. *)
Definition monitor_try (m : BlockchainManager) (txHash : string) (p : Poll)
    : Async unit :=
  if negb (provider m) then ret tt else
  tx <- await (getTransaction p);
  if negb tx then ret tt else
  (* Wait for confirmation *)
  receipt <- await (wait p);
  match receipt with
  | None => ret tt
  | Some receipt =>
      currentBlock <- await (getBlockNumber p);
      map_set txHash (status_of_receipt txHash receipt currentBlock) >>
      if receipt_succeeded receipt then
        (* Parse events for NFT minting *)
        if contract m then
          events <- await (queryFilter p);
          ret tt
        else ret tt
      else ret tt
  end.

(** The catch block. *)
Definition monitor_catch (txHash : string) : Async unit :=
  map_set txHash (status_of_error txHash).

Definition monitorTransaction (m : BlockchainManager) (txHash : string)
    (p : Poll) : BlockchainManager :=
  mkManager (provider m) (contract m)
    (fst (try_catch (monitor_try m txHash p) (monitor_catch txHash)
            (pendingTransactions m))).

Definition getTransactionStatus (m : BlockchainManager) (txHash : string)
    : option TransactionStatus :=
  pendingTransactions m !! txHash.

Definition clearTransactionHistory (m : BlockchainManager) : BlockchainManager :=
  mkManager (provider m) (contract m) ∅.

(** Calls of [monitorTransaction] one after the other, each awaited. *)
Definition monitor_all (m : BlockchainManager) (calls : list (string * Poll))
    : BlockchainManager :=
  fold_left (fun m c => monitorTransaction m (fst c) (snd c)) calls m.

Definition is_terminal (st : TransactionStatus) : bool :=
  match status st with
  | pending => false
  | confirmed | failed => true
  end.

(** *** What one call does to the map *)

Ltac run_async :=
  unfold monitorTransaction, try_catch, monitor_try, monitor_catch, bind,
    await, map_set, ret in *;
  simpl in *.

(** A call leaves the map as it was, or puts at its own key the status of
    the receipt or the status of the catch block. *)
Lemma monitorTransaction_cases m txHash p :
  pendingTransactions (monitorTransaction m txHash p) = pendingTransactions m \/
  pendingTransactions (monitorTransaction m txHash p)
    = <[txHash := status_of_error txHash]> (pendingTransactions m) \/
  exists r n,
    pendingTransactions (monitorTransaction m txHash p)
      = <[txHash := status_of_receipt txHash r n]> (pendingTransactions m).
Proof.
  run_async.
  destruct (provider m); simpl; [|auto].
  destruct (getTransaction p) as [|[|]]; simpl; auto.
  destruct (wait p) as [|[r|]]; simpl; auto.
  destruct (getBlockNumber p) as [|n]; simpl; auto.
  destruct (receipt_succeeded r); simpl; [|right; right; eauto].
  destruct (contract m); simpl; [|right; right; eauto].
  destruct (queryFilter p); simpl; [|right; right; eauto].
  right. left. apply insert_insert_eq.
Qed.

Lemma is_terminal_status_of_error txHash :
  is_terminal (status_of_error txHash) = true.
Proof. reflexivity. Qed.

Lemma is_terminal_status_of_receipt txHash r n :
  is_terminal (status_of_receipt txHash r n) = true.
Proof. unfold is_terminal. simpl. destruct (receipt_succeeded r); reflexivity. Qed.

(** One call: a status that is terminal before is terminal after, and a
    status that is pending after is the one of before. *)
Lemma monitorTransaction_terminal m txHash p h st :
  getTransactionStatus m h = Some st -> is_terminal st = true ->
  exists st', getTransactionStatus (monitorTransaction m txHash p) h = Some st'
              /\ is_terminal st' = true.
Proof.
  unfold getTransactionStatus. intros Hst Hterm.
  destruct (monitorTransaction_cases m txHash p) as [E|[E|(r & n & E)]];
    rewrite E.
  - eauto.
  - rewrite lookup_insert. destruct (decide (txHash = h)); eauto.
  - rewrite lookup_insert. destruct (decide (txHash = h)); [|eauto].
    eexists. split; [reflexivity | apply is_terminal_status_of_receipt].
Qed.

Lemma monitorTransaction_pending m txHash p h st' :
  getTransactionStatus (monitorTransaction m txHash p) h = Some st' ->
  is_terminal st' = false ->
  getTransactionStatus m h = Some st'.
Proof.
  unfold getTransactionStatus.
  destruct (monitorTransaction_cases m txHash p) as [E|[E|(r & n & E)]];
    rewrite E; [auto| |]; rewrite lookup_insert;
    destruct (decide (txHash = h)); auto; intros [= <-] Hp.
  - discriminate.
  - rewrite is_terminal_status_of_receipt in Hp. discriminate.
Qed.

(** C4, as the code has it — what later calls may do to a status.  For
    every status map, every sequence of awaited calls of
    [monitorTransaction] and every transaction hash: a status that was
    confirmed or failed before the calls is confirmed or failed after them
    (it is never pending again and never goes away); and a status that is
    pending after the calls is the very status of before, so that its
    confirmations have not changed. *)
Theorem terminal_never_pending_again m calls h :
  let m' := monitor_all m calls in
  (forall st, getTransactionStatus m h = Some st -> is_terminal st = true ->
     exists st', getTransactionStatus m' h = Some st' /\ is_terminal st' = true) /\
  (forall st', getTransactionStatus m' h = Some st' -> is_terminal st' = false ->
     getTransactionStatus m h = Some st').
Proof.
  revert m. induction calls as [|[txHash p] calls IH]; intros m; simpl.
  - split; [eauto | auto].
  - destruct (IH (monitorTransaction m txHash p)) as [IHa IHb]. split.
    + intros st Hst Hterm.
      destruct (monitorTransaction_terminal m txHash p h st Hst Hterm)
        as (st1 & Hst1 & Hterm1).
      exact (IHa st1 Hst1 Hterm1).
    + intros st' Hst' Hpend.
      eapply monitorTransaction_pending; [|exact Hpend].
      exact (IHb st' Hst' Hpend).
Qed.

(** *** Errors of the poll *)


(** *** The status of a receipt *)

(** When the receipt and the block number arrive and the event query that
    follows a success does not reject, the stored status has
    [currentBlock - receipt.blockNumber + 1] confirmations and is
    confirmed for a receipt status of 1, failed otherwise. *)
Lemma receipt_status_stored m txHash p r n :
  provider m = true -> getTransaction p = Fulfilled true ->
  wait p = Fulfilled (Some r) -> getBlockNumber p = Fulfilled n ->
  receipt_succeeded r && contract m = false \/ queryFilter p <> Rejected ->
  exists st,
    getTransactionStatus (monitorTransaction m txHash p) txHash = Some st /\
    confirmations st = n - receipt_blockNumber r + 1 /\
    status st = (if receipt_succeeded r then confirmed else failed).
Proof.
  intros Hprov Htx Hwait Hblock Hquery.
  exists (status_of_receipt txHash r n). split; [|split; reflexivity].
  unfold getTransactionStatus. run_async.
  rewrite Hprov, Htx, Hwait, Hblock. simpl.
  destruct (receipt_succeeded r); simpl; [|apply lookup_insert_eq].
  destruct (contract m); simpl; [|apply lookup_insert_eq].
  destruct Hquery as [Hf|Hq]; [discriminate|].
  destruct (queryFilter p); [contradiction|]. simpl. apply lookup_insert_eq.
Qed.

(** *** clearTransactionHistory *)

(** C10 — after [clearTransactionHistory], [getTransactionStatus] gives
    null for every transaction hash, whatever status the map held for it
    before. *)
Theorem clearTransactionHistory_forgets_all m txHash :
  getTransactionStatus (clearTransactionHistory m) txHash = None.
Proof. unfold getTransactionStatus, clearTransactionHistory. simpl. apply lookup_empty. Qed.

(** *** monitorTransaction as a task that is suspended at each await *)

(** The awaits of [monitorTransaction], in the order it reaches them. *)
Inductive AwaitPoint :=
| AtGetTransaction
| AtWait
| AtGetBlockNumber (receipt : TransactionReceipt)
| AtQueryFilter.

(** A call of [monitorTransaction] that has not returned yet. *)
Record Task := mkTask {
  task_txHash : string;
  task_at : AwaitPoint
}.

(** How the promise a task waits for settles. *)
Inductive Answer :=
| Rejects
| Transaction (found : bool)
| Receipt (receipt : option TransactionReceipt)
| BlockNumber (n : Z)
| Events (events : list EventLog).

(** The task runs from the await it is suspended at to its next await or
    to its end: the map it leaves and, if it is suspended again, where.
    An answer of the wrong kind for the await gives [None]. *)
Definition resume (contractSet : bool) (t : Task) (a : Answer)
    (cache : gmap string TransactionStatus)
    : option (gmap string TransactionStatus * option Task) :=
  let txHash := task_txHash t in
  match task_at t, a with
  | _, Rejects => Some (<[txHash := status_of_error txHash]> cache, None)
  | AtGetTransaction, Transaction found =>
      Some (cache, if found then Some (mkTask txHash AtWait) else None)
  | AtWait, Receipt None => Some (cache, None)
  | AtWait, Receipt (Some receipt) =>
      Some (cache, Some (mkTask txHash (AtGetBlockNumber receipt)))
  | AtGetBlockNumber receipt, BlockNumber n =>
      Some (<[txHash := status_of_receipt txHash receipt n]> cache,
            if receipt_succeeded receipt && contractSet
            then Some (mkTask txHash AtQueryFilter) else None)
  | AtQueryFilter, Events _ => Some (cache, None)
  | _, _ => None
  end.

(** The class together with the calls of [monitorTransaction] in flight. *)
Record System := mkSystem {
  manager : BlockchainManager;
  active : list Task
}.

Inductive Action :=
| Invoke (txHash : string)       (* monitorTransaction(txHash) is called *)
| Settle (i : nat) (a : Answer)  (* the promise of the i-th task settles *)
| Submitted (txHash : string)    (* submitProofToBlockchain got tx.hash *)
| ClearHistory.                  (* clearTransactionHistory() *)

(** A call runs up to its first await: with a provider it is suspended at
    [getTransaction], without one it has returned already. *)
Definition invoke (txHash : string) (s : System) : System :=
  if provider (manager s)
  then mkSystem (manager s) (active s ++ [mkTask txHash AtGetTransaction])
  else s.

Definition with_cache (c : gmap string TransactionStatus)
    (m : BlockchainManager) : BlockchainManager :=
  mkManager (provider m) (contract m) c.

Definition settle (i : nat) (a : Answer) (s : System) : System :=
  match active s !! i with
  | None => s
  | Some t =>
      match resume (contract (manager s)) t a
              (pendingTransactions (manager s)) with
      | None => s
      | Some (cache, Some t') =>
          mkSystem (with_cache cache (manager s)) (<[i := t']> (active s))
      | Some (cache, None) =>
          mkSystem (with_cache cache (manager s)) (delete i (active s))
      end
  end.

Definition step (s : System) (a : Action) : System :=
  match a with
  | Invoke txHash => invoke txHash s
  | Settle i ans => settle i ans s
  | Submitted txHash =>
      (* this.pendingTransactions.set(tx.hash, status);
         this.monitorTransaction(tx.hash); *)
      invoke txHash
        (mkSystem (with_cache (<[txHash := status_of_submission txHash]>
                                 (pendingTransactions (manager s)))
                     (manager s))
           (active s))
  | ClearHistory => mkSystem (clearTransactionHistory (manager s)) (active s)
  end.

Definition steps (s : System) (acts : list Action) : System :=
  fold_left step acts s.

(** The number of calls in flight for a transaction hash. *)
Definition active_polls (txHash : string) (s : System) : nat :=
  length (filter (fun t => task_txHash t = txHash) (active s)).

(** The answer a [Poll] holds for the await a task is suspended at. *)
Definition answer_of (p : Poll) (t : Task) : Answer :=
  match task_at t with
  | AtGetTransaction =>
      match getTransaction p with
      | Rejected => Rejects | Fulfilled found => Transaction found end
  | AtWait =>
      match wait p with
      | Rejected => Rejects | Fulfilled r => Receipt r end
  | AtGetBlockNumber _ =>
      match getBlockNumber p with
      | Rejected => Rejects | Fulfilled n => BlockNumber n end
  | AtQueryFilter =>
      match queryFilter p with
      | Rejected => Rejects | Fulfilled l => Events l end
  end.

(** A task resumed with the answers of [p] until it ends; four awaits is
    all a call has. *)
Fixpoint run_alone (awaits : nat) (contractSet : bool) (p : Poll) (t : Task)
    (cache : gmap string TransactionStatus) : gmap string TransactionStatus :=
  match awaits with
  | O => cache
  | S k =>
      match resume contractSet t (answer_of p t) cache with
      | Some (cache', Some t') => run_alone k contractSet p t' cache'
      | Some (cache', None) => cache'
      | None => cache
      end
  end.

(** A call that no other call interleaves with does what
    [monitorTransaction] does. *)
Lemma run_alone_monitorTransaction m txHash p :
  provider m = true ->
  run_alone 4 (contract m) p (mkTask txHash AtGetTransaction)
    (pendingTransactions m)
  = pendingTransactions (monitorTransaction m txHash p).
Proof.
  intros Hprov. run_async. rewrite Hprov. simpl. unfold answer_of. simpl.
  destruct (getTransaction p) as [|[|]]; simpl; try reflexivity.
  destruct (wait p) as [|[r|]]; simpl; try reflexivity.
  destruct (getBlockNumber p) as [|n]; simpl; try reflexivity.
  destruct (receipt_succeeded r); simpl; try reflexivity.
  destruct (contract m); simpl; try reflexivity.
  destruct (queryFilter p); simpl; reflexivity.
Qed.

(** The same holds when calls interleave.  A task that is resumed leaves
    the map as it was or stores a terminal status at its own hash. *)
Lemma resume_cases contractSet t a cache cache' next :
  resume contractSet t a cache = Some (cache', next) ->
  cache' = cache \/
  exists st, is_terminal st = true /\ cache' = <[task_txHash t := st]> cache.
Proof.
  unfold resume.
  destruct (task_at t) as [| |r|], a as [|found|[r'|]|n|l];
    intros [= <- _]; auto; right; eexists;
    (split; [|reflexivity]);
    auto using is_terminal_status_of_error, is_terminal_status_of_receipt.
Qed.

Definition is_monitor_action (a : Action) : bool :=
  match a with
  | Invoke _ | Settle _ _ => true
  | Submitted _ | ClearHistory => false
  end.

Lemma step_cache_cases s a :
  is_monitor_action a = true ->
  pendingTransactions (manager (step s a)) = pendingTransactions (manager s) \/
  exists txHash st, is_terminal st = true /\
    pendingTransactions (manager (step s a))
      = <[txHash := st]> (pendingTransactions (manager s)).
Proof.
  destruct a as [txHash|i ans|txHash|]; try discriminate; intros _; simpl.
  - unfold invoke. destruct (provider (manager s)); auto.
  - unfold settle. destruct (active s !! i) as [t|]; [|auto].
    destruct (resume _ t ans _) as [[cache' next]|] eqn:Hres; [|auto].
    apply resume_cases in Hres.
    destruct next; simpl; destruct Hres as [->|(st & Hterm & ->)]; eauto.
Qed.

Lemma interleaved_calls_keep_terminal s acts h st :
  forallb is_monitor_action acts = true ->
  getTransactionStatus (manager s) h = Some st -> is_terminal st = true ->
  exists st', getTransactionStatus (manager (steps s acts)) h = Some st' /\
              is_terminal st' = true.
Proof.
  revert s st. induction acts as [|a acts IH]; intros s st Hall Hst Hterm;
    simpl in *; [eauto|].
  apply andb_true_iff in Hall as [Ha Hall].
  unfold getTransactionStatus in *.
  destruct (step_cache_cases s a Ha) as [E|(txHash & st1 & Hterm1 & E)].
  - apply (IH (step s a) st Hall); [rewrite E; exact Hst | exact Hterm].
  - destruct (decide (txHash = h)) as [->|Hne].
    + apply (IH (step s a) st1 Hall); [|exact Hterm1].
      rewrite E. apply lookup_insert_eq.
    + apply (IH (step s a) st Hall); [|exact Hterm].
      rewrite E, lookup_insert_ne by exact Hne. exact Hst.
Qed.

(** C8, as the code has it — calls do not share a poll.  Every call of
    [monitorTransaction] made while a provider is set starts a poll of its
    own, whether or not one is in flight for the same hash: the number of
    calls in flight for that hash goes up by one, and the other hashes
    keep theirs.  Without a provider the call returns at once and nothing
    changes. *)
Theorem every_call_starts_its_own_poll s txHash :
  (provider (manager s) = true ->
   active_polls txHash (step s (Invoke txHash))
     = S (active_polls txHash s) /\
   forall other, other <> txHash ->
     active_polls other (step s (Invoke txHash)) = active_polls other s) /\
  (provider (manager s) = false -> step s (Invoke txHash) = s).
Proof.
  unfold step, invoke, active_polls. split.
  - intros ->. simpl. split.
    + rewrite filter_app, length_app, filter_cons, filter_nil. simpl.
      rewrite decide_True by reflexivity. simpl. lia.
    + intros other Hne.
      rewrite filter_app, length_app, filter_cons, filter_nil. simpl.
      rewrite decide_False by congruence. simpl. lia.
  - intros ->. reflexivity.
Qed.

(** *** Worked examples *)

Definition tx1 : string := "0xabc".

(** Provider and contract are set and [submitProofToBlockchain] has
    stored the pending status of [tx1]. *)
Definition submitted : BlockchainManager :=
  mkManager true true {[ tx1 := status_of_submission tx1 ]}.

(** A receipt of block 10 with status 1. *)
Definition receipt_success : TransactionReceipt :=
  mkReceipt (Some 1) 10 21000 (Some 1).

Definition poll_included (currentBlock : Z) : Poll :=
  mkPoll (Fulfilled true) (Fulfilled (Some receipt_success))
    (Fulfilled currentBlock) (Fulfilled []).

(** The node cannot be reached: [getTransaction] rejects. *)
Definition poll_unreachable : Poll :=
  mkPoll Rejected Rejected Rejected Rejected.


(** The receipt and the block number arrive, the event query rejects. *)
Definition poll_events_reject (currentBlock : Z) : Poll :=
  mkPoll (Fulfilled true) (Fulfilled (Some receipt_success))
    (Fulfilled currentBlock) Rejected.

Definition confirmed_at_10 : BlockchainManager :=
  monitorTransaction submitted tx1 (poll_included 10).

Example confirmed_at_10_status :
  getTransactionStatus confirmed_at_10 tx1
  = Some (mkTransactionStatus tx1 confirmed 1 (Some "21000"%string)
            (Some "1"%string) (Some 10)).
Proof. vm_compute. reflexivity. Qed.

(** C4 as stated fails: [tx1] is confirmed with 1 confirmation; a later
    call during which the node cannot be reached makes it failed with 0
    confirmations, and a later call at block 15 makes its confirmations
    6. *)
Lemma terminal_status_is_overwritten :
  option_map status (getTransactionStatus confirmed_at_10 tx1) = Some confirmed /\
  option_map confirmations (getTransactionStatus confirmed_at_10 tx1) = Some 1 /\
  getTransactionStatus (monitorTransaction confirmed_at_10 tx1 poll_unreachable) tx1
    = Some (mkTransactionStatus tx1 failed 0 None None None) /\
  option_map confirmations
    (getTransactionStatus
       (monitorTransaction confirmed_at_10 tx1 (poll_included 15)) tx1) = Some 6.
Proof. vm_compute. repeat split; reflexivity. Qed.

Lemma terminal_never_pending_again_witness :
  exists st',
    getTransactionStatus
      (monitor_all confirmed_at_10
         [(tx1, poll_unreachable); (tx1, poll_included 15)]) tx1 = Some st' /\
    is_terminal st' = true.
Proof.
  refine (proj1 (terminal_never_pending_again confirmed_at_10
                   [(tx1, poll_unreachable); (tx1, poll_included 15)] tx1)
            (mkTransactionStatus tx1 confirmed 1 (Some "21000"%string)
               (Some "1"%string) (Some 10)) _ _).
  - vm_compute. reflexivity.
  - reflexivity.
Defined.



(** C6 — where the code leaves the claim.  The receipt of [tx1] has
    status 1 and block 10 and the current block is 12, so the status is
    stored as confirmed with 12 - 10 + 1 = 3 confirmations; the event
    query that follows rejects, and the catch block replaces that status
    by failed with 0 confirmations.  Seen await by await: the map holds
    the confirmed status once the block number has arrived, and the
    failed one once the query has rejected. *)
Theorem confirmed_status_lost_when_event_query_rejects :
  getTransactionStatus
    (monitorTransaction submitted tx1 (poll_events_reject 12)) tx1
  = Some (mkTransactionStatus tx1 failed 0 None None None) /\
  (let arrived :=
     steps (mkSystem (mkManager true true ∅) [])
       [Submitted tx1; Settle 0 (Transaction true);
        Settle 0 (Receipt (Some receipt_success)); Settle 0 (BlockNumber 12)] in
   option_map status (getTransactionStatus (manager arrived) tx1) = Some confirmed /\
   option_map confirmations (getTransactionStatus (manager arrived) tx1) = Some 3 /\
   getTransactionStatus (manager (step arrived (Settle 0 Rejects))) tx1
   = Some (mkTransactionStatus tx1 failed 0 None None None)).
Proof. vm_compute. repeat split; reflexivity. Qed.

(** C8 as stated fails: [submitProofToBlockchain] starts a call for [tx1],
    a refresh calls [monitorTransaction] for [tx1] while the first call is
    still waiting, and two calls are in flight for that hash. *)
Lemma two_polls_for_one_hash :
  active_polls tx1
    (steps (mkSystem (mkManager true true ∅) []) [Submitted tx1; Invoke tx1])
  = 2%nat.
Proof. vm_compute. reflexivity. Qed.

Lemma every_call_starts_its_own_poll_witness :
  let s := steps (mkSystem (mkManager true true ∅) []) [Submitted tx1] in
  provider (manager s) = true /\
  active_polls tx1 (step s (Invoke tx1)) = S (active_polls tx1 s).
Proof.
  intros s. split; [reflexivity|].
  apply (proj1 (every_call_starts_its_own_poll s tx1)). reflexivity.
Defined.

(** *** What a call leaves alone *)

(** X11 — a call writes under its own hash only.  [monitorTransaction]
    for one transaction hash leaves the status of every other hash, and
    the provider and the contract, as they were; and so does every step of
    a call in flight. *)
Theorem monitorTransaction_touches_only_its_hash m txHash p :
  provider (monitorTransaction m txHash p) = provider m /\
  contract (monitorTransaction m txHash p) = contract m /\
  (forall other, other <> txHash ->
     getTransactionStatus (monitorTransaction m txHash p) other
     = getTransactionStatus m other) /\
  (forall s i ans t other,
     active s !! i = Some t -> other <> task_txHash t ->
     getTransactionStatus (manager (step s (Settle i ans))) other
     = getTransactionStatus (manager s) other).
Proof.
  split; [reflexivity|]. split; [reflexivity|]. split.
  - intros other Hne. unfold getTransactionStatus.
    destruct (monitorTransaction_cases m txHash p) as [E|[E|(r & n & E)]];
      rewrite E; [reflexivity| |]; apply lookup_insert_ne; congruence.
  - intros s i ans t other Ht Hne. unfold getTransactionStatus. simpl.
    unfold settle. rewrite Ht.
    destruct (resume _ t ans _) as [[cache' next]|] eqn:Hres; [|reflexivity].
    apply resume_cases in Hres.
    assert (Hc : cache' !! other = pendingTransactions (manager s) !! other).
    { destruct Hres as [->|(st & _ & ->)]; [reflexivity|].
      apply lookup_insert_ne. congruence. }
    destruct next; exact Hc.
Qed.

(** *** The statuses that can be stored *)

(** What every stored status looks like: it carries the hash it is stored
    under; a pending one has 0 confirmations, no gas and no block; a
    confirmed one has a block and the gas used; one without a block has 0
    confirmations. *)
Definition well_formed_status (txHash : string) (st : TransactionStatus) : Prop :=
  hash st = txHash /\
  (status st = pending ->
   confirmations st = 0 /\ gasUsed st = None /\ blockNumber st = None) /\
  (status st = confirmed -> blockNumber st <> None /\ gasUsed st <> None) /\
  (blockNumber st = None -> confirmations st = 0).

Definition well_formed_cache (c : gmap string TransactionStatus) : Prop :=
  forall txHash st, c !! txHash = Some st -> well_formed_status txHash st.

Lemma well_formed_insert c txHash st :
  well_formed_cache c -> well_formed_status txHash st ->
  well_formed_cache (<[txHash := st]> c).
Proof.
  intros Hc Hst h st' Hl. rewrite lookup_insert in Hl.
  destruct (decide (txHash = h)) as [<-|]; [|eauto].
  injection Hl as <-. exact Hst.
Qed.

Lemma well_formed_status_of_error txHash :
  well_formed_status txHash (status_of_error txHash).
Proof. unfold well_formed_status. simpl. repeat split; auto; discriminate. Qed.

Lemma well_formed_status_of_submission txHash :
  well_formed_status txHash (status_of_submission txHash).
Proof. unfold well_formed_status. simpl. repeat split; auto; discriminate. Qed.

Lemma well_formed_status_of_receipt txHash r n :
  well_formed_status txHash (status_of_receipt txHash r n).
Proof.
  unfold well_formed_status. simpl.
  destruct (receipt_succeeded r); repeat split; intros; try discriminate; auto.
Qed.

Lemma well_formed_step s a :
  well_formed_cache (pendingTransactions (manager s)) ->
  well_formed_cache (pendingTransactions (manager (step s a))).
Proof.
  intros Hc. destruct a as [txHash|i ans|txHash|]; simpl.
  - unfold invoke. destruct (provider (manager s)); exact Hc.
  - unfold settle. destruct (active s !! i) as [t|]; [|exact Hc].
    destruct (resume _ t ans _) as [[cache' next]|] eqn:Hres; [|exact Hc].
    assert (Hc' : well_formed_cache cache').
    { unfold resume in Hres.
      destruct (task_at t) as [| |r|], ans as [|found|[r'|]|n|l];
        try discriminate; injection Hres as <- _; try exact Hc;
        apply well_formed_insert; auto using well_formed_status_of_error,
          well_formed_status_of_receipt. }
    destruct next; exact Hc'.
  - unfold invoke. simpl.
    assert (Hc' : well_formed_cache
                    (<[txHash := status_of_submission txHash]>
                       (pendingTransactions (manager s))))
      by (apply well_formed_insert; auto using well_formed_status_of_submission).
    destruct (provider (manager s)); exact Hc'.
  - intros h st Hl. simpl in Hl. rewrite lookup_empty in Hl. discriminate.
Qed.

(** X12 — the statuses that can be stored.  Starting with an empty map,
    whatever submissions, calls of [monitorTransaction], settlements of
    their promises and clearings follow, every status that
    [getTransactionStatus] returns for a hash carries that hash; if it is
    pending it has 0 confirmations and neither gas nor block; if it is
    confirmed it has a block number and the gas used; and if it has no
    block number its confirmations are 0. *)
Theorem stored_statuses_are_well_formed providerSet contractSet acts txHash st :
  getTransactionStatus
    (manager (steps (mkSystem (mkManager providerSet contractSet ∅) []) acts))
    txHash = Some st ->
  hash st = txHash /\
  (status st = pending ->
   confirmations st = 0 /\ gasUsed st = None /\ blockNumber st = None) /\
  (status st = confirmed -> blockNumber st <> None /\ gasUsed st <> None) /\
  (blockNumber st = None -> confirmations st = 0).
Proof.
  assert (Hgen : forall s, well_formed_cache (pendingTransactions (manager s)) ->
            well_formed_cache (pendingTransactions (manager (steps s acts)))).
  { induction acts as [|a acts IH]; intros s Hs; simpl; [exact Hs|].
    apply IH, well_formed_step, Hs. }
  intros Hl. apply (Hgen (mkSystem (mkManager providerSet contractSet ∅) [])).
  - intros h st' Hl'. simpl in Hl'. rewrite lookup_empty in Hl'. discriminate.
  - exact Hl.
Qed.

Lemma monitorTransaction_touches_only_its_hash_witness :
  active (steps (mkSystem (mkManager true true ∅) []) [Submitted tx1]) !! 0%nat
    = Some (mkTask tx1 AtGetTransaction) /\
  "0xdef"%string <> task_txHash (mkTask tx1 AtGetTransaction) /\
  getTransactionStatus
    (manager (step (steps (mkSystem (mkManager true true ∅) []) [Submitted tx1])
                (Settle 0 Rejects))) "0xdef"
  = getTransactionStatus
      (manager (steps (mkSystem (mkManager true true ∅) []) [Submitted tx1]))
      "0xdef".
Proof.
  assert (Ht : active (steps (mkSystem (mkManager true true ∅) [])
                         [Submitted tx1]) !! 0%nat
               = Some (mkTask tx1 AtGetTransaction)) by reflexivity.
  assert (Hne : "0xdef"%string <> task_txHash (mkTask tx1 AtGetTransaction))
    by discriminate.
  split; [exact Ht|]. split; [exact Hne|].
  exact (proj2 (proj2 (proj2 (monitorTransaction_touches_only_its_hash
                                submitted tx1 poll_unreachable)))
           _ 0%nat Rejects _ _ Ht Hne).
Defined.

Lemma stored_statuses_are_well_formed_witness :
  getTransactionStatus
    (manager (steps (mkSystem (mkManager true true ∅) [])
                [Submitted tx1; Settle 0 (Transaction true);
                 Settle 0 (Receipt (Some receipt_success));
                 Settle 0 (BlockNumber 12)])) tx1
  = Some (status_of_receipt tx1 receipt_success 12) /\
  hash (status_of_receipt tx1 receipt_success 12) = tx1.
Proof.
  assert (Hl : getTransactionStatus
                 (manager (steps (mkSystem (mkManager true true ∅) [])
                             [Submitted tx1; Settle 0 (Transaction true);
                              Settle 0 (Receipt (Some receipt_success));
                              Settle 0 (BlockNumber 12)])) tx1
               = Some (status_of_receipt tx1 receipt_success 12))
    by (vm_compute; reflexivity).
  split; [exact Hl|].
  exact (proj1 (stored_statuses_are_well_formed true true _ tx1 _ Hl)).
Defined.

(** *** The map with its insertion order *)

(** A JavaScript [Map] iterates its entries in the order in which their
    keys were first set; [getAllPendingTransactions] depends on that
    order, so here the map is the list of its entries, each key once. *)
Definition OrderedMap : Type := list (string * TransactionStatus).

(** [Map.prototype.set]: an existing key keeps its place and takes the new
    value, a new key goes to the end. *)
Fixpoint ordered_set (txHash : string) (st : TransactionStatus)
    (m : OrderedMap) : OrderedMap :=
  match m with
  | [] => [(txHash, st)]
  | (k, v) :: rest =>
      if String.eqb k txHash then (k, st) :: rest
      else (k, v) :: ordered_set txHash st rest
  end.

Fixpoint ordered_get (txHash : string) (m : OrderedMap)
    : option TransactionStatus :=
  match m with
  | [] => None
  | (k, v) :: rest =>
      if String.eqb k txHash then Some v else ordered_get txHash rest
  end.

Definition is_pending (st : TransactionStatus) : bool :=
  match status st with
  | pending => true
  | confirmed | failed => false
  end.

(** [Array.from(this.pendingTransactions.values())
       .filter(tx => tx.status === 'pending')] *)
Definition getAllPendingTransactions (m : OrderedMap) : list TransactionStatus :=
  List.filter is_pending (map snd m).

(** The map without its order, as the rest of the tracker sees it. *)
Definition contents (m : OrderedMap) : gmap string TransactionStatus :=
  list_to_map m.

Lemma contents_ordered_set txHash st m :
  contents (ordered_set txHash st m) = <[txHash := st]> (contents m).
Proof.
  unfold contents. induction m as [|[k v] rest IH]; simpl; [reflexivity|].
  destruct (String.eqb k txHash) eqn:Hk.
  - apply String.eqb_eq in Hk. subst k. simpl.
    symmetry. apply insert_insert_eq.
  - apply String.eqb_neq in Hk. simpl. rewrite IH.
    apply insert_insert_ne. exact Hk.
Qed.

Lemma ordered_get_contents txHash m :
  ordered_get txHash m = contents m !! txHash.
Proof.
  unfold contents. induction m as [|[k v] rest IH]; simpl; [reflexivity|].
  destruct (String.eqb k txHash) eqn:Hk.
  - apply String.eqb_eq in Hk. subst k. symmetry. apply lookup_insert_eq.
  - apply String.eqb_neq in Hk. rewrite lookup_insert_ne by exact Hk. exact IH.
Qed.

Lemma ordered_set_keys txHash st m :
  map fst (ordered_set txHash st m) =
  match ordered_get txHash m with
  | Some _ => map fst m
  | None => map fst m ++ [txHash]
  end.
Proof.
  induction m as [|[k v] rest IH]; simpl; [reflexivity|].
  destruct (String.eqb k txHash) eqn:Hk; simpl; [reflexivity|].
  rewrite IH. destruct (ordered_get txHash rest); reflexivity.
Qed.

Lemma ordered_get_None_keys txHash m :
  ordered_get txHash m = None -> txHash ∉ map fst m.
Proof.
  induction m as [|[k v] rest IH]; simpl; intros Hg Hin.
  - inversion Hin.
  - destruct (String.eqb k txHash) eqn:Hk; [discriminate|].
    apply String.eqb_neq in Hk. apply elem_of_cons in Hin as [->|Hin];
      [contradiction | exact (IH Hg Hin)].
Qed.

Lemma ordered_set_NoDup txHash st m :
  NoDup (map fst m) -> NoDup (map fst (ordered_set txHash st m)).
Proof.
  intros Hnd. rewrite ordered_set_keys.
  destruct (ordered_get txHash m) eqn:Hg; [exact Hnd|].
  apply NoDup_app. split; [exact Hnd|]. split.
  - intros k Hin Hk. apply list_elem_of_singleton in Hk. subst k.
    exact (ordered_get_None_keys _ _ Hg Hin).
  - apply NoDup_singleton.
Qed.

Lemma elem_of_contents m txHash st :
  NoDup (map fst m) -> (txHash, st) ∈ m <-> contents m !! txHash = Some st.
Proof. intros Hnd. unfold contents. apply elem_of_list_to_map. exact Hnd. Qed.

Lemma filter_other_keys txHash (m : OrderedMap) :
  txHash ∉ map fst m ->
  List.filter (fun e => negb (String.eqb (fst e) txHash)) m = m.
Proof.
  induction m as [|[k v] rest IH]; simpl; intros Hnot; [reflexivity|].
  destruct (String.eqb k txHash) eqn:Hk.
  - apply String.eqb_eq in Hk. subst k. exfalso. apply Hnot.
    apply elem_of_cons. auto.
  - simpl. f_equal. apply IH. intros Hin. apply Hnot.
    apply elem_of_cons. auto.
Qed.

(** X13 — [getAllPendingTransactions].  For a map in which every hash
    occurs once: a status is in the result exactly when it is pending and
    stored under some hash; and after a status that is not pending has
    been set for a hash, the result is made of the pending statuses of the
    other hashes, in the order in which the map holds them. *)
Theorem getAllPendingTransactions_lists_pending (m : OrderedMap) :
  NoDup (map fst m) ->
  (forall st, st ∈ getAllPendingTransactions m <->
              status st = pending /\ exists txHash, contents m !! txHash = Some st) /\
  (forall txHash st, is_pending st = false ->
     getAllPendingTransactions (ordered_set txHash st m)
     = List.filter is_pending
         (map snd (List.filter (fun e => negb (String.eqb (fst e) txHash)) m))).
Proof.
  intros Hnd. split.
  - intros st. unfold getAllPendingTransactions.
    rewrite list_elem_of_In, List.filter_In, <- list_elem_of_In.
    rewrite list_elem_of_fmap.
    assert (Hp : is_pending st = true <-> status st = pending)
      by (unfold is_pending; destruct (status st); split; congruence).
    rewrite Hp. split.
    + intros [([k v] & -> & Hin) Hpend]. split; [exact Hpend|].
      exists k. apply elem_of_contents; assumption.
    + intros [Hpend (k & Hk)]. split; [|exact Hpend].
      exists (k, st). split; [reflexivity|].
      apply elem_of_contents; assumption.
  - intros txHash st Hterm. unfold getAllPendingTransactions.
    induction m as [|[k v] rest IH]; simpl.
    + rewrite Hterm. reflexivity.
    + apply NoDup_cons in Hnd as [Hk Hnd].
      destruct (String.eqb k txHash) eqn:Heq; simpl.
      * apply String.eqb_eq in Heq. subst k. rewrite Hterm.
        rewrite filter_other_keys by exact Hk. reflexivity.
      * rewrite IH by exact Hnd. reflexivity.
Qed.

(** Three transactions are sent; the second is then confirmed. *)
Definition three_sent : OrderedMap :=
  ordered_set "0xc" (status_of_submission "0xc")
    (ordered_set "0xb" (status_of_submission "0xb")
       (ordered_set "0xa" (status_of_submission "0xa") [])).

Example pending_after_confirmation :
  map hash
    (getAllPendingTransactions
       (ordered_set "0xb" (status_of_receipt "0xb" receipt_success 12) three_sent))
  = ["0xa"%string; "0xc"%string].
Proof. vm_compute. reflexivity. Qed.

Lemma getAllPendingTransactions_lists_pending_witness :
  NoDup (map fst three_sent) /\
  getAllPendingTransactions
    (ordered_set "0xb" (status_of_receipt "0xb" receipt_success 12) three_sent)
  = List.filter is_pending
      (map snd (List.filter (fun e => negb (String.eqb (fst e) "0xb")) three_sent)).
Proof.
  assert (Hnd : NoDup (map fst three_sent)).
  { unfold three_sent. repeat apply ordered_set_NoDup. apply NoDup_nil_2. }
  split; [exact Hnd|].
  apply (proj2 (getAllPendingTransactions_lists_pending three_sent Hnd)).
  reflexivity.
Defined.

End Tracker.

(** ** The wallet connection and the calls of the contract

    [BlockchainManager.connectWallet], [getContractWithSigner],
    [getAddress], [submitProofToBlockchain],
    [submitGroupProofToBlockchain] and [getUserNFTs] of
    src/lib/blockchain.ts.  Each awaited call of the wallet or of the
    contract either fails with a thrown value or succeeds with a result;
    what it answers is given, and the code is a flow over the static
    fields that returns or throws. *)

Module Client.

(** *** Errors, promises and the state of the class *)

(** The [code] of a thrown value: absent, a number or a string. *)
Inductive JsCode :=
| NoCode
| NumCode (n : Z)
| StrCode (s : string).

(** What the code looks at in a thrown value. *)
Record JsError := mkError {
  code : JsCode;
  message : option string
}.

(** [error.code === n] and [error.code === s] *)
Definition code_is_number (e : JsError) (n : Z) : bool :=
  match code e with
  | NumCode m => m =? n
  | _ => false
  end.

Definition code_is_string (e : JsError) (s : string) : bool :=
  match code e with
  | StrCode t => String.eqb t s
  | _ => false
  end.

(** [new Error(msg)] *)
Definition Error_ (msg : string) : JsError := mkError NoCode (Some msg).

(** How an awaited call ends. *)
Inductive Attempt (A : Type) :=
| Fails (e : JsError)
| Succeeds (a : A).
Arguments Fails {A} e.
Arguments Succeeds {A} a.

Inductive completion (A : Type) :=
| Returns (a : A)
| Throws (e : JsError).
Arguments Returns {A} a.
Arguments Throws {A} e.

(** The static fields: those of the tracker, the calls of
    [monitorTransaction] in flight, and whether [signer] is set. *)
Record Client := mkClient {
  system : Tracker.System;
  signer : bool
}.

Definition providerSet (c : Client) : bool :=
  Tracker.provider (Tracker.manager (system c)).

Definition contractSet (c : Client) : bool :=
  Tracker.contract (Tracker.manager (system c)).

Definition cache (c : Client) : gmap string Tracker.TransactionStatus :=
  Tracker.pendingTransactions (Tracker.manager (system c)).

Definition Flow (A : Type) : Type := Client -> Client * completion A.

Definition ret {A} (a : A) : Flow A := fun c => (c, Returns a).

Definition throw {A} (e : JsError) : Flow A := fun c => (c, Throws e).

Definition bind {A B} (m : Flow A) (k : A -> Flow B) : Flow B :=
  fun c => match m c with
           | (c', Returns a) => k a c'
           | (c', Throws e) => (c', Throws e)
           end.

Notation "x <- m ; k" := (bind m (fun x => k))
  (at level 20, m at level 100, k at level 200, only parsing).
Notation "m >> k" := (bind m (fun _ => k))
  (at level 100, k at level 200, only parsing, right associativity).

Definition await {A} (p : Attempt A) : Flow A :=
  fun c => match p with
           | Succeeds a => (c, Returns a)
           | Fails e => (c, Throws e)
           end.

Definition try_catch {A} (body : Flow A) (handler : JsError -> Flow A) : Flow A :=
  fun c => match body c with
           | (c', Returns a) => (c', Returns a)
           | (c', Throws e) => handler e c'
           end.

Definition update (f : Client -> Client) : Flow unit := fun c => (f c, Returns tt).

Definition set_provider (c : Client) : Client :=
  mkClient
    (Tracker.mkSystem
       (Tracker.mkManager true (contractSet c) (cache c))
       (Tracker.active (system c)))
    (signer c).

Definition set_contract (c : Client) : Client :=
  mkClient
    (Tracker.mkSystem
       (Tracker.mkManager (providerSet c) true (cache c))
       (Tracker.active (system c)))
    (signer c).

Definition set_signer (c : Client) : Client := mkClient (system c) true.

(** Nothing is set when the page is loaded. *)
Definition loaded : Client :=
  mkClient (Tracker.mkSystem (Tracker.mkManager false false ∅) []) false.

(** *** connectWallet *)

(** What the browser wallet answers during one call. *)
Record Wallet := mkWallet {
  ethereum : bool;
  eth_requestAccounts : Attempt unit;
  wallet_switchEthereumChain : Attempt unit;
  wallet_addEthereumChain : Attempt unit;
  getSigner : Attempt unit;
  getNetwork : Attempt Z;
  signer_getAddress : Attempt string;
  getBalance : Attempt Z
}.

Definition connectWallet_try (w : Wallet) : Flow bool :=
  if negb (ethereum w) then ret false else
  (* Create provider *)
  update set_provider >>
  (* Request account access *)
  await (eth_requestAccounts w) >>
  (* Switch to Polygon zkEVM testnet *)
  try_catch (await (wallet_switchEthereumChain w))
    (fun switchError =>
       (* Add the network if it doesn't exist *)
       if code_is_number switchError 4902
       then await (wallet_addEthereumChain w)
       else throw switchError) >>
  (* Get signer *)
  await (getSigner w) >>
  update set_signer >>
  (* Verify we're on the correct network *)
  chainId <- await (getNetwork w);
  if negb (chainId =? 1442) then throw (Error_ "Wrong network") else
  address <- await (signer_getAddress w);
  balance <- await (getBalance w);
  ret true.

Definition connectWallet (w : Wallet) (c : Client) : Client * bool :=
  match connectWallet_try w c with
  | (c', Returns connected) => (c', connected)
  | (c', Throws _) => (c', false)
  end.

(** *** getContractWithSigner *)

Definition getContractWithSigner (w : Wallet) : Flow unit :=
  fun c =>
    let k : Flow unit :=
      fun c1 => if contractSet c1 then (c1, Returns tt)
                else (set_contract c1, Returns tt) in
    if signer c then k c
    else match connectWallet w c with
         | (c', true) => k c'
         | (c', false) => (c', Throws (Error_ "Failed to connect wallet"))
         end.

(** The wallet answers that let [connectWallet] reach its last line. *)
Definition wallet_agrees (w : Wallet) : bool :=
  ethereum w
  && match eth_requestAccounts w with Succeeds _ => true | Fails _ => false end
  && match wallet_switchEthereumChain w with
     | Succeeds _ => true
     | Fails e =>
         code_is_number e 4902
         && match wallet_addEthereumChain w with
            | Succeeds _ => true
            | Fails _ => false
            end
     end
  && match getSigner w with Succeeds _ => true | Fails _ => false end
  && match getNetwork w with Succeeds chainId => chainId =? 1442 | Fails _ => false end
  && match signer_getAddress w with Succeeds _ => true | Fails _ => false end
  && match getBalance w with Succeeds _ => true | Fails _ => false end.

Ltac run_flow :=
  unfold connectWallet, connectWallet_try, try_catch, bind, await, update,
    ret, throw in *;
  simpl in *.

(** A call that says yes has set the provider and the signer. *)
Lemma connectWallet_true_sets w c :
  snd (connectWallet w c) = true ->
  providerSet (fst (connectWallet w c)) = true /\
  signer (fst (connectWallet w c)) = true.
Proof.
  run_flow.
  destruct (ethereum w); simpl; [|discriminate].
  destruct (eth_requestAccounts w); simpl; [discriminate|].
  destruct (wallet_switchEthereumChain w) as [e|]; simpl;
    [destruct (code_is_number e 4902); simpl; [|discriminate];
     destruct (wallet_addEthereumChain w); simpl; [discriminate|]|];
    (destruct (getSigner w); simpl; [discriminate|];
     destruct (getNetwork w) as [|chainId]; simpl; [discriminate|];
     destruct (chainId =? 1442); simpl; [|discriminate];
     destruct (signer_getAddress w); simpl; [discriminate|];
     destruct (getBalance w); simpl; [discriminate | auto]).
Qed.

(** X14 — when [connectWallet] says yes.  It returns true exactly when
    the wallet is there, the accounts request succeeds, the switch of
    chain succeeds or fails with code 4902 and the chain is then added,
    the signer is obtained, the chain identifier is 1442 and the address
    and balance are read; and then provider and signer are set.  It never
    throws. *)
Theorem connectWallet_true_iff w c :
  snd (connectWallet w c) = wallet_agrees w /\
  (snd (connectWallet w c) = true ->
   providerSet (fst (connectWallet w c)) = true /\
   signer (fst (connectWallet w c)) = true).
Proof.
  split; [|apply connectWallet_true_sets].
  unfold wallet_agrees. run_flow.
  destruct (ethereum w); simpl; [|reflexivity].
  destruct (eth_requestAccounts w); simpl; [reflexivity|].
  destruct (wallet_switchEthereumChain w) as [e|]; simpl;
    [destruct (code_is_number e 4902); simpl; [|reflexivity];
     destruct (wallet_addEthereumChain w); simpl; [reflexivity|]|];
    (destruct (getSigner w); simpl; [reflexivity|];
     destruct (getNetwork w) as [|chainId]; simpl; [reflexivity|];
     destruct (chainId =? 1442); simpl; [|reflexivity];
     destruct (signer_getAddress w); simpl; [reflexivity|];
     destruct (getBalance w); reflexivity).
Qed.

(** *** Reasoning about flows *)

(** From a state that satisfies [P], the flow ends in a state that
    satisfies [Q a] when it returns [a] and [E] when it throws. *)
Definition triple {A} (P : Client -> Prop) (m : Flow A)
    (Q : A -> Client -> Prop) (E : Client -> Prop) : Prop :=
  forall c, P c ->
    match m c with
    | (c', Returns a) => Q a c'
    | (c', Throws _) => E c'
    end.

Lemma triple_ret {A} (P : Client -> Prop) (a : A) (Q : A -> Client -> Prop) E :
  (forall c, P c -> Q a c) -> triple P (ret a) Q E.
Proof. intros H c Hc. apply H, Hc. Qed.

Lemma triple_throw {A} (P : Client -> Prop) e (Q : A -> Client -> Prop)
    (E : Client -> Prop) :
  (forall c, P c -> E c) -> triple P (throw e) Q E.
Proof. intros H c Hc. apply H, Hc. Qed.

Lemma triple_await {A} (P : Client -> Prop) (p : Attempt A)
    (Q : A -> Client -> Prop) (E : Client -> Prop) :
  (forall a c, p = Succeeds a -> P c -> Q a c) ->
  (forall e c, p = Fails e -> P c -> E c) ->
  triple P (await p) Q E.
Proof.
  intros HQ HE c Hc. unfold await. destruct p; [eapply HE | eapply HQ]; eauto.
Qed.

Lemma triple_update (P : Client -> Prop) f (Q : unit -> Client -> Prop) E :
  (forall c, P c -> Q tt (f c)) -> triple P (update f) Q E.
Proof. intros H c Hc. apply H, Hc. Qed.

Lemma triple_bind {A B} (P : Client -> Prop) (m : Flow A) (k : A -> Flow B)
    (Mid : A -> Client -> Prop) (Q : B -> Client -> Prop) (E : Client -> Prop) :
  triple P m Mid E -> (forall a, triple (Mid a) (k a) Q E) ->
  triple P (bind m k) Q E.
Proof.
  intros Hm Hk c Hc. unfold bind. specialize (Hm c Hc).
  destruct (m c) as [c' [a|e]]; [apply (Hk a c' Hm) | exact Hm].
Qed.

Lemma triple_try_catch {A} (P : Client -> Prop) (body : Flow A) handler
    (Q : A -> Client -> Prop) (E' E : Client -> Prop) :
  triple P body Q E' -> (forall e, triple E' (handler e) Q E) ->
  triple P (try_catch body handler) Q E.
Proof.
  intros Hb Hh c Hc. unfold try_catch. specialize (Hb c Hc).
  destruct (body c) as [c' [a|e]]; [exact Hb | apply (Hh e c' Hb)].
Qed.

Lemma triple_weaken {A} (P P' : Client -> Prop) (m : Flow A)
    (Q Q' : A -> Client -> Prop) (E E' : Client -> Prop) :
  triple P' m Q' E' -> (forall c, P c -> P' c) ->
  (forall a c, Q' a c -> Q a c) -> (forall c, E' c -> E c) ->
  triple P m Q E.
Proof.
  intros Hm HP HQ HE c Hc. specialize (Hm c (HP c Hc)).
  destruct (m c) as [c' [a|e]]; auto.
Qed.

(** A flow that keeps [P] whether it returns or throws. *)
Definition keeps {A} (P : Client -> Prop) (m : Flow A) : Prop :=
  triple P m (fun _ => P) P.

Lemma keeps_await {A} P (p : Attempt A) : keeps P (await p).
Proof. apply triple_await; auto. Qed.

Lemma keeps_ret {A} P (a : A) : keeps P (ret a).
Proof. apply triple_ret; auto. Qed.

Lemma keeps_throw {A} P e : keeps P (@throw A e).
Proof. apply triple_throw; auto. Qed.

Lemma keeps_bind {A B} P (m : Flow A) (k : A -> Flow B) :
  keeps P m -> (forall a, keeps P (k a)) -> keeps P (bind m k).
Proof. intros Hm Hk. eapply triple_bind; [exact Hm | exact Hk]. Qed.

Lemma keeps_try_catch {A} P (body : Flow A) handler :
  keeps P body -> (forall e, keeps P (handler e)) ->
  keeps P (try_catch body handler).
Proof. intros Hb Hh. eapply triple_try_catch; [exact Hb | exact Hh]. Qed.

Lemma keeps_update P f : (forall c, P c -> P (f c)) -> keeps P (update f).
Proof. intros H. apply triple_update, H. Qed.

(** *** The order in which the fields get set *)

(** The signer is not set without the provider, nor the contract without
    the signer. *)
Definition fields_in_order (c : Client) : Prop :=
  (signer c = true -> providerSet c = true) /\
  (contractSet c = true -> signer c = true).

(** Relative to the state [c0] of before: the statuses and the calls in
    flight are the same, the fields that were set are set, and the
    contract is set only if it was. *)
Definition only_connected (c0 c : Client) : Prop :=
  cache c = cache c0 /\
  Tracker.active (system c) = Tracker.active (system c0) /\
  contractSet c = contractSet c0 /\
  (providerSet c0 = true -> providerSet c = true) /\
  (signer c0 = true -> signer c = true).

Lemma connectWallet_try_keeps w c0 :
  fields_in_order c0 ->
  keeps (fun c => only_connected c0 c /\ fields_in_order c)
    (connectWallet_try w).
Proof.
  intros H0. unfold connectWallet_try.
  destruct (ethereum w); simpl; [|apply keeps_ret].
  set (P := fun c => (only_connected c0 c /\ fields_in_order c)
                     /\ providerSet c = true).
  eapply triple_bind with (Mid := fun _ => P).
  - apply triple_update. intros c [(H1 & H2 & H3 & H4 & H5) [H6 H7]].
    unfold P, only_connected, fields_in_order, set_provider, providerSet,
      contractSet, cache in *. simpl in *. tauto.
  - intros _.
    assert (Hk : keeps P
      (await (eth_requestAccounts w) >>
       try_catch (await (wallet_switchEthereumChain w))
         (fun switchError =>
            if code_is_number switchError 4902
            then await (wallet_addEthereumChain w)
            else throw switchError) >>
       await (getSigner w) >>
       update set_signer >>
       chainId <- await (getNetwork w);
       if negb (chainId =? 1442) then throw (Error_ "Wrong network") else
       address <- await (signer_getAddress w);
       balance <- await (getBalance w);
       ret true)).
    { apply keeps_bind; [apply keeps_await|]. intros _.
      apply keeps_bind.
      { apply keeps_try_catch; [apply keeps_await|]. intros e.
        destruct (code_is_number e 4902);
          [apply keeps_await | apply keeps_throw]. }
      intros _. apply keeps_bind; [apply keeps_await|]. intros _.
      apply keeps_bind.
      { apply keeps_update. intros c [[(H1 & H2 & H3 & H4 & H5) [H6 H7]] H8].
        unfold P, only_connected, fields_in_order, set_signer, providerSet,
          contractSet, cache in *. simpl in *. tauto. }
      intros _. apply keeps_bind; [apply keeps_await|]. intros chainId.
      destruct (negb (chainId =? 1442)); [apply keeps_throw|].
      apply keeps_bind; [apply keeps_await|]. intros _.
      apply keeps_bind; [apply keeps_await|]. intros _. apply keeps_ret. }
    eapply triple_weaken; [exact Hk | | |]; unfold P; tauto.
Qed.

Lemma connectWallet_keeps w c :
  fields_in_order c ->
  only_connected c (fst (connectWallet w c)) /\
  fields_in_order (fst (connectWallet w c)).
Proof.
  intros H0.
  assert (Hstart : only_connected c c /\ fields_in_order c)
    by (unfold only_connected; tauto).
  pose proof (connectWallet_try_keeps w c H0 c Hstart) as H.
  unfold connectWallet. destruct (connectWallet_try w c) as [c' [b|e]]; exact H.
Qed.

(** What [getContractWithSigner] keeps and what it sets. *)
Lemma getContractWithSigner_keeps w c :
  fields_in_order c ->
  fields_in_order (fst (getContractWithSigner w c)) /\
  cache (fst (getContractWithSigner w c)) = cache c /\
  Tracker.active (system (fst (getContractWithSigner w c)))
    = Tracker.active (system c) /\
  (providerSet c = true -> providerSet (fst (getContractWithSigner w c)) = true) /\
  (signer c = true -> signer (fst (getContractWithSigner w c)) = true) /\
  (contractSet c = true -> contractSet (fst (getContractWithSigner w c)) = true) /\
  (snd (getContractWithSigner w c) = Returns tt ->
   providerSet (fst (getContractWithSigner w c)) = true /\
   signer (fst (getContractWithSigner w c)) = true /\
   contractSet (fst (getContractWithSigner w c)) = true).
Proof.
  intros H0.
  destruct (connectWallet_keeps w c H0) as [(C1 & C2 & C3 & C4 & C5) C6].
  pose proof C6 as [C7 C8].
  assert (Hk : forall c1,
    fields_in_order c1 -> signer c1 = true ->
    cache c1 = cache c -> Tracker.active (system c1) = Tracker.active (system c) ->
    (providerSet c = true -> providerSet c1 = true) ->
    (signer c = true -> signer c1 = true) ->
    (contractSet c = true -> contractSet c1 = true) ->
    let r := (if contractSet c1 then (c1, Returns tt)
              else (set_contract c1, Returns tt)) : Client * completion unit in
    fields_in_order (fst r) /\ cache (fst r) = cache c /\
    Tracker.active (system (fst r)) = Tracker.active (system c) /\
    (providerSet c = true -> providerSet (fst r) = true) /\
    (signer c = true -> signer (fst r) = true) /\
    (contractSet c = true -> contractSet (fst r) = true) /\
    (snd r = Returns tt ->
     providerSet (fst r) = true /\ signer (fst r) = true /\
     contractSet (fst r) = true)).
  { intros c1 [F1 F2] Hs K1 K2 K3 K4 K5.
    destruct (contractSet c1) eqn:Hc; simpl.
    - repeat split; auto.
    - unfold fields_in_order, set_contract, providerSet, contractSet, cache in *.
      simpl in *. repeat split; auto. }
  unfold getContractWithSigner.
  destruct (signer c) eqn:Hs.
  - apply Hk; auto.
  - pose proof (connectWallet_true_sets w c) as Htrue.
    destruct (connectWallet w c) as [c' [|]] eqn:Hcw; simpl in *.
    + destruct (Htrue eq_refl) as [_ Hs']. apply Hk; auto. congruence.
    + repeat split; try tauto; try congruence.
Qed.

(** X15 — the fields are set in order and the tracker is left alone.
    From a state in which the signer is not set without the provider nor
    the contract without the signer, [connectWallet] and
    [getContractWithSigner] end in such a state, whatever the wallet
    answers; they leave the statuses and the calls in flight as they
    were and unset nothing; and when [getContractWithSigner] returns,
    provider, signer and contract are all set. *)
Theorem fields_set_in_order w c :
  fields_in_order c ->
  (fields_in_order (fst (connectWallet w c)) /\
   cache (fst (connectWallet w c)) = cache c /\
   Tracker.active (system (fst (connectWallet w c))) = Tracker.active (system c) /\
   (providerSet c = true -> providerSet (fst (connectWallet w c)) = true) /\
   (signer c = true -> signer (fst (connectWallet w c)) = true) /\
   contractSet (fst (connectWallet w c)) = contractSet c) /\
  (fields_in_order (fst (getContractWithSigner w c)) /\
   cache (fst (getContractWithSigner w c)) = cache c /\
   Tracker.active (system (fst (getContractWithSigner w c)))
     = Tracker.active (system c) /\
   (providerSet c = true -> providerSet (fst (getContractWithSigner w c)) = true) /\
   (signer c = true -> signer (fst (getContractWithSigner w c)) = true) /\
   (contractSet c = true -> contractSet (fst (getContractWithSigner w c)) = true) /\
   (snd (getContractWithSigner w c) = Returns tt ->
    providerSet (fst (getContractWithSigner w c)) = true /\
    signer (fst (getContractWithSigner w c)) = true /\
    contractSet (fst (getContractWithSigner w c)) = true)).
Proof.
  intros H0. split; [|apply getContractWithSigner_keeps, H0].
  destruct (connectWallet_keeps w c H0) as [(C1 & C2 & C3 & C4 & C5) C6].
  tauto.
Qed.

(** X16 — a failed connection can leave the signer set.  When the wallet
    answers every request up to the signer and reports a chain other than
    1442, [connectWallet] returns false with the signer set; after that
    [getContractWithSigner] returns without asking the wallet at all,
    whatever the wallet would answer. *)
Theorem wrong_network_leaves_signer w c chainId :
  ethereum w = true ->
  eth_requestAccounts w = Succeeds tt ->
  wallet_switchEthereumChain w = Succeeds tt ->
  getSigner w = Succeeds tt ->
  getNetwork w = Succeeds chainId ->
  chainId <> 1442 ->
  snd (connectWallet w c) = false /\
  signer (fst (connectWallet w c)) = true /\
  forall w', snd (getContractWithSigner w' (fst (connectWallet w c))) = Returns tt.
Proof.
  intros He Hr Hsw Hsg Hn Hne.
  assert (Hcw : connectWallet w c = (set_signer (set_provider c), false)).
  { run_flow. rewrite He, Hr, Hsw, Hsg, Hn. simpl.
    apply Z.eqb_neq in Hne. rewrite Hne. reflexivity. }
  rewrite Hcw. simpl. split; [reflexivity|]. split; [reflexivity|].
  intros w'. unfold getContractWithSigner. simpl.
  destruct (contractSet _); reflexivity.
Qed.

(** *** The proof as the contract call takes it *)

(** [proof: string | Uint8Array].  A string is held as the bytes of its
    UTF-8 encoding, so that [ethers.toUtf8Bytes] is the list of them. *)
Inductive ProofInput :=
| ProofString (s : string)
| ProofUint8Array (bytes : list Z).

Definition toUtf8Bytes (s : string) : list Z := Registry.bytes_of_string s.

Definition hex_digit (n : Z) : ascii :=
  nth (Z.to_nat n) (list_ascii_of_string "0123456789abcdef") "0"%char.

(** [ethers.hexlify]: "0x" and two lower-case digits for each byte. *)
Definition hexlify (bytes : list Z) : string :=
  String "0" (String "x"
    (fold_right
       (fun b rest =>
          String (hex_digit (b / 16 mod 16)) (String (hex_digit (b mod 16)) rest))
       EmptyString bytes)).

Definition proofBytes_of (proof : ProofInput) : string :=
  match proof with
  | ProofString s =>
      (* If it's a hex string, use as is, otherwise convert *)
      if String.prefix "0x" s then s else hexlify (toUtf8Bytes s)
  | ProofUint8Array bytes =>
      (* Convert Uint8Array to hex string *)
      hexlify bytes
  end.

(** *** submitProofToBlockchain *)

(** What the contract object answers: [getAddress()], [submitProof
    .estimateGas(eventId, proofBytes)] and [submitProof(eventId,
    proofBytes, overrides)], which resolves to the hash of the
    transaction sent; the override is the gas limit, if one is given. *)
Record Contract := mkContract {
  contract_getAddress : Attempt string;
  estimateGas_submitProof : string -> string -> Attempt Z;
  send_submitProof : string -> string -> option Z -> Attempt string
}.

Record Submission := mkSubmission {
  txHash : string;
  submission_status : Tracker.TransactionStatus;
  nftTokenId : option string
}.

(** [String.prototype.includes] *)
Definition includes (text part : string) : bool :=
  match String.index 0 part text with
  | Some _ => true
  | None => false
  end.

(** [gasEstimate * 120n / 100n] on bigints, which rounds towards zero. *)
Definition with_gas_buffer (gasEstimate : Z) : Z :=
  Z.quot (gasEstimate * 120) 100.

(** [this.pendingTransactions.set(tx.hash, status);
     this.monitorTransaction(tx.hash);] *)
Definition track (hash : string) (c : Client) : Client :=
  mkClient (Tracker.step (system c) (Tracker.Submitted hash)) (signer c).

Definition submitProofToBlockchain_try (w : Wallet) (k : Contract)
    (eventId : string) (proof : ProofInput) : Flow Submission :=
  getContractWithSigner w >>
  (* Convert proof to bytes format for the contract *)
  let proofBytes := proofBytes_of proof in
  await (contract_getAddress k) >>
  (* Estimate gas first *)
  gasEstimate <- await (estimateGas_submitProof k eventId proofBytes);
  let gasLimit := with_gas_buffer gasEstimate in (* Add 20% buffer *)
  (* Submit proof to contract with gas limit *)
  hash <- await (send_submitProof k eventId proofBytes (Some gasLimit));
  (* Create transaction status, start monitoring transaction *)
  update (track hash) >>
  ret (mkSubmission hash (Tracker.status_of_submission hash) None).

(** The catch block: it throws in every branch. *)
Definition submitProofToBlockchain_catch (error : JsError) : Flow Submission :=
  (* Parse specific error messages *)
  if code_is_string error "INSUFFICIENT_FUNDS"
  then throw (Error_ "Insufficient ETH balance for transaction fees")
  else if code_is_string error "USER_REJECTED"
  then throw (Error_ "Transaction was rejected by user")
  else if match message error with
          | Some text => includes text "Proof already submitted"
          | None => false
          end
  then throw (Error_ "This proof has already been submitted")
  else throw error.

Definition submitProofToBlockchain (w : Wallet) (k : Contract)
    (eventId : string) (proof : ProofInput) : Flow Submission :=
  try_catch (submitProofToBlockchain_try w k eventId proof)
    submitProofToBlockchain_catch.

Lemma submitProofToBlockchain_catch_throws error c :
  exists thrown, submitProofToBlockchain_catch error c = (c, Throws thrown).
Proof.
  unfold submitProofToBlockchain_catch, throw.
  destruct (code_is_string error "INSUFFICIENT_FUNDS"); [eauto|].
  destruct (code_is_string error "USER_REJECTED"); [eauto|].
  destruct (match message error with Some _ => _ | None => _ end); eauto.
Qed.

(** X17 — a submission is tracked, or nothing is.  From a state with its
    fields in order: when [submitProofToBlockchain] returns, the gas was
    estimated for the event and the proof bytes, the transaction was sent
    with the estimate times 120 over 100 as gas limit, the status pending
    with 0 confirmations is stored under the hash of the transaction and
    returned, and exactly one call of [monitorTransaction] for that hash
    has been started; when it throws, the statuses and the calls in flight
    are as they were. *)
Theorem submitProofToBlockchain_tracks_or_throws w k eventId proof c :
  fields_in_order c ->
  match submitProofToBlockchain w k eventId proof c with
  | (c', Returns r) =>
      (exists gasEstimate,
         estimateGas_submitProof k eventId (proofBytes_of proof)
           = Succeeds gasEstimate /\
         send_submitProof k eventId (proofBytes_of proof)
           (Some (with_gas_buffer gasEstimate)) = Succeeds (txHash r)) /\
      submission_status r = Tracker.status_of_submission (txHash r) /\
      nftTokenId r = None /\
      cache c' = <[txHash r := Tracker.status_of_submission (txHash r)]> (cache c) /\
      Tracker.active (system c')
        = Tracker.active (system c)
          ++ [Tracker.mkTask (txHash r) Tracker.AtGetTransaction]
  | (c', Throws _) =>
      cache c' = cache c /\
      Tracker.active (system c') = Tracker.active (system c)
  end.
Proof.
  intros H0.
  destruct (getContractWithSigner_keeps w c H0) as (G1 & G2 & G3 & _ & _ & _ & G7).
  unfold submitProofToBlockchain, try_catch, submitProofToBlockchain_try.
  unfold bind at 1.
  destruct (getContractWithSigner w c) as [c1 [[]|e]] eqn:Hg; simpl in *.
  2:{ destruct (submitProofToBlockchain_catch_throws e c1) as [t ->]. auto. }
  destruct (G7 eq_refl) as (Hprov & _).
  unfold bind, await, update, ret.
  destruct (contract_getAddress k) as [e|addr].
  { destruct (submitProofToBlockchain_catch_throws e c1) as [t ->]. auto. }
  destruct (estimateGas_submitProof k eventId (proofBytes_of proof))
    as [e|gasEstimate] eqn:Hest.
  { destruct (submitProofToBlockchain_catch_throws e c1) as [t ->]. auto. }
  destruct (send_submitProof k eventId (proofBytes_of proof)
              (Some (with_gas_buffer gasEstimate))) as [e|hash] eqn:Hsend.
  { destruct (submitProofToBlockchain_catch_throws e c1) as [t ->]. auto. }
  simpl. split; [eauto|]. split; [reflexivity|]. split; [reflexivity|].
  unfold providerSet in Hprov. unfold cache in G2.
  unfold track, cache. simpl. unfold Tracker.invoke. simpl.
  rewrite Hprov. simpl. rewrite G2, G3. auto.
Qed.

(** X18 — the gas limit.  For an estimate that is not negative the gas
    limit passed with the transaction is the estimate times 6 over 5
    rounded down: it is never below the estimate, and it is the estimate
    itself, without any buffer, when the estimate is below 5. *)
Theorem with_gas_buffer_bounds gasEstimate :
  0 <= gasEstimate ->
  gasEstimate <= with_gas_buffer gasEstimate /\
  5 * with_gas_buffer gasEstimate <= 6 * gasEstimate
    < 5 * with_gas_buffer gasEstimate + 5 /\
  (gasEstimate < 5 -> with_gas_buffer gasEstimate = gasEstimate).
Proof.
  intros Hpos. unfold with_gas_buffer.
  rewrite Z.quot_div_nonneg by lia.
  pose proof (Z.div_mod (gasEstimate * 120) 100 ltac:(lia)) as Hdm.
  pose proof (Z.mod_pos_bound (gasEstimate * 120) 100 ltac:(lia)) as Hm.
  lia.
Qed.

Lemma length_hexlify bytes :
  String.length (hexlify bytes) = (2 + 2 * length bytes)%nat.
Proof.
  unfold hexlify. simpl. do 2 f_equal.
  induction bytes as [|b bytes IH]; simpl; [reflexivity|]. rewrite IH. lia.
Qed.

(** *** Reading hexadecimal back *)

(** The value of a hexadecimal digit, lower case. *)
Definition hex_value (a : ascii) : option Z :=
  let n := Z.of_nat (nat_of_ascii a) in
  if (48 <=? n) && (n <=? 57) then Some (n - 48)
  else if (97 <=? n) && (n <=? 102) then Some (n - 87)
  else None.

(** The bytes that a string of pairs of hexadecimal digits denotes. *)
Fixpoint bytes_of_hex (digits : string) : option (list Z) :=
  match digits with
  | EmptyString => Some []
  | String hi (String lo rest) =>
      match hex_value hi, hex_value lo, bytes_of_hex rest with
      | Some h, Some l, Some bytes => Some (16 * h + l :: bytes)
      | _, _, _ => None
      end
  | String _ EmptyString => None
  end.

(** The bytes that "0x" followed by hexadecimal digits denotes. *)
Definition getBytes (hex : string) : option (list Z) :=
  match hex with
  | String "0" (String "x" digits) => bytes_of_hex digits
  | _ => None
  end.

Definition is_byte (b : Z) : Prop := 0 <= b < 256.

Lemma hex_value_hex_digit d :
  0 <= d < 16 -> hex_value (hex_digit d) = Some d.
Proof.
  intros Hd.
  assert (Hcases : d = 0 \/ d = 1 \/ d = 2 \/ d = 3 \/ d = 4 \/ d = 5 \/ d = 6
                   \/ d = 7 \/ d = 8 \/ d = 9 \/ d = 10 \/ d = 11 \/ d = 12
                   \/ d = 13 \/ d = 14 \/ d = 15) by lia.
  repeat (destruct Hcases as [->|Hcases]; [reflexivity|]).
  subst d. reflexivity.
Qed.

Lemma getBytes_hexlify bytes :
  Forall is_byte bytes -> getBytes (hexlify bytes) = Some bytes.
Proof.
  unfold hexlify, getBytes. induction 1 as [|b bytes Hb _ IH]; [reflexivity|].
  cbn [fold_right bytes_of_hex]. unfold is_byte in Hb.
  rewrite !hex_value_hex_digit by (apply Z.mod_pos_bound; lia).
  rewrite IH. do 2 f_equal.
  rewrite (Z.mod_small (b / 16)) by (split; [apply Z.div_pos | apply Z.div_lt_upper_bound]; lia).
  pose proof (Z.div_mod b 16 ltac:(lia)). lia.
Qed.

Lemma toUtf8Bytes_bytes s : Forall is_byte (toUtf8Bytes s).
Proof.
  unfold toUtf8Bytes, Registry.bytes_of_string.
  induction s as [|a s IH]; simpl; constructor; [|exact IH].
  unfold is_byte. pose proof (N_ascii_bounded a). lia.
Qed.

(** X19 — the proof bytes.  What is handed to the contract call always
    starts with "0x".  A string that starts with "0x" is handed over as
    it is, not encoded.  Any other string is handed over as "0x" followed
    by two lower-case hexadecimal digits for each byte of its UTF-8
    encoding, and an array as "0x" followed by two such digits for each of
    its bytes: read back as hexadecimal, what is handed over gives these
    very bytes, in their order, so that an empty one becomes "0x"
    alone. *)
Theorem proofBytes_of_is_hex proof :
  String.prefix "0x" (proofBytes_of proof) = true /\
  (forall s, proof = ProofString s -> String.prefix "0x" s = true ->
     proofBytes_of proof = s) /\
  (forall s, proof = ProofString s -> String.prefix "0x" s = false ->
     getBytes (proofBytes_of proof) = Some (toUtf8Bytes s) /\
     String.length (proofBytes_of proof)
     = (2 + 2 * length (toUtf8Bytes s))%nat) /\
  (forall bytes, proof = ProofUint8Array bytes -> Forall is_byte bytes ->
     getBytes (proofBytes_of proof) = Some bytes /\
     String.length (proofBytes_of proof) = (2 + 2 * length bytes)%nat).
Proof.
  split; [|split; [|split]].
  - assert (Hhex : forall bytes, String.prefix "0x" (hexlify bytes) = true)
      by (intros [|b bytes]; reflexivity).
    destruct proof as [s|bytes]; simpl; [|apply Hhex].
    destruct (String.prefix "0x" s) eqn:Hp; [exact Hp | apply Hhex].
  - intros s -> Hp. simpl. rewrite Hp. reflexivity.
  - intros s -> Hp. simpl. rewrite Hp.
    split; [apply getBytes_hexlify, toUtf8Bytes_bytes | apply length_hexlify].
  - intros bytes -> Hb. simpl.
    split; [apply getBytes_hexlify, Hb | apply length_hexlify].
Qed.

(** *** submitGroupProofToBlockchain *)

(** What is read of a [GroupProof]. *)
Record GroupProof := mkGroupProof {
  group_eventId : string;
  participants : list string;
  merkleRoot : string
}.

(** A number of elements in a template string. *)
Definition number_toString (n : nat) : string :=
  NilEmpty.string_of_uint (Nat.to_uint n).

(** [`${groupProof.eventId}_group_${groupProof.participants.length}`] *)
Definition groupEventId (g : GroupProof) : string :=
  (group_eventId g ++ "_group_" ++ number_toString (length (participants g)))%string.

Record GroupSubmission := mkGroupSubmission {
  group_txHash : string;
  proofId : string
}.

Definition submitGroupProofToBlockchain (w : Wallet) (k : Contract)
    (g : GroupProof) (c : Client) : Client * option GroupSubmission :=
  match (getContractWithSigner w >>
         (* Convert merkle root to bytes format *)
         let proofBytes := hexlify (toUtf8Bytes (merkleRoot g)) in
         hash <- await (send_submitProof k (groupEventId g) proofBytes None);
         ret (mkGroupSubmission hash hash)) c with
  | (c', Returns r) => (c', Some r)
  | (c', Throws _) => (c', None)
  end.

(** X20 — group proofs are sent but not tracked.
    [submitGroupProofToBlockchain] stores no status and starts no call of
    [monitorTransaction], whether it returns a result or null; the event
    identifier it sends is never empty; and a result carries the hash of
    the transaction sent, as [txHash] and as [proofId]. *)
Theorem submitGroupProofToBlockchain_not_tracked w k g c :
  fields_in_order c ->
  cache (fst (submitGroupProofToBlockchain w k g c)) = cache c /\
  Tracker.active (system (fst (submitGroupProofToBlockchain w k g c)))
    = Tracker.active (system c) /\
  groupEventId g <> EmptyString /\
  forall r, snd (submitGroupProofToBlockchain w k g c) = Some r ->
    proofId r = group_txHash r /\
    send_submitProof k (groupEventId g) (hexlify (toUtf8Bytes (merkleRoot g))) None
    = Succeeds (group_txHash r).
Proof.
  intros H0.
  destruct (getContractWithSigner_keeps w c H0) as (_ & G2 & G3 & _).
  assert (Hne : groupEventId g <> EmptyString).
  { unfold groupEventId. destruct (group_eventId g); discriminate. }
  unfold submitGroupProofToBlockchain, bind, await, ret.
  destruct (getContractWithSigner w c) as [c1 [[]|e]]; simpl in *;
    [|repeat split; auto; discriminate].
  destruct (send_submitProof k _ _ None) as [e|hash] eqn:Hsend; simpl;
    [repeat split; auto; discriminate|].
  repeat split; auto; injection H as <-; auto.
Qed.

(** *** The identifiers of group proofs *)

Definition is_digit (a : ascii) : bool :=
  (48 <=? nat_of_ascii a)%nat && (nat_of_ascii a <=? 57)%nat.

Lemma list_ascii_of_string_app (a b : string) :
  list_ascii_of_string (a ++ b)
  = list_ascii_of_string a ++ list_ascii_of_string b.
Proof. induction a as [|x a IH]; simpl; [reflexivity|]. rewrite IH. reflexivity. Qed.

Lemma string_of_uint_digits d :
  List.Forall (fun a => is_digit a = true)
    (list_ascii_of_string (NilEmpty.string_of_uint d)).
Proof. induction d; simpl; constructor; auto. Qed.

(** Two lists that start with digits up to a first character that is not
    a digit are cut at the same place. *)
Lemma cut_after_digits (l1 l2 : list ascii) x y r1 r2 :
  List.Forall (fun a => is_digit a = true) l1 ->
  List.Forall (fun a => is_digit a = true) l2 ->
  is_digit x = false -> is_digit y = false ->
  l1 ++ x :: r1 = l2 ++ y :: r2 ->
  l1 = l2 /\ r1 = r2.
Proof.
  intros H1. revert l2. induction H1 as [|a l1 Ha H1 IH]; intros l2 H2 Hx Hy E.
  - destruct H2 as [|b l2 Hb H2]; simpl in E.
    + injection E as _ E. auto.
    + injection E as -> _. congruence.
  - destruct H2 as [|b l2 Hb H2]; simpl in E.
    + injection E as -> _. congruence.
    + injection E as -> E. destruct (IH l2 H2 Hx Hy E) as [-> ->]. auto.
Qed.

(** X21 — the identifiers of group proofs do not collide with each
    other.  Two group proofs get the same event identifier only when they
    have the same event identifier of their own and the same number of
    participants. *)
Theorem groupEventId_injective g1 g2 :
  groupEventId g1 = groupEventId g2 ->
  group_eventId g1 = group_eventId g2 /\
  length (participants g1) = length (participants g2).
Proof.
  unfold groupEventId, number_toString. intros E.
  apply (f_equal list_ascii_of_string) in E.
  rewrite !list_ascii_of_string_app in E.
  apply (f_equal (@List.rev ascii)) in E.
  rewrite !List.rev_app_distr in E. simpl in E.
  rewrite <- !app_assoc in E. simpl in E.
  apply cut_after_digits in E;
    try reflexivity; try (apply List.Forall_rev, string_of_uint_digits).
  destruct E as [Ed Ee]. split.
  - injection Ee as Ee.
    apply (f_equal (@List.rev ascii)) in Ee. rewrite !List.rev_involutive in Ee.
    apply (f_equal string_of_list_ascii) in Ee.
    rewrite !string_of_list_ascii_of_string in Ee. exact Ee.
  - apply (f_equal (@List.rev ascii)) in Ed. rewrite !List.rev_involutive in Ed.
    apply (f_equal string_of_list_ascii) in Ed.
    rewrite !string_of_list_ascii_of_string in Ed.
    apply (f_equal NilEmpty.uint_of_string) in Ed. rewrite !NilEmpty.usu in Ed.
    injection Ed as Ed. apply (f_equal Nat.of_uint) in Ed.
    rewrite !DecimalNat.Unsigned.of_to in Ed. exact Ed.
Qed.

(** *** getUserNFTs *)

Record NFT := mkNFT {
  nft_tokenId : string;
  nft_tokenURI : string;
  nft_name : string;
  nft_description : string;
  nft_image : string
}.

(** What the contract answers about the tokens of the user asked for:
    [balanceOf(userAddress)], [tokenOfOwnerByIndex(userAddress, i)] and,
    in turn [i] of the loop, [tokenURI(tokenId)]. *)
Record Enumeration := mkEnumeration {
  balanceOf : Attempt Z;
  tokenOfOwnerByIndex : Z -> Attempt Z;
  tokenURI : Z -> Z -> Attempt string
}.

(** [Number.MAX_SAFE_INTEGER]: up to it [parseInt(balance.toString())] is
    the balance itself. *)
Definition MAX_SAFE_INTEGER : Z := 2 ^ 53 - 1.

(** The body of the loop for index [i]: the entry pushed, or none when one
    of the two calls fails and the inner catch only warns. *)
Definition nft_at (k : Enumeration) (i : Z) : option NFT :=
  match tokenOfOwnerByIndex k i with
  | Fails _ => None
  | Succeeds tokenId =>
      match tokenURI k i tokenId with
      | Fails _ => None
      | Succeeds uri =>
          Some (mkNFT (Tracker.bigint_toString tokenId) uri
                  ("ZK Proof NFT #" ++ Tracker.bigint_toString tokenId)
                  "Proof of attendance NFT" uri)
      end
  end.

(** [for (let i = 0; i < balanceNumber; i++)], with [remaining] turns to
    go from index [i] and [nfts] pushed so far. *)
Fixpoint getUserNFTs_loop (k : Enumeration) (i : Z) (remaining : nat)
    (nfts : list NFT) : list NFT :=
  match remaining with
  | O => nfts
  | S r =>
      getUserNFTs_loop k (i + 1) r
        match nft_at k i with
        | Some nft => nfts ++ [nft]
        | None => nfts
        end
  end.

(** The number of turns is [balanceNumber], which is the balance as long
    as this is at most [MAX_SAFE_INTEGER]; a negative one gives no turn. *)
Definition getUserNFTs (w : Wallet) (k : Enumeration) (c : Client)
    : Client * list NFT :=
  match (getContractWithSigner w >>
         (* Get user's NFT balance *)
         balance <- await (balanceOf k);
         let balanceNumber := balance in
         ret (getUserNFTs_loop k 0 (Z.to_nat balanceNumber) [])) c with
  | (c', Returns nfts) => (c', nfts)
  | (c', Throws _) => (c', [])
  end.

Lemma getUserNFTs_loop_spec k n : forall i nfts,
  getUserNFTs_loop k i n nfts
  = nfts ++ omap (nft_at k) (seqZ i (Z.of_nat n)).
Proof.
  induction n as [|n IH]; intros i nfts.
  - simpl. rewrite app_nil_r. reflexivity.
  - cbn [getUserNFTs_loop]. rewrite IH.
    rewrite (seqZ_cons i (Z.of_nat (S n))) by lia.
    replace (Z.pred (Z.of_nat (S n))) with (Z.of_nat n) by lia.
    replace (Z.succ i) with (i + 1) by lia. simpl.
    destruct (nft_at k i); [rewrite <- app_assoc|]; reflexivity.
Qed.

(** What the loop pushes: the entries of the indexes, in their order, at
    which both calls succeed. *)
Lemma omap_nft_at_lookup k (l : list Z) :
  exists indexes : list Z,
    indexes = List.filter (fun i => bool_decide (is_Some (nft_at k i))) l /\
    length (omap (nft_at k) l) = length indexes /\
    forall j i, indexes !! j = Some i ->
      exists nft, nft_at k i = Some nft /\ omap (nft_at k) l !! j = Some nft.
Proof.
  eexists. split; [reflexivity|].
  induction l as [|i l [IHlen IH]]; simpl.
  - split; [reflexivity|]. intros j i Hj. rewrite lookup_nil in Hj. discriminate.
  - change (list_omap Z NFT (nft_at k) l) with (omap (nft_at k) l).
    destruct (nft_at k i) as [nft|] eqn:Hi; simpl.
    + split; [rewrite IHlen; reflexivity|].
      intros [|j] i' Hj; simpl in *.
      * injection Hj as <-. eauto.
      * apply IH, Hj.
    + split; [exact IHlen | exact IH].
Qed.

Lemma nft_at_Some k i nft :
  nft_at k i = Some nft <->
  exists tokenId uri,
    tokenOfOwnerByIndex k i = Succeeds tokenId /\
    tokenURI k i tokenId = Succeeds uri /\
    nft = mkNFT (Tracker.bigint_toString tokenId) uri
            ("ZK Proof NFT #" ++ Tracker.bigint_toString tokenId)
            "Proof of attendance NFT" uri.
Proof.
  unfold nft_at. split.
  - destruct (tokenOfOwnerByIndex k i) as [|tokenId]; [discriminate|].
    destruct (tokenURI k i tokenId) as [|uri] eqn:Huri; [discriminate|].
    intros [= <-]. exists tokenId, uri. auto.
  - intros (tokenId & uri & -> & -> & ->). reflexivity.
Qed.

(** In a list filtered out of the numbers from [m] on, a later place holds
    a greater number. *)
Lemma filter_seqZ_ascending (f : Z -> bool) (n : nat) : forall m j1 j2 i1 i2,
  List.filter f (seqZ m (Z.of_nat n)) !! j1 = Some i1 ->
  List.filter f (seqZ m (Z.of_nat n)) !! j2 = Some i2 ->
  (j1 < j2)%nat -> i1 < i2.
Proof.
  induction n as [|n IH]; intros m j1 j2 i1 i2 H1 H2 Hlt.
  - simpl in H1. rewrite lookup_nil in H1. discriminate.
  - rewrite (seqZ_cons m (Z.of_nat (S n))) in H1, H2 by lia.
    replace (Z.pred (Z.of_nat (S n))) with (Z.of_nat n) in H1, H2 by lia.
    simpl in H1, H2. destruct (f m).
    + destruct j2 as [|j2]; [lia|]. simpl in H2. destruct j1 as [|j1].
      * simpl in H1. injection H1 as <-.
        apply list_elem_of_lookup_2, list_elem_of_In, List.filter_In in H2
          as [H2 _].
        apply list_elem_of_In, elem_of_seqZ in H2. lia.
      * simpl in H1. apply (IH (Z.succ m) j1 j2); auto. lia.
    + apply (IH (Z.succ m) j1 j2); auto.
Qed.

(** X22 — listing the tokens of a user.  When the connection and
    [balanceOf] succeed, with a balance of at most [MAX_SAFE_INTEGER],
    [getUserNFTs] returns one entry for each index from 0 to the balance
    at which [tokenOfOwnerByIndex] succeeds and [tokenURI] then succeeds
    for the token it gave, in the order of these indexes: the entry has
    the token number as [tokenId] and in its [name], and the URI as
    [tokenURI] and as [image].  An index at which one of the two calls
    fails is left out and the others are still listed.  When the
    connection or [balanceOf] fails the list is empty. *)
Theorem getUserNFTs_lists_readable_tokens w k c :
  match getContractWithSigner w c, balanceOf k with
  | (_, Returns _), Succeeds balance =>
      balance <= MAX_SAFE_INTEGER ->
      exists indexes : list Z,
        (forall i, i ∈ indexes <->
           0 <= i < balance /\
           exists tokenId uri,
             tokenOfOwnerByIndex k i = Succeeds tokenId /\
             tokenURI k i tokenId = Succeeds uri) /\
        (forall j1 j2 i1 i2, indexes !! j1 = Some i1 -> indexes !! j2 = Some i2 ->
           (j1 < j2)%nat -> i1 < i2) /\
        length (snd (getUserNFTs w k c)) = length indexes /\
        (forall j i, indexes !! j = Some i ->
           exists tokenId uri,
             tokenOfOwnerByIndex k i = Succeeds tokenId /\
             tokenURI k i tokenId = Succeeds uri /\
             snd (getUserNFTs w k c) !! j
             = Some (mkNFT (Tracker.bigint_toString tokenId) uri
                       ("ZK Proof NFT #" ++ Tracker.bigint_toString tokenId)
                       "Proof of attendance NFT" uri))
  | _, _ => snd (getUserNFTs w k c) = []
  end.
Proof.
  unfold getUserNFTs, bind, await, ret.
  destruct (getContractWithSigner w c) as [c1 [[]|e]]; simpl;
    [|destruct (balanceOf k); reflexivity].
  destruct (balanceOf k) as [e|balance]; simpl; [reflexivity|].
  intros _. rewrite getUserNFTs_loop_spec. simpl.
  destruct (omap_nft_at_lookup k (seqZ 0 (Z.of_nat (Z.to_nat balance))))
    as (indexes & Hidx & Hlen & Hat).
  exists indexes. split; [|split; [|split]].
  - intros i. rewrite Hidx, list_elem_of_In, List.filter_In, <- list_elem_of_In.
    rewrite elem_of_seqZ, bool_decide_eq_true.
    assert (Hsome : is_Some (nft_at k i) <->
              exists tokenId uri,
                tokenOfOwnerByIndex k i = Succeeds tokenId /\
                tokenURI k i tokenId = Succeeds uri).
    { split.
      - intros [nft Hn]. apply nft_at_Some in Hn as (t & u & H1 & H2 & _). eauto.
      - intros (t & u & H1 & H2). eexists. apply nft_at_Some. eauto. }
    rewrite Hsome. split; intros [Hr Hex]; (split; [lia | exact Hex]).
  - rewrite Hidx. apply filter_seqZ_ascending.
  - exact Hlen.
  - intros j i Hj. destruct (Hat j i Hj) as (nft & Hn & Hl).
    apply nft_at_Some in Hn as (t & u & H1 & H2 & ->). eauto.
Qed.

(** *** getAddress *)

(** [address_now] is what [this.signer.getAddress()] answers in this call;
    the wallet answers the connection, if one is attempted.  The result
    of [connectWallet] is not looked at. *)
Definition getAddress (w : Wallet) (address_now : Attempt string) (c : Client)
    : Client * option string :=
  let c1 := if signer c then c else fst (connectWallet w c) in
  if signer c1
  then match address_now with
       | Succeeds address => (c1, Some address)
       | Fails _ => (c1, None)
       end
  else (c1, None).

(** The wallet answers that let [connectWallet] get as far as the
    signer. *)
Definition wallet_gives_signer (w : Wallet) : bool :=
  ethereum w
  && match eth_requestAccounts w with Succeeds _ => true | Fails _ => false end
  && match wallet_switchEthereumChain w with
     | Succeeds _ => true
     | Fails e =>
         code_is_number e 4902
         && match wallet_addEthereumChain w with
            | Succeeds _ => true
            | Fails _ => false
            end
     end
  && match getSigner w with Succeeds _ => true | Fails _ => false end.

Lemma connectWallet_signer w c :
  signer (fst (connectWallet w c)) = signer c || wallet_gives_signer w.
Proof.
  unfold wallet_gives_signer. run_flow.
  destruct (ethereum w); simpl; [|rewrite orb_false_r; reflexivity].
  destruct (eth_requestAccounts w); simpl; [rewrite orb_false_r; reflexivity|].
  destruct (wallet_switchEthereumChain w) as [e|]; simpl;
    [destruct (code_is_number e 4902); simpl;
       [|rewrite orb_false_r; reflexivity];
     destruct (wallet_addEthereumChain w); simpl;
       [rewrite orb_false_r; reflexivity|]|];
    (destruct (getSigner w); simpl; [rewrite orb_false_r; reflexivity|];
     rewrite orb_true_r;
     destruct (getNetwork w) as [|chainId]; simpl; [reflexivity|];
     destruct (chainId =? 1442); simpl; [|reflexivity];
     destruct (signer_getAddress w); simpl; [reflexivity|];
     destruct (getBalance w); reflexivity).
Qed.

(** X23 — the address needs the signer only.  [getAddress] returns an
    address exactly when the signer was set, or the wallet takes the
    connection as far as the signer, and the address is then read; the
    chain the wallet is on plays no part, so an address is returned also
    after [connectWallet] has failed on the wrong network.  It never
    throws, and it leaves the statuses and the calls in flight as they
    were. *)
Theorem getAddress_needs_signer_only w address_now c :
  snd (getAddress w address_now c)
  = (if signer c || wallet_gives_signer w
     then match address_now with
          | Succeeds address => Some address
          | Fails _ => None
          end
     else None) /\
  (fields_in_order c ->
   cache (fst (getAddress w address_now c)) = cache c /\
   Tracker.active (system (fst (getAddress w address_now c)))
   = Tracker.active (system c)).
Proof.
  unfold getAddress. split.
  - destruct (signer c) eqn:Hs; simpl.
    + rewrite Hs. destruct address_now; reflexivity.
    + rewrite connectWallet_signer, Hs. simpl.
      destruct (wallet_gives_signer w); [destruct address_now|]; reflexivity.
  - intros H0.
    destruct (connectWallet_keeps w c H0) as [(G2 & G3 & _) _].
    destruct (signer c) eqn:Hs; simpl.
    + rewrite Hs. destruct address_now; auto.
    + destruct (signer (fst (connectWallet w c)));
        [destruct address_now|]; auto.
Qed.

(** *** Worked examples *)

(** A wallet on chain 1442 that grants every request. *)
Definition metamask : Wallet :=
  mkWallet true (Succeeds tt) (Succeeds tt) (Succeeds tt) (Succeeds tt)
    (Succeeds 1442) (Succeeds "0x5555") (Succeeds 1000).

(** The same wallet staying on chain 1. *)
Definition on_mainnet : Wallet :=
  mkWallet true (Succeeds tt) (Succeeds tt) (Succeeds tt) (Succeeds tt)
    (Succeeds 1) (Succeeds "0x5555") (Succeeds 1000).

(** A contract that estimates 21001 gas and sends transaction 0xabc. *)
Definition registry : Contract :=
  mkContract (Succeeds "0xc0ffee") (fun _ _ => Succeeds 21001)
    (fun _ _ _ => Succeeds "0xabc").

Lemma fields_in_order_loaded : fields_in_order loaded.
Proof. split; discriminate. Qed.

Example address_on_wrong_network :
  snd (connectWallet on_mainnet loaded) = false /\
  snd (getAddress on_mainnet (Succeeds "0x5555") loaded) = Some "0x5555"%string.
Proof. split; reflexivity. Qed.

Example gas_limit_of_21001 : with_gas_buffer 21001 = 25201.
Proof. reflexivity. Qed.

Example utf8_proof_is_encoded :
  (proofBytes_of (ProofString "0xzz"), proofBytes_of (ProofString "ok"),
   proofBytes_of (ProofUint8Array [1; 171]))
  = ("0xzz", "0x6f6b", "0x01ab")%string.
Proof. reflexivity. Qed.

Lemma proofBytes_of_is_hex_witness :
  Forall is_byte [1; 171] /\
  getBytes (proofBytes_of (ProofUint8Array [1; 171])) = Some [1; 171].
Proof.
  assert (Hb : Forall is_byte [1; 171])
    by (repeat constructor; unfold is_byte; lia).
  split; [exact Hb|].
  exact (proj1 (proj2 (proj2 (proj2 (proofBytes_of_is_hex
                                       (ProofUint8Array [1; 171]))))
                  [1; 171] eq_refl Hb)).
Defined.

Lemma fields_set_in_order_witness :
  fields_in_order loaded /\
  fields_in_order (fst (getContractWithSigner metamask loaded)) /\
  (snd (getContractWithSigner metamask loaded) = Returns tt ->
   contractSet (fst (getContractWithSigner metamask loaded)) = true).
Proof.
  assert (H0 : fields_in_order loaded) by (split; discriminate).
  split; [exact H0|].
  pose proof (fields_set_in_order metamask loaded H0)
    as [_ (G1 & _ & _ & _ & _ & _ & G7)].
  split; [exact G1|]. intros Hr. exact (proj2 (proj2 (G7 Hr))).
Defined.

Lemma wrong_network_leaves_signer_witness :
  snd (connectWallet on_mainnet loaded) = false /\
  signer (fst (connectWallet on_mainnet loaded)) = true /\
  forall w',
    snd (getContractWithSigner w' (fst (connectWallet on_mainnet loaded)))
    = Returns tt.
Proof.
  refine (wrong_network_leaves_signer on_mainnet loaded 1 _ _ _ _ _ _);
    try reflexivity.
  lia.
Defined.

Lemma submitProofToBlockchain_tracks_or_throws_witness :
  fields_in_order loaded /\
  snd (submitProofToBlockchain metamask registry "eth-summit"
         (ProofString "0x01") loaded)
  = Returns (mkSubmission "0xabc" (Tracker.status_of_submission "0xabc") None) /\
  cache (fst (submitProofToBlockchain metamask registry "eth-summit"
                (ProofString "0x01") loaded))
  = <["0xabc"%string := Tracker.status_of_submission "0xabc"]> (cache loaded).
Proof.
  assert (H0 : fields_in_order loaded) by (split; discriminate).
  assert (Hr : snd (submitProofToBlockchain metamask registry "eth-summit"
                      (ProofString "0x01") loaded)
               = Returns (mkSubmission "0xabc"
                            (Tracker.status_of_submission "0xabc") None))
    by reflexivity.
  split; [exact H0|]. split; [exact Hr|].
  pose proof (submitProofToBlockchain_tracks_or_throws metamask registry
                "eth-summit"%string (ProofString "0x01") loaded H0) as H.
  destruct (submitProofToBlockchain metamask registry "eth-summit"
              (ProofString "0x01") loaded) as [c' [r|e]];
    simpl in Hr; [|discriminate Hr].
  injection Hr as ->. simpl in H. simpl.
  exact (proj1 (proj2 (proj2 (proj2 H)))).
Defined.

Lemma with_gas_buffer_bounds_witness :
  0 <= 21001 /\
  21001 <= with_gas_buffer 21001 /\
  (3 < 5 -> with_gas_buffer 3 = 3).
Proof.
  split; [lia|]. split.
  - exact (proj1 (with_gas_buffer_bounds 21001 ltac:(lia))).
  - exact (proj2 (proj2 (with_gas_buffer_bounds 3 ltac:(lia)))).
Defined.

(** Two participants, with the root of their tree. *)
Definition two_attendees : GroupProof :=
  mkGroupProof "eth-summit" ["alice"; "bob"]%string "0xroot".

(** Two other participants of the same event. *)
Definition two_others : GroupProof :=
  mkGroupProof "eth-summit" ["carol"; "dave"]%string "0xother".

Example groupEventId_two_attendees :
  groupEventId two_attendees = "eth-summit_group_2"%string.
Proof. reflexivity. Qed.

Lemma submitGroupProofToBlockchain_not_tracked_witness :
  fields_in_order loaded /\
  cache (fst (submitGroupProofToBlockchain metamask registry two_attendees loaded))
  = cache loaded /\
  Tracker.active
    (system (fst (submitGroupProofToBlockchain metamask registry two_attendees
                    loaded)))
  = Tracker.active (system loaded).
Proof.
  assert (H0 : fields_in_order loaded) by (split; discriminate).
  split; [exact H0|].
  pose proof (submitGroupProofToBlockchain_not_tracked metamask registry
                two_attendees loaded H0) as (G1 & G2 & _).
  split; [exact G1 | exact G2].
Defined.

Lemma groupEventId_injective_witness :
  groupEventId two_attendees = groupEventId two_others /\
  group_eventId two_attendees = group_eventId two_others /\
  length (participants two_attendees) = length (participants two_others).
Proof.
  assert (He : groupEventId two_attendees = groupEventId two_others)
    by reflexivity.
  split; [exact He|]. exact (groupEventId_injective two_attendees two_others He).
Defined.

(** Three tokens, of which the one at index 1 cannot be read. *)
Definition three_tokens : Enumeration :=
  mkEnumeration (Succeeds 3)
    (fun i => if i =? 1 then Fails (Error_ "timeout") else Succeeds (i + 10))
    (fun _ _ => Succeeds "ipfs://summit.json").

Example unreadable_token_is_left_out :
  map nft_tokenId (snd (getUserNFTs metamask three_tokens loaded))
  = ["10"; "12"]%string.
Proof. reflexivity. Qed.

Lemma getUserNFTs_lists_readable_tokens_witness :
  3 <= MAX_SAFE_INTEGER /\
  exists indexes : list Z,
    (forall i, i ∈ indexes <->
       0 <= i < 3 /\
       exists tokenId uri,
         tokenOfOwnerByIndex three_tokens i = Succeeds tokenId /\
         tokenURI three_tokens i tokenId = Succeeds uri) /\
    (forall j1 j2 i1 i2, indexes !! j1 = Some i1 -> indexes !! j2 = Some i2 ->
       (j1 < j2)%nat -> i1 < i2) /\
    length (snd (getUserNFTs metamask three_tokens loaded)) = length indexes /\
    (forall j i, indexes !! j = Some i ->
       exists tokenId uri,
         tokenOfOwnerByIndex three_tokens i = Succeeds tokenId /\
         tokenURI three_tokens i tokenId = Succeeds uri /\
         snd (getUserNFTs metamask three_tokens loaded) !! j
         = Some (mkNFT (Tracker.bigint_toString tokenId) uri
                   ("ZK Proof NFT #" ++ Tracker.bigint_toString tokenId)
                   "Proof of attendance NFT" uri)).
Proof.
  assert (Hsafe : 3 <= MAX_SAFE_INTEGER) by (unfold MAX_SAFE_INTEGER; lia).
  split; [exact Hsafe|].
  pose proof (getUserNFTs_lists_readable_tokens metamask three_tokens loaded)
    as H.
  assert (Hc : getContractWithSigner metamask loaded
               = (set_contract (set_signer (set_provider loaded)), Returns tt))
    by reflexivity.
  rewrite Hc in H.
  change (balanceOf three_tokens) with (@Succeeds Z 3) in H.
  cbv iota beta in H.
  exact (H Hsafe).
Defined.

End Client.
